(** * ByteScout Auto API middleware: page-data extraction and cache

    A shallow embedding of [middleware.ts], [types.ts] and the cache
    utilities of [index.ts], followed by the properties of the cache, the
    path classifier, the configuration validator, the extractor and the
    fetcher.

    Conventions.
    - A JavaScript string is the list of its UTF-16 code units.
    - A JavaScript number that the code uses as a size, a timestamp or a
      duration is an integer of [Z]; where the code tests
      [Number.isInteger], the non-integers are a constructor of their own.
    - The module-level [Map] is an association list kept in insertion
      order, with the keys pairwise distinct.
    - Mutable module state, [Date.now()], the network and thrown errors are
      threaded through a state-and-exception monad over [World].
    - Waiting takes time: the clock moves on while a request is pending and
      while a body is read.  A timer is the time at which its callback is
      due; a pending request ends by the timer when the timer is due no
      later than the answer. *)

From Stdlib Require Import ZArith NArith List String Ascii Bool Lia Sorted.
From Stdlib Require Import DecimalString.

#[local] Set Warnings "-register-all".
Import ListNotations.
Local Open Scope string_scope.
Local Open Scope list_scope.
Local Open Scope Z_scope.

(* ================================================================== *)
(** ** JavaScript strings *)

Module JsString.

Definition code_unit := N.
Definition str := list code_unit.

Fixpoint of_string (s : string) : str :=
  match s with
  | EmptyString => []
  | String a s' => N_of_ascii a :: of_string s'
  end.

(** [a === b] on strings. *)
Fixpoint eqb (a b : str) : bool :=
  match a, b with
  | [], [] => true
  | x :: a', y :: b' => N.eqb x y && eqb a' b'
  | _, _ => false
  end.

(** [s.length] *)
Definition length (s : str) : Z := Z.of_nat (List.length s).

(** [s.startsWith(search)] *)
Fixpoint startsWith (search s : str) : bool :=
  match search, s with
  | [], _ => true
  | x :: search', y :: s' => N.eqb x y && startsWith search' s'
  | _ :: _, [] => false
  end.

(** [s.endsWith(search)]: the last [search.length] units equal [search]. *)
Definition endsWith (search s : str) : bool :=
  (List.length search <=? List.length s)%nat
  && eqb (skipn (List.length s - List.length search) s) search.

(** A relative index of [slice]: negative counts from the end, and the
    result is clamped to [0 .. len]. *)
Definition relative (len i : Z) : Z :=
  if i <? 0 then Z.max (len + i) 0 else Z.min i len.

(** [s.slice(start, end)] *)
Definition slice (start end_ : Z) (s : str) : str :=
  let from := relative (length s) start in
  let to := relative (length s) end_ in
  firstn (Z.to_nat (to - from)) (skipn (Z.to_nat from) s).

(** [s.substring(start)] *)
Definition substring (start : Z) (s : str) : str :=
  skipn (Z.to_nat (Z.min (Z.max start 0) (length s))) s.

(** [s.replace(pattern, replacement)] for a string pattern and a
    replacement without [$] patterns: the first occurrence only. *)
Fixpoint replace (pattern replacement s : str) : str :=
  if startsWith pattern s then replacement ++ skipn (List.length pattern) s
  else match s with
       | [] => []
       | c :: s' => c :: replace pattern replacement s'
       end.

(** ECMAScript WhiteSpace and LineTerminator code points, as [trim]
    strips them. *)
Definition isWhiteSpace (c : code_unit) : bool :=
  existsb (N.eqb c)
    [9; 10; 11; 12; 13; 32; 160; 5760; 8192; 8193; 8194; 8195; 8196; 8197;
     8198; 8199; 8200; 8201; 8202; 8232; 8233; 8239; 8287; 12288; 65279]%N.

Fixpoint trimStart (s : str) : str :=
  match s with
  | c :: s' => if isWhiteSpace c then trimStart s' else s
  | [] => []
  end.

Definition trimEnd (s : str) : str := rev (trimStart (rev s)).

(** [s.trim()] *)
Definition trim (s : str) : str := trimEnd (trimStart s).

(** [parts.join(separator)] *)
Fixpoint join (separator : str) (parts : list str) : str :=
  match parts with
  | [] => []
  | [p] => p
  | p :: rest => p ++ separator ++ join separator rest
  end.

(** [s.toUpperCase()] on the ASCII letters; other units are kept. *)
Definition toUpperCase (s : str) : str :=
  map (fun c => if (97 <=? c)%N && (c <=? 122)%N then (c - 32)%N else c) s.

(** [String(n)] for an integer [n], as a template literal prints it. *)
Definition ofNumber (n : Z) : str :=
  of_string (NilEmpty.string_of_int (Z.to_int n)).

Definition isDigit (c : code_unit) : bool := (48 <=? c)%N && (c <=? 57)%N.

Fixpoint digits (acc : option Z) (s : str) : option Z :=
  match s with
  | c :: s' =>
      if isDigit c
      then digits (Some (match acc with
                         | Some a => 10 * a + Z.of_N (c - 48)
                         | None => Z.of_N (c - 48)
                         end)) s'
      else acc
  | [] => acc
  end.

(** [parseInt(s)] on an unsigned decimal numeral: the longest prefix of
    decimal digits after leading white space; [None] is [NaN]. *)
Definition parseInt (s : str) : option Z := digits None (trimStart s).

End JsString.

Import JsString.
Coercion of_string : string >-> str.

(** Concatenation of strings, as [+] and template literals do it. *)
Notation "a +++ b" := (@app code_unit (a : str) (b : str))
  (at level 60, right associativity, only parsing).

(* ================================================================== *)
(** ** The insertion-ordered [Map] *)

Module JsMap.

Section WithValue.
Context {V : Type}.

Definition t := list (str * V).

Definition keys (m : t) : list str := map fst m.

(** [m.get(k)] *)
Fixpoint get (k : str) (m : t) : option V :=
  match m with
  | [] => None
  | (k', v) :: m' => if eqb k k' then Some v else get k m'
  end.

(** [m.delete(k)] *)
Definition delete (k : str) (m : t) : t :=
  filter (fun kv => negb (eqb k (fst kv))) m.

(** [m.set(k, v)]: a key already present keeps its place in the
    iteration order and gets the new value; a new key goes last. *)
Fixpoint set (k : str) (v : V) (m : t) : t :=
  match m with
  | [] => [(k, v)]
  | (k', v') :: m' => if eqb k k' then (k', v) :: m' else (k', v') :: set k v m'
  end.

(** [m.size] *)
Definition size (m : t) : Z := Z.of_nat (List.length m).

(** [m.keys().next().value] *)
Definition firstKey (m : t) : option str :=
  match m with
  | [] => None
  | (k, _) :: _ => Some k
  end.

(** The keys of a [Map] are pairwise distinct. *)
Definition wf (m : t) : Prop := NoDup (keys m).
End WithValue.

Arguments t : clear implicits.

End JsMap.

(* ================================================================== *)
(** ** types.ts *)

Module SDK_CONSTANTS.
Definition DEFAULT_API_PREFIX : str := "/api".
Definition DEFAULT_CACHE_DURATION : Z := 3600.
Definition DEFAULT_REQUEST_TIMEOUT : Z := 5000.
Definition DEFAULT_MAX_CACHE_SIZE : Z := 1048576.
Definition MAX_CACHE_DURATION : Z := 86400.
Definition MIN_CACHE_DURATION : Z := 60.
End SDK_CONSTANTS.

Inductive AutoApiErrorType :=
| INVALID_CONFIG
| FETCH_ERROR
| PARSE_ERROR
| CACHE_ERROR
| TIMEOUT_ERROR.

(** A plain JavaScript [Error]: what the code reads of it is its [name]. *)
Module Error.
Record t := { name : str; message : str }.
End Error.

Module AutoApiError.
Record t := {
  message : str;
  type : AutoApiErrorType;
  statusCode : option Z;
  originalError : option Error.t
}.
Definition name (_ : t) : str := "AutoApiError".
End AutoApiError.

(** A thrown value: [error instanceof AutoApiError] or not. *)
Inductive thrown :=
| AutoApi (e : AutoApiError.t)
| Generic (e : Error.t).

Definition thrown_name (e : thrown) : str :=
  match e with
  | AutoApi e => AutoApiError.name e
  | Generic e => Error.name e
  end.

(** An element of [PageData.headings]; a [level] of [None] is [NaN]. *)
Module Heading.
Record t := { level : option Z; text : str }.
End Heading.

Module PageData.
Record t := {
  path : str;
  timestamp : str;
  title : str;
  h1 : str;
  html : option str;
  receiverUsername : option str;
  contentLength : option Z;
  extractedAt : option Z;
  statusCode : option Z;
  headings : option (list Heading.t);
  metaDescription : option str
}.

(** [{ ...d, receiverUsername }] *)
Definition with_receiverUsername (d : t) (receiverUsername : option str) : t :=
  {| path := path d; timestamp := timestamp d; title := title d; h1 := h1 d;
     html := html d; receiverUsername := receiverUsername;
     contentLength := contentLength d; extractedAt := extractedAt d;
     statusCode := statusCode d; headings := headings d;
     metaDescription := metaDescription d |}.
End PageData.

Module CachedPageData.
Record t := { data : PageData.t; timestamp : Z; size : Z }.
End CachedPageData.

(* ================================================================== *)
(** ** The platform: network, clock and library calls *)

(** What comes back for one [fetch(url, { signal })]: the response status
    line, what [response.text()] then gives, and the milliseconds the
    reading of the body takes. *)
Module Response.
Record t := {
  status : Z;
  statusText : str;
  text : Error.t + str;
  textElapsed : Z
}.
(** [response.ok]: the status is in the range 200-299. *)
Definition ok (r : t) : bool := (200 <=? status r) && (status r <=? 299).
End Response.

(** How a GET settles when nothing aborts it.  [NoAnswer]: it does not;
    the origin accepts the request and sends nothing. *)
Inductive Settlement :=
| NoAnswer
| NetworkFailure (e : Error.t)
| ResponseArrived (r : Response.t).

(** One call of [fetch], as logged in [World.requests]. *)
Module FetchCall.
Record t := { url : str; userAgent : str; timeout : Z }.
End FetchCall.

(** The [Headers] of a response being built. *)
Definition Headers := list (str * str).

(** The parsed document, as cheerio holds it. *)
Inductive node :=
| TextNode (data : str)
| CommentNode (data : str)
| Element (tagName : str) (attribs : list (str * str)) (children : list node).

Record Platform := {
  (** [new Date(ms).toISOString()] *)
  toISOString : Z -> str;
  (** [JSON.stringify(data).length] *)
  stringifyLength : PageData.t -> Z;
  (** [cheerio.load(html)]: the root's children, or the error it throws *)
  load : str -> Error.t + list node;
  (** [new URL(path, base).toString()], or the [TypeError] it throws *)
  newURL : str -> str -> Error.t + str;
  (** how a GET of the URL, issued at the given time, settles when it is
      not aborted, and the milliseconds that pass until it does *)
  network : str -> Z -> Settlement * Z;
  (** [headers.set(key, value)], or the [TypeError] it throws *)
  headersSet : str -> str -> Headers -> Error.t + Headers
}.

(* ================================================================== *)
(** ** Module state and the monad that threads it *)

Record World := {
  (** [const cache = new Map<string, CachedPageData>()] *)
  cache : JsMap.t CachedPageData.t;
  (** [let totalCacheSize = 0] *)
  totalCacheSize : Z;
  (** the value [Date.now()] returns *)
  clock : Z;
  (** the calls of [fetch] issued so far, oldest first *)
  requests : list FetchCall.t
}.

(** The state of a freshly loaded module at time [now]. *)
Definition initial (now : Z) : World :=
  {| cache := []; totalCacheSize := 0; clock := now; requests := [] |}.

Inductive completion (A : Type) :=
| Return (a : A)
| Throw (e : thrown).
Arguments Return {A} a.
Arguments Throw {A} e.

Definition M (A : Type) : Type := World -> completion A * World.

Definition ret {A} (a : A) : M A := fun w => (Return a, w).

Definition bind {A B} (c : M A) (k : A -> M B) : M B :=
  fun w => match c w with
           | (Return a, w') => k a w'
           | (Throw e, w') => (Throw e, w')
           end.

Definition throw {A} (e : thrown) : M A := fun w => (Throw e, w).

(** [try { c } catch (error) { handler error }] *)
Definition try_catch {A} (c : M A) (handler : thrown -> M A) : M A :=
  fun w => match c w with
           | (Return a, w') => (Return a, w')
           | (Throw e, w') => handler e w'
           end.

Declare Scope monad_scope.
Delimit Scope monad_scope with monad.
Notation "x <- c ;; k" := (bind c (fun x => k))
  (at level 61, c at next level, right associativity) : monad_scope.
Notation "c ;; k" := (bind c (fun _ => k))
  (at level 61, right associativity) : monad_scope.
Local Open Scope monad_scope.

(** [Date.now()] *)
Definition Date_now : M Z := fun w => (Return (clock w), w).

(** A timer set by [setTimeout]: the delay asked for, and the time at
    which the callback is due. *)
Module Timer.
Record t := { delay : Z; due : Z }.
End Timer.

(** The delay [setTimeout] works with: the one asked for when it lies in
    1 .. 2^31 - 1 milliseconds, and 1 otherwise, as with Node's timers. *)
Definition timerDelay (delay : Z) : Z :=
  if (1 <=? delay) && (delay <=? 2147483647) then delay else 1.

(** [setTimeout(() => controller.abort(), delay)] *)
Definition setTimeout (delay : Z) : M Timer.t :=
  fun w => (Return {| Timer.delay := delay;
                      Timer.due := clock w + timerDelay delay |}, w).

(** [clearTimeout(timeoutId)]: no timer is left that would abort the
    signal. *)
Definition clearTimeout (timeoutId : Timer.t) : option Timer.t := None.

(** Whether the timer that is armed, if any, aborts the signal before
    something that would be there at time [finish]: it does when it is due
    by then, the timers that are due being run before what arrived in
    the same turn of the event loop. *)
Definition abortsBefore (armed : option Timer.t) (finish : Z) : option Z :=
  match armed with
  | Some timer => if Timer.due timer <=? finish then Some (Timer.due timer) else None
  | None => None
  end.

(** What an aborted [fetch] or body read rejects with. *)
Definition AbortError : Error.t :=
  {| Error.name := "AbortError"; Error.message := "This operation was aborted" |}.

(** [cache.get(key)] *)
Definition cache_get (key : str) : M (option CachedPageData.t) :=
  fun w => (Return (JsMap.get key (cache w)), w).

(** [cache.delete(key)] *)
Definition cache_delete (key : str) : M unit :=
  fun w => (Return tt,
            {| cache := JsMap.delete key (cache w);
               totalCacheSize := totalCacheSize w;
               clock := clock w; requests := requests w |}).

(** [cache.set(key, entry)] *)
Definition cache_set (key : str) (entry : CachedPageData.t) : M unit :=
  fun w => (Return tt,
            {| cache := JsMap.set key entry (cache w);
               totalCacheSize := totalCacheSize w;
               clock := clock w; requests := requests w |}).

(** [cache.size] *)
Definition cache_size : M Z := fun w => (Return (JsMap.size (cache w)), w).

(** [cache.keys().next().value] *)
Definition cache_firstKey : M (option str) :=
  fun w => (Return (JsMap.firstKey (cache w)), w).

(** [[...cache.entries()]] *)
Definition cache_entries : M (list (str * CachedPageData.t)) :=
  fun w => (Return (cache w), w).

(** reading [totalCacheSize] *)
Definition read_totalCacheSize : M Z := fun w => (Return (totalCacheSize w), w).

(** [totalCacheSize += n] *)
Definition totalCacheSize_add (n : Z) : M unit :=
  fun w => (Return tt,
            {| cache := cache w; totalCacheSize := totalCacheSize w + n;
               clock := clock w; requests := requests w |}).

(** [totalCacheSize -= n] *)
Definition totalCacheSize_sub (n : Z) : M unit :=
  fun w => (Return tt,
            {| cache := cache w; totalCacheSize := totalCacheSize w - n;
               clock := clock w; requests := requests w |}).

(** [for (const x of xs) { acc = body x acc }] *)
Fixpoint for_of {A B} (xs : list A) (body : A -> B -> M B) (acc : B) : M B :=
  match xs with
  | [] => ret acc
  | x :: xs' => acc' <- body x acc ;; for_of xs' body acc'
  end.

(* ================================================================== *)
(** ** Untyped values, for the arguments the code inspects at run time *)

Inductive value :=
| VUndefined
| VNull
| VBoolean (b : bool)
| VInteger (z : Z)
(** a number for which [Number.isInteger] is false: a fraction, [NaN] or
    an infinity *)
| VNonInteger
| VString (s : str)
| VArray (items : list value)
| VObject (props : list (str * value)).

Inductive type_tag := t_undefined | t_object | t_boolean | t_number | t_string.

(** [typeof v] *)
Definition typeof (v : value) : type_tag :=
  match v with
  | VUndefined => t_undefined
  | VNull | VArray _ | VObject _ => t_object
  | VBoolean _ => t_boolean
  | VInteger _ | VNonInteger => t_number
  | VString _ => t_string
  end.

Definition is_undefined (v : value) : bool :=
  match v with VUndefined => true | _ => false end.

Definition is_null (v : value) : bool :=
  match v with VNull => true | _ => false end.

Definition is_string (v : value) : bool :=
  match v with VString _ => true | _ => false end.

(** [Number.isInteger(v)] *)
Definition Number_isInteger (v : value) : bool :=
  match v with VInteger _ => true | _ => false end.

(** [Array.isArray(v)] *)
Definition Array_isArray (v : value) : bool :=
  match v with VArray _ => true | _ => false end.

(** [Object.entries(v)]: own enumerable properties; an array's are its
    indices, printed in decimal. *)
Definition Object_entries (v : value) : list (str * value) :=
  match v with
  | VObject props => props
  | VArray items =>
      combine (map (fun i => ofNumber (Z.of_nat i)) (seq 0 (List.length items))) items
  | _ => []
  end.

(** [AutoApiConfig] as a caller hands it over.  The four fields that
    [validateAndNormalizeConfig] inspects are untyped; the other five are
    not inspected and carry their declared types, [None] for [undefined]. *)
Module AutoApiConfig.
Record t := {
  enabled : option bool;
  apiPrefix : value;
  excludePaths : value;
  additionalHeaders : value;
  enableCache : option bool;
  cacheDuration : value;
  receiverUsername : option str;
  maxCacheSize : option Z;
  requestTimeout : option Z
}.

(** [{}] *)
Definition empty : t :=
  {| enabled := None; apiPrefix := VUndefined; excludePaths := VUndefined;
     additionalHeaders := VUndefined; enableCache := None;
     cacheDuration := VUndefined; receiverUsername := None;
     maxCacheSize := None; requestTimeout := None |}.
End AutoApiConfig.

(** [Required<AutoApiConfig>], as validation returns it. *)
Module Config.
Record t := {
  enabled : bool;
  apiPrefix : str;
  excludePaths : list str;
  additionalHeaders : value;
  enableCache : bool;
  cacheDuration : Z;
  receiverUsername : option str;
  maxCacheSize : Z;
  requestTimeout : Z
}.
End Config.

(** The parts of a [NextRequest] the middleware reads. *)
Module Request.
Record t := {
  (** [request.nextUrl.pathname] *)
  pathname : str;
  (** [request.nextUrl.protocol], with its colon *)
  protocol : str;
  (** [request.headers.get('host')]; [None] for [null] *)
  host : option str
}.
End Request.

Inductive Body :=
| PageBody (pageData : PageData.t)
| ErrorBody (message : str) (type : AutoApiErrorType) (timestamp : str).

(** What the middleware answers: [NextResponse.next()] or
    [NextResponse.json(body, { status })] with the headers set on it. *)
Inductive NextResponse :=
| Next
| Json (body : Body) (status : Z) (headers : Headers).

(** The [options] argument of [getPageData]. *)
Module Options.
Record t := {
  enableCache : bool;
  cacheDuration : Z;
  receiverUsername : option str;
  maxCacheSize : Z;
  requestTimeout : Z
}.
End Options.

(** [a ?? b] *)
Definition nullish {A} (a : option A) (b : A) : A :=
  match a with Some x => x | None => b end.

(** [s || d] on strings: the empty string is falsy. *)
Definition or_else (s d : str) : str :=
  match s with [] => d | _ => s end.

(** [v.startsWith(search)] for a value known to be a string. *)
Definition value_startsWith (search : str) (v : value) : bool :=
  match v with VString s => startsWith search s | _ => false end.

(** [v < n] and [v > n] for a value known to be an integer. *)
Definition value_ltb (v : value) (n : Z) : bool :=
  match v with VInteger z => z <? n | _ => false end.

Definition value_gtb (v : value) (n : Z) : bool :=
  match v with VInteger z => z >? n | _ => false end.

(** [v.every(f)] for a value known to be an array. *)
Definition value_every (f : value -> bool) (v : value) : bool :=
  match v with VArray items => forallb f items | _ => false end.

Definition type_tag_eqb (a b : type_tag) : bool :=
  match a, b with
  | t_undefined, t_undefined | t_object, t_object | t_boolean, t_boolean
  | t_number, t_number | t_string, t_string => true
  | _, _ => false
  end.

(** Reading a validated value at its declared type; [None] where the
    value is [undefined] (or not of that type). *)
Definition as_string (v : value) : option str :=
  match v with VString s => Some s | _ => None end.

Definition as_integer (v : value) : option Z :=
  match v with VInteger z => Some z | _ => None end.

Definition as_strings (v : value) : option (list str) :=
  match v with
  | VArray items =>
      Some (flat_map (fun x => match x with VString s => [s] | _ => [] end) items)
  | _ => None
  end.

(** The code unit of the double quote. *)
Definition dquote : str := [34%N].

(** The statuses of responses that have no body. *)
Definition isNullBodyStatus (status : Z) : bool :=
  existsb (Z.eqb status) [101; 103; 204; 205; 304].

(** [NextResponse.json(body, { status })].  It builds a [Response], whose
    constructor throws a [RangeError] for a status outside 200-599 and,
    the body being there, a [TypeError] for a status that allows none;
    the messages are worded as undici words them. *)
Definition NextResponse_json (body : Body) (status : Z) : M NextResponse :=
  if (status <? 200) || (status >? 599) then
    throw (Generic
      {| Error.name := "RangeError";
         Error.message := "init[" +++ dquote +++ "status" +++ dquote
                          +++ "] must be in the range of 200 to 599, inclusive." |})
  else if isNullBodyStatus status then
    throw (Generic
      {| Error.name := "TypeError";
         Error.message := "Response constructor: Invalid response status code "
                          +++ ofNumber status |})
  else ret (Json body status []).

(* ================================================================== *)
(** ** The cheerio calls the extractor makes *)

Module Cheerio.

(** The text of a node: the data of its text descendants, in order. *)
Fixpoint textContent (n : node) : str :=
  match n with
  | TextNode data => data
  | CommentNode _ => []
  | Element _ _ children => List.concat (map textContent children)
  end.

(** The elements of a subtree in document order, the root first. *)
Fixpoint elements (n : node) : list node :=
  match n with
  | Element _ _ children => n :: List.concat (map elements children)
  | _ => []
  end.

Definition name (n : node) : str :=
  match n with Element tagName _ _ => tagName | _ => [] end.

Definition attributes (n : node) : list (str * str) :=
  match n with Element _ attribs _ => attribs | _ => [] end.

Fixpoint lookup (k : str) (attribs : list (str * str)) : option str :=
  match attribs with
  | [] => None
  | (k', v) :: rest => if eqb k k' then Some v else lookup k rest
  end.

(** A selection: the matched elements in document order. *)
Definition selection := list node.

(** [$(selector)] for a selector given as a test on elements. *)
Definition select (doc : list node) (matches : node -> bool) : selection :=
  filter matches (List.concat (map elements doc)).

(** the selector [tag] *)
Definition by_tag (tag : str) (n : node) : bool := eqb (name n) tag.

(** the selector [tag[attr=v]], the value compared as it is written *)
Definition by_tag_attr (tag attr v : str) (n : node) : bool :=
  eqb (name n) tag
  && match lookup attr (attributes n) with
     | Some v' => eqb v' v
     | None => false
     end.

(** the selector [t1, t2, ...] *)
Definition by_tags (tags : list str) (n : node) : bool :=
  existsb (eqb (name n)) tags.

(** [sel.text()]: the combined text of every element of the selection. *)
Definition text (sel : selection) : str := List.concat (map textContent sel).

(** [sel.first()] *)
Definition first (sel : selection) : selection := firstn 1 sel.

(** [sel.attr(k)]: the attribute of the first element; [None] for
    [undefined]. *)
Definition attr (k : str) (sel : selection) : option str :=
  match sel with
  | [] => None
  | e :: _ => lookup k (attributes e)
  end.

(** [$(element).prop('tagName')]: the name in upper case. *)
Definition prop_tagName (sel : selection) : option str :=
  match sel with
  | [] => None
  | e :: _ => Some (toUpperCase (name e))
  end.

End Cheerio.

(* ================================================================== *)
(** ** middleware.ts *)

Section Middleware.

Variable P : Platform.

(** [await fetch(url, { signal, headers: { 'User-Agent': userAgent } })],
    the signal being the one that the callback of [timeoutId] aborts.  The
    request is issued; it ends when it settles or when the timer is due,
    whichever is first, and the clock then reads that time. *)
Definition fetch (url userAgent : str) (timeoutId : Timer.t) : M Response.t :=
  fun w =>
    let '(settlement, elapsed) := network P url (clock w) in
    let at_time (time : Z) :=
      {| cache := cache w; totalCacheSize := totalCacheSize w;
         clock := time;
         requests := requests w ++
           [{| FetchCall.url := url; FetchCall.userAgent := userAgent;
               FetchCall.timeout := Timer.delay timeoutId |}] |} in
    let aborted := (Throw (Generic AbortError), at_time (Timer.due timeoutId)) in
    match settlement with
    | NoAnswer => aborted
    | NetworkFailure e =>
        match abortsBefore (Some timeoutId) (clock w + elapsed) with
        | Some _ => aborted
        | None => (Throw (Generic e), at_time (clock w + elapsed))
        end
    | ResponseArrived r =>
        match abortsBefore (Some timeoutId) (clock w + elapsed) with
        | Some _ => aborted
        | None => (Return r, at_time (clock w + elapsed))
        end
    end.

(** [await response.text()], for a response whose signal the timer
    [armed], if any, aborts.  The reading takes its time. *)
Definition response_text (r : Response.t) (armed : option Timer.t) : M str :=
  fun w =>
    let at_time (time : Z) :=
      {| cache := cache w; totalCacheSize := totalCacheSize w;
         clock := time; requests := requests w |} in
    match abortsBefore armed (clock w + Response.textElapsed r) with
    | Some time => (Throw (Generic AbortError), at_time time)
    | None =>
        match Response.text r with
        | inl e => (Throw (Generic e), at_time (clock w + Response.textElapsed r))
        | inr s => (Return s, at_time (clock w + Response.textElapsed r))
        end
    end.

(** A library call that returns or throws. *)
Definition lift {A} (r : Error.t + A) : M A :=
  match r with
  | inl e => throw (Generic e)
  | inr a => ret a
  end.

Definition validateAndNormalizeConfig (config : AutoApiConfig.t)
  : completion Config.t :=
  let errors : list str := [] in
  (* Validate apiPrefix *)
  let errors :=
    if negb (is_undefined (AutoApiConfig.apiPrefix config)) then
      if negb (is_string (AutoApiConfig.apiPrefix config))
         || negb (value_startsWith "/" (AutoApiConfig.apiPrefix config))
      then errors ++ ["apiPrefix must be a string starting with "
                      +++ dquote +++ "/" +++ dquote]
      else errors
    else errors in
  (* Validate cacheDuration *)
  let errors :=
    if negb (is_undefined (AutoApiConfig.cacheDuration config)) then
      if negb (Number_isInteger (AutoApiConfig.cacheDuration config))
         || value_ltb (AutoApiConfig.cacheDuration config)
              SDK_CONSTANTS.MIN_CACHE_DURATION
         || value_gtb (AutoApiConfig.cacheDuration config)
              SDK_CONSTANTS.MAX_CACHE_DURATION
      then errors ++ ["cacheDuration must be an integer between "
                      +++ ofNumber SDK_CONSTANTS.MIN_CACHE_DURATION +++ " and "
                      +++ ofNumber SDK_CONSTANTS.MAX_CACHE_DURATION]
      else errors
    else errors in
  (* Validate excludePaths *)
  let errors :=
    if negb (is_undefined (AutoApiConfig.excludePaths config)) then
      if negb (Array_isArray (AutoApiConfig.excludePaths config))
         || negb (value_every is_string (AutoApiConfig.excludePaths config))
      then errors ++ [of_string "excludePaths must be an array of strings"]
      else errors
    else errors in
  (* Validate additionalHeaders *)
  let errors :=
    if negb (is_undefined (AutoApiConfig.additionalHeaders config)) then
      if negb (type_tag_eqb (typeof (AutoApiConfig.additionalHeaders config)) t_object)
         || is_null (AutoApiConfig.additionalHeaders config)
      then errors ++ [of_string "additionalHeaders must be an object"]
      else errors
    else errors in
  if (Z.of_nat (List.length errors) >? 0) then
    Throw (AutoApi
      {| AutoApiError.message :=
           "Configuration validation failed: " +++ join ", " errors;
         AutoApiError.type := INVALID_CONFIG;
         AutoApiError.statusCode := None;
         AutoApiError.originalError := None |})
  else
    (* Return normalized configuration with defaults *)
    Return
      {| Config.enabled := nullish (AutoApiConfig.enabled config) true;
         Config.apiPrefix :=
           nullish (as_string (AutoApiConfig.apiPrefix config))
             SDK_CONSTANTS.DEFAULT_API_PREFIX;
         Config.excludePaths :=
           nullish (as_strings (AutoApiConfig.excludePaths config)) [];
         Config.additionalHeaders :=
           (if is_undefined (AutoApiConfig.additionalHeaders config)
            then VObject []
            else AutoApiConfig.additionalHeaders config);
         Config.enableCache := nullish (AutoApiConfig.enableCache config) false;
         Config.cacheDuration :=
           nullish (as_integer (AutoApiConfig.cacheDuration config))
             SDK_CONSTANTS.DEFAULT_CACHE_DURATION;
         Config.receiverUsername := AutoApiConfig.receiverUsername config;
         Config.maxCacheSize :=
           nullish (AutoApiConfig.maxCacheSize config)
             SDK_CONSTANTS.DEFAULT_MAX_CACHE_SIZE;
         Config.requestTimeout :=
           nullish (AutoApiConfig.requestTimeout config)
             SDK_CONSTANTS.DEFAULT_REQUEST_TIMEOUT |}.

Definition extractPagePath (pathname apiPrefix : str) : str :=
  let pagePath := replace apiPrefix "" pathname in
  (* Ensure path starts with '/' *)
  let pagePath :=
    if negb (startsWith "/" pagePath) then "/" +++ pagePath else pagePath in
  (* Handle root path *)
  if eqb pagePath "/" then "/" else pagePath.

(** The regular-expression test of [isValidPath]: some unit of [path] is
    one of the seven characters of the class, [<], [>], [:], the double
    quote, [|], [?] and [*]. *)
Definition hasDangerousCharacter (path : str) : bool :=
  existsb (fun c => existsb (N.eqb c) ("<>:" +++ dquote +++ "|?*")) path.

Definition isValidPath (path : str) : bool :=
  startsWith "/" path
  && negb (hasDangerousCharacter path)
  && (length path <=? 2000).

Definition isPathExcluded (path : str) (excludePaths : list str) : bool :=
  existsb (fun excludePath =>
    (* Support simple wildcard matching *)
    if endsWith "/*" excludePath then
      let prefix := slice 0 (-2) excludePath in
      startsWith prefix path
    else eqb path excludePath) excludePaths.

Definition getCachedData (pagePath : str) (cacheDuration : Z)
  : M (option PageData.t) :=
  cachedEntry <- cache_get pagePath ;;
  match cachedEntry with
  | None => ret None
  | Some cachedEntry =>
      now <- Date_now ;;
      let isExpired :=
        now - CachedPageData.timestamp cachedEntry >? cacheDuration * 1000 in
      if isExpired then
        (* Remove expired entry *)
        cache_delete pagePath ;;
        totalCacheSize_sub (CachedPageData.size cachedEntry) ;;
        ret None
      else ret (Some (CachedPageData.data cachedEntry))
  end.

Definition constructPageUrl (request : Request.t) (pagePath : str) : M str :=
  let protocol := Request.protocol request in
  let host := Request.host request in
  match host with
  | None | Some [] =>
      throw (AutoApi
        {| AutoApiError.message := "Missing host header in request";
           AutoApiError.type := FETCH_ERROR;
           AutoApiError.statusCode := Some 400;
           AutoApiError.originalError := None |})
  | Some host => lift (newURL P pagePath (protocol +++ "//" +++ host))
  end.

Definition fetchPageContent (url : str) (timeout : Z) : M str :=
  (* const controller = new AbortController() *)
  timeoutId <- setTimeout timeout ;;
  try_catch
    (response <- fetch url "ByteScout-NextJS-SDK/1.0" timeoutId ;;
     let armed := clearTimeout timeoutId in
     if negb (Response.ok response) then
       throw (AutoApi
         {| AutoApiError.message :=
              "HTTP " +++ ofNumber (Response.status response) +++ ": "
              +++ Response.statusText response;
            AutoApiError.type := FETCH_ERROR;
            AutoApiError.statusCode := Some (Response.status response);
            AutoApiError.originalError := None |})
     else response_text response armed)
    (fun error =>
       (* clearTimeout(timeoutId): nothing is awaited after it *)
       if eqb (thrown_name error) "AbortError" then
         throw (AutoApi
           {| AutoApiError.message :=
                "Request timeout after " +++ ofNumber timeout +++ "ms";
              AutoApiError.type := TIMEOUT_ERROR;
              AutoApiError.statusCode := Some 408;
              AutoApiError.originalError := None |})
       else throw error).

(** The tags of the selector [h1, h2, h3, h4, h5, h6]. *)
Definition headingTags : list str :=
  map of_string ["h1"; "h2"; "h3"; "h4"; "h5"; "h6"].

(** The loop body of the headings scan: the callback of [each]. *)
Definition pushHeading (element : node) (headings : list Heading.t)
  : list Heading.t :=
  let selection := [element] in
  let level :=
    parseInt (or_else (match Cheerio.prop_tagName selection with
                       | Some tagName => substring 1 tagName
                       | None => []
                       end) "1") in
  let text := trim (Cheerio.text selection) in
  match text with
  | [] => headings
  | _ => headings ++ [{| Heading.level := level; Heading.text := text |}]
  end.

Definition extractPageData (html pagePath : str) (receiverUsername : option str)
  : M PageData.t :=
  try_catch
    (doc <- lift (load P html) ;;
     now <- Date_now ;;
     (* Extract basic information *)
     let title :=
       or_else (trim (Cheerio.text (Cheerio.select doc (Cheerio.by_tag "title"))))
         "" in
     let h1 := or_else (trim (Cheerio.text (Cheerio.first
                         (Cheerio.select doc (Cheerio.by_tag "h1"))))) "" in
     let metaDescription :=
       option_map trim
         (Cheerio.attr "content"
            (Cheerio.select doc (Cheerio.by_tag_attr "meta" "name" "description"))) in
     (* Extract all headings for analysis *)
     let headings :=
       fold_left (fun headings element => pushHeading element headings)
         (Cheerio.select doc (Cheerio.by_tags headingTags))
         [] in
     ret {| PageData.path := pagePath;
            PageData.timestamp := toISOString P now;
            PageData.title := title;
            PageData.h1 := h1;
            PageData.html := Some html;
            PageData.receiverUsername := receiverUsername;
            PageData.contentLength := Some (length html);
            PageData.extractedAt := Some now;
            PageData.statusCode := Some 200;
            PageData.headings := Some headings;
            PageData.metaDescription := metaDescription |})
    (fun error =>
       throw (AutoApi
         {| AutoApiError.message := "Failed to parse HTML content";
            AutoApiError.type := PARSE_ERROR;
            AutoApiError.statusCode := None;
            AutoApiError.originalError :=
              match error with Generic e => Some e | AutoApi _ => None end |})).

(** [(data.html?.length || 0) + JSON.stringify(data).length] *)
Definition dataSizeOf (data : PageData.t) : Z :=
  match PageData.html data with
  | Some html => length html
  | None => 0
  end + stringifyLength P data.

Definition shouldCacheData (data : PageData.t) (maxCacheSize : Z) : bool :=
  let dataSize := dataSizeOf data in
  dataSize <=? maxCacheSize.

(** The [while] loop of [cachePageData].  Every turn deletes the first
    key, so that the loop makes at most [cache.size] turns; [fuel] is that
    bound (see [evictLoop_exit]). *)
Fixpoint evictLoop (fuel : nat) (dataSize maxCacheSize : Z) : M unit :=
  match fuel with
  | O => ret tt
  | S fuel' =>
      total <- read_totalCacheSize ;;
      size <- cache_size ;;
      if (total + dataSize >? maxCacheSize) && (size >? 0) then
        oldestKey <- cache_firstKey ;;
        oldEntry <- match oldestKey with
                    | Some oldestKey => cache_get oldestKey
                    | None => ret None
                    end ;;
        match oldEntry, oldestKey with
        | Some oldEntry, Some oldestKey =>
            totalCacheSize_sub (CachedPageData.size oldEntry) ;;
            cache_delete oldestKey
        | _, _ => ret tt
        end ;;
        evictLoop fuel' dataSize maxCacheSize
      else ret tt
  end.

Definition cachePageData (pagePath : str) (data : PageData.t) (maxCacheSize : Z)
  : M unit :=
  let dataSize := dataSizeOf data in
  (* Evict old entries if cache would exceed size limit *)
  size <- cache_size ;;
  evictLoop (Z.to_nat size) dataSize maxCacheSize ;;
  (* Cache the new data *)
  now <- Date_now ;;
  let cachedEntry :=
    {| CachedPageData.data := data;
       CachedPageData.timestamp := now;
       CachedPageData.size := dataSize |} in
  cache_set pagePath cachedEntry ;;
  totalCacheSize_add dataSize.

Definition getPageData (request : Request.t) (pagePath : str) (options : Options.t)
  : M PageData.t :=
  let enableCache := Options.enableCache options in
  let cacheDuration := Options.cacheDuration options in
  let receiverUsername := Options.receiverUsername options in
  let maxCacheSize := Options.maxCacheSize options in
  let requestTimeout := Options.requestTimeout options in
  (* Check cache first if enabled *)
  cachedData <- (if enableCache then getCachedData pagePath cacheDuration
                 else ret None) ;;
  match cachedData with
  | Some cachedData =>
      ret (PageData.with_receiverUsername cachedData receiverUsername)
  | None =>
      try_catch
        ((* Construct the full URL for the page *)
         pageUrl <- constructPageUrl request pagePath ;;
         (* Fetch the page content with timeout *)
         htmlContent <- fetchPageContent pageUrl requestTimeout ;;
         (* Parse and extract data from HTML *)
         extractedData <- extractPageData htmlContent pagePath receiverUsername ;;
         (* Cache the data if caching is enabled and data is not too large *)
         (if enableCache && shouldCacheData extractedData maxCacheSize
          then cachePageData pagePath extractedData maxCacheSize
          else ret tt) ;;
         ret extractedData)
        (fun error =>
           match error with
           | AutoApi _ => throw error
           | Generic e =>
               (* Convert generic errors to AutoApiError *)
               throw (AutoApi
                 {| AutoApiError.message :=
                      "Failed to fetch page data for path: " +++ pagePath;
                    AutoApiError.type := FETCH_ERROR;
                    AutoApiError.statusCode := None;
                    AutoApiError.originalError := Some e |})
           end)
  end.

Definition applyAdditionalHeaders (response : NextResponse) (headers : value)
  : M NextResponse :=
  for_of (Object_entries headers)
    (fun '(key, value) response =>
       match value, response with
       | VString value, Json body status hs =>
           hs' <- lift (headersSet P key value hs) ;;
           ret (Json body status hs')
       | _, _ => ret response
       end)
    response.

Definition createErrorResponse (message : str) (status : Z) (type : AutoApiErrorType)
  : M NextResponse :=
  now <- Date_now ;;
  NextResponse_json (ErrorBody message type (toISOString P now)) status.

(** [n || d] on an optional status code: [undefined] and [0] are falsy. *)
Definition status_or (n : option Z) (d : Z) : Z :=
  match n with
  | Some 0 | None => d
  | Some n => n
  end.

Definition handleMiddlewareError (error : thrown) : M NextResponse :=
  match error with
  | AutoApi error =>
      createErrorResponse
        (AutoApiError.message error)
        (status_or (AutoApiError.statusCode error) 500)
        (AutoApiError.type error)
  | Generic _ =>
      (* Handle generic errors *)
      createErrorResponse "An unexpected error occurred" 500 FETCH_ERROR
  end.

(** The function [withAutoApiMiddleware] returns, for a validated
    configuration. *)
Definition middleware (validatedConfig : Config.t) (request : Request.t)
  : M NextResponse :=
  let enabled := Config.enabled validatedConfig in
  let apiPrefix := Config.apiPrefix validatedConfig in
  let excludePaths := Config.excludePaths validatedConfig in
  let enableCache := Config.enableCache validatedConfig in
  let cacheDuration := Config.cacheDuration validatedConfig in
  let additionalHeaders := Config.additionalHeaders validatedConfig in
  let receiverUsername := Config.receiverUsername validatedConfig in
  let maxCacheSize := Config.maxCacheSize validatedConfig in
  let requestTimeout := Config.requestTimeout validatedConfig in
  (* Skip processing if Auto API is disabled *)
  if negb enabled then ret Next
  else
    let pathname := Request.pathname request in
    (* Check if the request matches the API prefix pattern *)
    if negb (startsWith apiPrefix pathname) then ret Next
    else
      try_catch
        ((* Extract the page path from the API request *)
         let pagePath := extractPagePath pathname apiPrefix in
         (* Validate the extracted path *)
         if negb (isValidPath pagePath) then
           createErrorResponse "Invalid path format" 400 INVALID_CONFIG
         (* Check if the path should be excluded from processing *)
         else if isPathExcluded pagePath excludePaths then ret Next
         else
           (* Fetch page data (from cache or by making a request) *)
           pageData <- getPageData request pagePath
                         {| Options.enableCache := enableCache;
                            Options.cacheDuration := cacheDuration;
                            Options.receiverUsername := receiverUsername;
                            Options.maxCacheSize := maxCacheSize;
                            Options.requestTimeout := requestTimeout |} ;;
           (* Create and return the response with page data *)
           response <- NextResponse_json (PageBody pageData) 200 ;;
           (* Apply additional headers if configured *)
           applyAdditionalHeaders response additionalHeaders)
        handleMiddlewareError.

Definition withAutoApiMiddleware (config : AutoApiConfig.t)
  : completion (Request.t -> M NextResponse) :=
  (* Validate and normalize configuration *)
  match validateAndNormalizeConfig config with
  | Throw e => Throw e
  | Return validatedConfig => Return (middleware validatedConfig)
  end.

Definition clearExpiredCache (cacheDuration : Z) : M Z :=
  now <- Date_now ;;
  entries <- cache_entries ;;
  for_of entries
    (fun '(key, entry) removedCount =>
       if now - CachedPageData.timestamp entry >? cacheDuration * 1000 then
         cache_delete key ;;
         totalCacheSize_sub (CachedPageData.size entry) ;;
         ret (removedCount + 1)
       else ret removedCount)
    0.

(** The result of [getCacheStats]. *)
Record CacheStats := { entries : Z; totalSize : Z; averageSize : Z }.

(** [Math.round(a / b)] for integers [a] and [b > 0]: the nearest integer,
    a half rounding up. *)
Definition round_div (a b : Z) : Z := (2 * a + b) / (2 * b).

Definition getCacheStats : M CacheStats :=
  entries <- cache_size ;;
  total <- read_totalCacheSize ;;
  let averageSize := if entries >? 0 then round_div total entries else 0 in
  ret {| entries := entries; totalSize := total; averageSize := averageSize |}.

(* ------------------------------------------------------------------ *)
(** *** index.ts *)

(** [clearCache(cacheDuration = SDK_CONSTANTS.DEFAULT_CACHE_DURATION)]; the
    argument is whatever the caller passes, [VUndefined] when omitted. *)
Definition clearCache (cacheDuration : value) : M Z :=
  let cacheDuration :=
    if is_undefined cacheDuration
    then VInteger SDK_CONSTANTS.DEFAULT_CACHE_DURATION
    else cacheDuration in
  if negb (Number_isInteger cacheDuration) || value_ltb cacheDuration 1 then
    throw (AutoApi
      {| AutoApiError.message := "cacheDuration must be a positive integer";
         AutoApiError.type := INVALID_CONFIG;
         AutoApiError.statusCode := None;
         AutoApiError.originalError := None |})
  else clearExpiredCache (nullish (as_integer cacheDuration) 0).

Definition getCacheStatistics : M CacheStats := getCacheStats.

End Middleware.

(* ------------------------------------------------------------------ *)
(** *** index.ts: the configuration wrapper *)

(** One rewrite rule of a Next.js configuration. *)
Module Rewrite.
Record t := { source : str; destination : str }.
End Rewrite.

(** What the [rewrites()] function of a configuration resolves to: an
    array of rules, or an object of three optional arrays. *)
Inductive Rewrites :=
| RewriteArray (rules : list Rewrite.t)
| RewritePhases (beforeFiles afterFiles fallback : option (list Rewrite.t)).

(** A [NextConfig], as [withAutoApi] reads it. *)
Module NextConfig.
Record t := {
  (** what [nextConfig.rewrites()] resolves to; [None] when the
      configuration has no [rewrites] *)
  rewrites : option Rewrites;
  (** the other properties, which the spread copies *)
  others : list (str * value)
}.
End NextConfig.

(** [withAutoApi(nextConfig, autoApiConfig)].  Of [autoApiConfig] the
    function reads [apiPrefix] only, here at its declared type
    [string | undefined]. *)
Definition withAutoApi (nextConfig : NextConfig.t) (apiPrefix : option str)
  : NextConfig.t :=
  {| NextConfig.others := NextConfig.others nextConfig;
     NextConfig.rewrites :=
       (* Retrieve the original rewrites configuration *)
       let originalRewrites :=
         nullish (NextConfig.rewrites nextConfig) (RewriteArray []) in
       (* Define the API rewrite rule *)
       let apiRewrite :=
         {| Rewrite.source := or_else (nullish apiPrefix []) "/api" +++ "/:path*";
            Rewrite.destination := "/:path*" |} in
       Some match originalRewrites with
            | RewriteArray rules =>
                (* For array configurations, prepend the apiRewrite *)
                RewriteArray (apiRewrite :: rules)
            | RewritePhases beforeFiles afterFiles fallback =>
                (* For object configurations, add apiRewrite to beforeFiles *)
                RewritePhases (Some (apiRewrite :: nullish beforeFiles []))
                              (Some (nullish afterFiles []))
                              (Some (nullish fallback []))
            end |}.

Definition createAutoApiMiddleware (P : Platform) (config : AutoApiConfig.t)
  : completion (Request.t -> M NextResponse) :=
  withAutoApiMiddleware P config.

(** [defaultConfig] *)
Definition defaultConfig : Config.t :=
  {| Config.enabled := true;
     Config.apiPrefix := SDK_CONSTANTS.DEFAULT_API_PREFIX;
     Config.excludePaths := [];
     Config.additionalHeaders := VObject [];
     Config.enableCache := false;
     Config.cacheDuration := SDK_CONSTANTS.DEFAULT_CACHE_DURATION;
     Config.receiverUsername := None;
     Config.maxCacheSize := SDK_CONSTANTS.DEFAULT_MAX_CACHE_SIZE;
     Config.requestTimeout := SDK_CONSTANTS.DEFAULT_REQUEST_TIMEOUT |}.

(* ================================================================== *)
(** ** Vocabulary of the properties *)

(** The sum of the recorded sizes of the entries of a cache. *)
Definition sumSizes (c : JsMap.t CachedPageData.t) : Z :=
  fold_right (fun kv acc => CachedPageData.size (snd kv) + acc) 0 c.

(** The accounting invariant: the running total is the sum of the sizes
    of the entries stored. *)
Definition accounted (w : World) : Prop :=
  totalCacheSize w = sumSizes (cache w).

(** The entries of a cache are in the order of their insertion times,
    the oldest first. *)
Definition oldestFirst (c : JsMap.t CachedPageData.t) : Prop :=
  StronglySorted
    (fun a b => CachedPageData.timestamp (snd a) <= CachedPageData.timestamp (snd b))
    c.

(** [w] with another cache and running total. *)
Definition with_cache (w : World) (c : JsMap.t CachedPageData.t) (total : Z)
  : World :=
  {| cache := c; totalCacheSize := total; clock := clock w;
     requests := requests w |}.

(** An entry is expired at [now] under [cacheDuration] seconds, in the
    sense of the two tests of the code. *)
Definition expired (now cacheDuration : Z) (kv : str * CachedPageData.t) : bool :=
  now - CachedPageData.timestamp (snd kv) >? cacheDuration * 1000.

(* ================================================================== *)
(** ** Example inputs *)

(** A page record without markup. *)
Definition examplePage (path : str) (receiverUsername : option str) : PageData.t :=
  {| PageData.path := path; PageData.timestamp := ""; PageData.title := "";
     PageData.h1 := ""; PageData.html := None;
     PageData.receiverUsername := receiverUsername;
     PageData.contentLength := None; PageData.extractedAt := None;
     PageData.statusCode := None; PageData.headings := None;
     PageData.metaDescription := None |}.

(** A platform on which every record serializes to 100 characters, every
    markup parses to [doc], and every [fetch] settles as [settlement]
    after 5 ms. *)
Definition examplePlatform (doc : list node) (settlement : Settlement) : Platform :=
  {| toISOString := ofNumber;
     stringifyLength := fun _ => 100;
     load := fun _ => inr doc;
     newURL := fun path base => inr (base ++ path);
     network := fun _ _ => (settlement, 5);
     headersSet := fun key value headers => inr (headers ++ [(key, value)]) |}.

Definition exampleResponse (status : Z) (statusText body : str) : Settlement :=
  ResponseArrived
    {| Response.status := status; Response.statusText := statusText;
       Response.text := inr body; Response.textElapsed := 0 |}.

(* ================================================================== *)
(** ** Further vocabulary and example inputs *)

(** The world in which [/a] was cached at time 0 and the clock reads
    [now]. *)
Definition cachedAt0 (now : Z) : World :=
  {| cache := [("/a" : str,
                {| CachedPageData.data := examplePage "/a" None;
                   CachedPageData.timestamp := 0;
                   CachedPageData.size := 100 |})];
     totalCacheSize := 100; clock := now; requests := [] |}.

(** The options of a middleware that caches for an hour on behalf of
    [receiverUsername]. *)
Definition exampleOptions (receiverUsername : str) : Options.t :=
  {| Options.enableCache := true; Options.cacheDuration := 3600;
     Options.receiverUsername := Some receiverUsername;
     Options.maxCacheSize := 1000; Options.requestTimeout := 5000 |}.

Definition exampleRequest (pathname : str) : Request.t :=
  {| Request.pathname := pathname; Request.protocol := "http:";
     Request.host := Some (of_string "localhost:3000") |}.

(** The seven characters [isValidPath] refuses. *)
Definition dangerousCharacters : str := "<>:" +++ dquote +++ "|?*".

Definition exampleConfig (receiverUsername : str) : Config.t :=
  {| Config.enabled := true; Config.apiPrefix := "/api";
     Config.excludePaths := []; Config.additionalHeaders := VObject [];
     Config.enableCache := true; Config.cacheDuration := 3600;
     Config.receiverUsername := Some receiverUsername;
     Config.maxCacheSize := 1000; Config.requestTimeout := 5000 |}.

(** The four checks, as the specification words them. *)
Definition apiPrefix_ok (v : value) : bool :=
  match v with
  | VUndefined => true
  | VString s => startsWith "/" s
  | _ => false
  end.

Definition cacheDuration_ok (v : value) : bool :=
  match v with
  | VUndefined => true
  | VInteger z => (60 <=? z) && (z <=? 86400)
  | _ => false
  end.

Definition excludePaths_ok (v : value) : bool :=
  match v with
  | VUndefined => true
  | VArray items => forallb is_string items
  | _ => false
  end.

Definition additionalHeaders_ok (v : value) : bool :=
  match v with
  | VUndefined | VObject _ | VArray _ => true
  | _ => false
  end.

(** One message per failed check, in the order of the checks. *)
Definition violations (config : AutoApiConfig.t) : list str :=
  (if apiPrefix_ok (AutoApiConfig.apiPrefix config) then []
   else ["apiPrefix must be a string starting with " +++ dquote +++ "/" +++ dquote])
  ++ (if cacheDuration_ok (AutoApiConfig.cacheDuration config) then []
      else [of_string "cacheDuration must be an integer between 60 and 86400"])
  ++ (if excludePaths_ok (AutoApiConfig.excludePaths config) then []
      else [of_string "excludePaths must be an array of strings"])
  ++ (if additionalHeaders_ok (AutoApiConfig.additionalHeaders config) then []
      else [of_string "additionalHeaders must be an object"]).

(** The number of checks a configuration fails. *)
Definition failedChecks (config : AutoApiConfig.t) : nat :=
  List.length
    (filter negb
       [apiPrefix_ok (AutoApiConfig.apiPrefix config);
        cacheDuration_ok (AutoApiConfig.cacheDuration config);
        excludePaths_ok (AutoApiConfig.excludePaths config);
        additionalHeaders_ok (AutoApiConfig.additionalHeaders config)]).

(** [{ apiPrefix: 'api', cacheDuration: 5 }] fails two checks;
    [{ cacheDuration: 1800 }] fails none. *)
Definition rawConfig (apiPrefix cacheDuration : value) : AutoApiConfig.t :=
  {| AutoApiConfig.enabled := None; AutoApiConfig.apiPrefix := apiPrefix;
     AutoApiConfig.excludePaths := VUndefined;
     AutoApiConfig.additionalHeaders := VUndefined;
     AutoApiConfig.enableCache := None;
     AutoApiConfig.cacheDuration := cacheDuration;
     AutoApiConfig.receiverUsername := None;
     AutoApiConfig.maxCacheSize := None; AutoApiConfig.requestTimeout := None |}.

(** A value is a positive integer. *)
Definition isPositiveInteger (v : value) : bool :=
  match v with
  | VInteger z => 1 <=? z
  | _ => false
  end.

(** Two entries, cached at times 0 and 5000; the clock reads 62 000. *)
Definition twoEntries : World :=
  {| cache := [("/a" : str,
                {| CachedPageData.data := examplePage "/a" None;
                   CachedPageData.timestamp := 0;
                   CachedPageData.size := 100 |});
               ("/b" : str,
                {| CachedPageData.data := examplePage "/b" None;
                   CachedPageData.timestamp := 5000;
                   CachedPageData.size := 40 |})];
     totalCacheSize := 140; clock := 62000; requests := [] |}.

(** The digit of a heading tag name, [h1] to [h6]. *)
Definition tagDigit (tagName : str) : option Z :=
  match tagName with
  | [_; d] => if isDigit d then Some (Z.of_N d - 48) else None
  | _ => None
  end.

(** What one heading element contributes to [headings]. *)
Definition headingOf (element : node) : list Heading.t :=
  match trim (Cheerio.textContent element) with
  | [] => []
  | text => [{| Heading.level := tagDigit (Cheerio.name element);
                Heading.text := text |}]
  end.

(** The first element of a selection, if any. *)
Definition firstElement (sel : Cheerio.selection) : option node := hd_error sel.

(** The document of the end-to-end scenario:
    [<html><head><title>About</title></head>
     <body><h1>Hello</h1><h2>Sub</h2></body></html>]. *)
Definition aboutMarkup : str :=
  "<html><head><title>About</title></head><body><h1>Hello</h1><h2>Sub</h2></body></html>".

Definition aboutDocument : list node :=
  [Element "html" []
     [Element "head" [] [Element "title" [] [TextNode "About"]];
      Element "body" []
        [Element "h1" [] [TextNode "Hello"];
         Element "h2" [] [TextNode "Sub"]]]].

(** A cache state as the module can hold it: distinct keys, and a running
    total that is the sum of the stored sizes. *)
Definition consistent (w : World) : Prop :=
  JsMap.wf (cache w) /\ accounted w.

(** [hoare pre c post]: from a world satisfying [pre], the computation
    [c] ends, normally or by a throw, in a world satisfying [post]. *)
Definition hoare {A} (pre : World -> Prop) (c : M A) (post : World -> Prop) : Prop :=
  forall w, pre w -> post (snd (c w)).

(** A predicate that only looks at the cache and its running total. *)
Definition cacheOnly (I : World -> Prop) : Prop :=
  forall w w', cache w' = cache w -> totalCacheSize w' = totalCacheSize w ->
               I w -> I w'.

(** What happens to the module over time, one thing after the other: a
    request is served to its end by some middleware instance, the cache is
    swept, or time passes. *)
Inductive event :=
| Serve (validatedConfig : Config.t) (request : Request.t)
| Sweep (cacheDuration : Z)
| Wait (milliseconds : Z).

Definition happen (P : Platform) (e : event) (w : World) : World :=
  match e with
  | Serve validatedConfig request => snd (middleware P validatedConfig request w)
  | Sweep cacheDuration => snd (clearExpiredCache cacheDuration w)
  | Wait milliseconds =>
      {| cache := cache w; totalCacheSize := totalCacheSize w;
         clock := clock w + milliseconds; requests := requests w |}
  end.

Definition history (P : Platform) (events : list event) (w : World) : World :=
  fold_left (fun w e => happen P e w) events w.

(** [getPageData] up to its cache lookup, and from there on.  A request
    runs up to its first [await] (inside [fetchPageContent]) and is
    resumed when the response is there; in between, other requests run. *)
Definition lookupPhase (pagePath : str) (options : Options.t)
  : M (option PageData.t) :=
  if Options.enableCache options
  then getCachedData pagePath (Options.cacheDuration options)
  else ret None.

Definition fetchPhase (P : Platform) (request : Request.t) (pagePath : str)
    (options : Options.t) : M PageData.t :=
  try_catch
    (pageUrl <- constructPageUrl P request pagePath ;;
     htmlContent <- fetchPageContent P pageUrl (Options.requestTimeout options) ;;
     extractedData <- extractPageData P htmlContent pagePath
                        (Options.receiverUsername options) ;;
     (if Options.enableCache options
         && shouldCacheData P extractedData (Options.maxCacheSize options)
      then cachePageData P pagePath extractedData (Options.maxCacheSize options)
      else ret tt) ;;
     ret extractedData)
    (fun error =>
       match error with
       | AutoApi _ => throw error
       | Generic e =>
           throw (AutoApi
             {| AutoApiError.message :=
                  "Failed to fetch page data for path: " +++ pagePath;
                AutoApiError.type := FETCH_ERROR;
                AutoApiError.statusCode := None;
                AutoApiError.originalError := Some e |})
       end).

(** A validated configuration handed in again as a raw one:
    [Required<AutoApiConfig>] is an [AutoApiConfig]. *)
Definition asRawConfig (c : Config.t) : AutoApiConfig.t :=
  {| AutoApiConfig.enabled := Some (Config.enabled c);
     AutoApiConfig.apiPrefix := VString (Config.apiPrefix c);
     AutoApiConfig.excludePaths := VArray (map VString (Config.excludePaths c));
     AutoApiConfig.additionalHeaders := Config.additionalHeaders c;
     AutoApiConfig.enableCache := Some (Config.enableCache c);
     AutoApiConfig.cacheDuration := VInteger (Config.cacheDuration c);
     AutoApiConfig.receiverUsername := Config.receiverUsername c;
     AutoApiConfig.maxCacheSize := Some (Config.maxCacheSize c);
     AutoApiConfig.requestTimeout := Some (Config.requestTimeout c) |}.

(** The world [milliseconds] later, nothing else having happened. *)
Definition later (milliseconds : Z) (w : World) : World :=
  {| cache := cache w; totalCacheSize := totalCacheSize w;
     clock := clock w + milliseconds; requests := requests w |}.

(** No entry has a negative recorded size. *)
Definition sizesNonNegative (c : JsMap.t CachedPageData.t) : Prop :=
  Forall (fun kv => 0 <= CachedPageData.size (snd kv)) c.

(** A consistent cache within the limit [maxCacheSize]. *)
Definition withinLimit (maxCacheSize : Z) (w : World) : Prop :=
  consistent w /\ sizesNonNegative (cache w) /\ totalCacheSize w <= maxCacheSize.

(** Every request of the history is served by a middleware configured
    with the limit [maxCacheSize]. *)
Definition servedWithLimit (maxCacheSize : Z) (e : event) : Prop :=
  match e with
  | Serve validatedConfig _ => Config.maxCacheSize validatedConfig = maxCacheSize
  | _ => True
  end.

(** The options [middleware] hands to [getPageData]. *)
Definition optionsOf (validatedConfig : Config.t) : Options.t :=
  {| Options.enableCache := Config.enableCache validatedConfig;
     Options.cacheDuration := Config.cacheDuration validatedConfig;
     Options.receiverUsername := Config.receiverUsername validatedConfig;
     Options.maxCacheSize := Config.maxCacheSize validatedConfig;
     Options.requestTimeout := Config.requestTimeout validatedConfig |}.

(** The rules a configuration consults before the files of the
    application: the array, or [beforeFiles]. *)
Definition firstRules (config : NextConfig.t) : list Rewrite.t :=
  match NextConfig.rewrites config with
  | None => []
  | Some (RewriteArray rules) => rules
  | Some (RewritePhases beforeFiles _ _) => nullish beforeFiles []
  end.

Definition afterFilesOf (config : NextConfig.t) : list Rewrite.t :=
  match NextConfig.rewrites config with
  | Some (RewritePhases _ afterFiles _) => nullish afterFiles []
  | _ => []
  end.

Definition fallbackOf (config : NextConfig.t) : list Rewrite.t :=
  match NextConfig.rewrites config with
  | Some (RewritePhases _ _ fallback) => nullish fallback []
  | _ => []
  end.

(** The rule [withAutoApi] adds for a prefix. *)
Definition apiRule (apiPrefix : str) : Rewrite.t :=
  {| Rewrite.source := apiPrefix +++ "/:path*"; Rewrite.destination := "/:path*" |}.

(** The entry [cachePageData] stores for [data] at time [now]. *)
Definition entryOf (P : Platform) (data : PageData.t) (now : Z) : CachedPageData.t :=
  {| CachedPageData.data := data;
     CachedPageData.timestamp := now;
     CachedPageData.size := dataSizeOf P data |}.

(** The entries of the configured headers that have a string value, in
    the order of [Object.entries]. *)
Definition stringEntries (headers : value) : list (str * str) :=
  flat_map (fun kv => match snd kv with
                      | VString value => [(fst kv, value)]
                      | _ => []
                      end)
           (Object_entries headers).

(** [headers.set] for each of [entries] in turn, up to the first that
    throws. *)
Fixpoint setHeaders (P : Platform) (entries : list (str * str)) (hs : Headers)
  : Error.t + Headers :=
  match entries with
  | [] => inr hs
  | (key, value) :: entries' =>
      match headersSet P key value hs with
      | inl e => inl e
      | inr hs' => setHeaders P entries' hs'
      end
  end.

(** A configuration with two extra headers, one of them not a string. *)
Definition headersConfig : Config.t :=
  {| Config.enabled := true; Config.apiPrefix := "/api";
     Config.excludePaths := [];
     Config.additionalHeaders :=
       VObject [("x-robots-tag" : str, VString "noindex");
                ("x-retries" : str, VInteger 3)];
     Config.enableCache := true; Config.cacheDuration := 3600;
     Config.receiverUsername := None;
     Config.maxCacheSize := 1000; Config.requestTimeout := 5000 |}.

(** [s || "/api"] on the optional prefix [withAutoApi] reads. *)
Definition prefixOrDefault (apiPrefix : option str) : str :=
  match apiPrefix with
  | None | Some [] => "/api"
  | Some prefix => prefix
  end.

(** [throwsOnly c Q]: whatever [c] throws satisfies [Q]. *)
Definition throwsOnly {A} (c : M A) (Q : thrown -> Prop) : Prop :=
  forall w e w', c w = (Throw e, w') -> Q e.

(** The kinds of error the page-data pipeline raises. *)
Definition pipelineError (e : thrown) : Prop :=
  match e with
  | AutoApi a =>
      AutoApiError.type a = FETCH_ERROR
      \/ AutoApiError.type a = TIMEOUT_ERROR
      \/ AutoApiError.type a = PARSE_ERROR
  | Generic _ => False
  end.

(** The same, or a plain error still to be wrapped. *)
Definition pipelineErrorOrPlain (e : thrown) : Prop :=
  match e with
  | AutoApi _ => pipelineError e
  | Generic _ => True
  end.

(** The request for a page, as [fetchPageContent] issues it. *)
Definition pageFetch (pageUrl : str) (timeout : Z) : FetchCall.t :=
  {| FetchCall.url := pageUrl;
     FetchCall.userAgent := "ByteScout-NextJS-SDK/1.0";
     FetchCall.timeout := timeout |}.

(** The URL of a page on the host and protocol the request came with,
    when there is a host and the URL can be built. *)
Definition pageUrlOf (P : Platform) (request : Request.t) (pagePath : str)
  : option str :=
  match Request.host request with
  | None | Some [] => None
  | Some host =>
      match newURL P pagePath (Request.protocol request +++ "//" +++ host) with
      | inr pageUrl => Some pageUrl
      | inl _ => None
      end
  end.

(** The error [fetchPageContent] throws when the timer aborted the
    request. *)
Definition timeoutError (timeout : Z) : thrown :=
  AutoApi {| AutoApiError.message :=
               "Request timeout after " +++ ofNumber timeout +++ "ms";
             AutoApiError.type := TIMEOUT_ERROR;
             AutoApiError.statusCode := Some 408;
             AutoApiError.originalError := None |}.

(** The error it throws for a response with a status outside 200-299. *)
Definition statusError (response : Response.t) : thrown :=
  AutoApi {| AutoApiError.message :=
               "HTTP " +++ ofNumber (Response.status response) +++ ": "
               +++ Response.statusText response;
             AutoApiError.type := FETCH_ERROR;
             AutoApiError.statusCode := Some (Response.status response);
             AutoApiError.originalError := None |}.

(** The world at [time] after the one request [fetchPageContent] issues. *)
Definition fetched (w : World) (url : str) (timeout time : Z) : World :=
  {| cache := cache w; totalCacheSize := totalCacheSize w; clock := time;
     requests := requests w ++ [pageFetch url timeout] |}.

(** A response that is there after 5 ms and whose body takes ten seconds
    to read. *)
Definition slowBody : Settlement :=
  ResponseArrived
    {| Response.status := 200; Response.statusText := "OK";
       Response.text := inr (of_string "<html></html>");
       Response.textElapsed := 10000 |}.

(** The statuses [NextResponse.json] refuses for a response with a body. *)
Definition refusedStatus (status : Z) : bool :=
  (status <? 200) || (status >? 599) || isNullBodyStatus status.

(** The status with which the origin answers a request for the page,
    issued at [now] and not aborted, if it answers. *)
Definition originStatus (P : Platform) (request : Request.t) (pagePath : str)
    (now : Z) : option Z :=
  match pageUrlOf P request pagePath with
  | Some pageUrl =>
      match fst (network P pageUrl now) with
      | ResponseArrived response => Some (Response.status response)
      | _ => None
      end
  | None => None
  end.

(* ================================================================== *)
(** * Properties *)

(** ** Strings *)

Lemma eqb_eq (a b : str) : eqb a b = true <-> a = b.
Proof.
  revert b; induction a as [|x a IH]; intros [|y b]; simpl; split;
    try congruence; try reflexivity.
  - intros H. apply andb_true_iff in H as [Hx Hab].
    apply N.eqb_eq in Hx. apply IH in Hab. congruence.
  - intros H. injection H as -> ->. rewrite N.eqb_refl. simpl. now apply IH.
Qed.

Lemma eqb_refl (a : str) : eqb a a = true.
Proof. now apply eqb_eq. Qed.

Lemma eqb_neq (a b : str) : eqb a b = false <-> a <> b.
Proof.
  split.
  - intros H E. apply eqb_eq in E. congruence.
  - intros H. destruct (eqb a b) eqn:E; [|reflexivity].
    apply eqb_eq in E. contradiction.
Qed.

Lemma eqb_sym (a b : str) : eqb a b = eqb b a.
Proof.
  destruct (eqb a b) eqn:E.
  - apply eqb_eq in E. subst. symmetry. apply eqb_refl.
  - apply eqb_neq in E. symmetry. apply eqb_neq. congruence.
Qed.

(** [startsWith] is the prefix relation. *)
Lemma startsWith_spec (search s : str) :
  startsWith search s = true <-> exists rest, s = search ++ rest.
Proof.
  revert s; induction search as [|x search IH]; intros s; simpl.
  - split; [intros _; now exists s | reflexivity].
  - destruct s as [|y s].
    + split; [discriminate | intros [rest H]; discriminate].
    + rewrite andb_true_iff, N.eqb_eq, IH. split.
      * intros [-> [rest ->]]. now exists rest.
      * intros [rest H]. injection H as -> ->. split; [reflexivity | now exists rest].
Qed.

(** [endsWith] is the suffix relation. *)
Lemma endsWith_spec (search s : str) :
  endsWith search s = true <-> exists stem, s = stem ++ search.
Proof.
  unfold endsWith. rewrite andb_true_iff, Nat.leb_le, eqb_eq. split.
  - intros [Hle Hskip].
    remember (List.length s - List.length search)%nat as n eqn:Hn. clear Hn.
    exists (firstn n s). rewrite <- Hskip. symmetry. apply firstn_skipn.
  - intros [stem ->]. rewrite length_app. split; [lia|].
    replace (List.length stem + List.length search - List.length search)%nat
      with (List.length stem + 0)%nat by lia.
    now rewrite skipn_app, Nat.add_0_r, skipn_all, Nat.sub_diag.
Qed.

(** [slice(0, -2)] drops the last two units. *)
Lemma slice_drop_two (stem : str) (a b : code_unit) :
  slice 0 (-2) (stem ++ [a; b]) = stem.
Proof.
  unfold slice, relative, length. rewrite length_app. simpl List.length.
  replace (0 <? 0) with false by reflexivity.
  replace (-2 <? 0) with true by reflexivity.
  rewrite Z.min_l by lia. rewrite Z.max_l by lia.
  simpl skipn.
  replace (Z.to_nat (Z.of_nat (List.length stem + 2) + -2 - 0))
    with (List.length stem + 0)%nat by lia.
  now rewrite firstn_app_2, app_nil_r.
Qed.

(** ** Path classifier *)

(** C4, as the code has it.  A pattern [stem/*] excludes exactly the paths
    that start with [stem], the pattern without its last two characters; a
    pattern that does not end in [/*] excludes exactly itself.  With the
    one pattern [/admin/*], the paths [/admin/x], [/admin/x/y] and [/admin]
    are excluded. *)
Theorem isPathExcluded_wildcard :
  (forall (path : str) (excludePaths : list str),
      isPathExcluded path excludePaths = true <->
      exists pattern, In pattern excludePaths /\
        ((exists stem, pattern = stem +++ "/*" /\ exists rest, path = stem ++ rest)
         \/ ((forall stem, pattern <> stem +++ "/*") /\ path = pattern)))
  /\ isPathExcluded "/admin/x" ["/admin/*" : str] = true
  /\ isPathExcluded "/admin/x/y" ["/admin/*" : str] = true
  /\ isPathExcluded "/admin" ["/admin/*" : str] = true.
Proof.
  split; [|repeat split; reflexivity].
  intros path excludePaths. unfold isPathExcluded.
  rewrite existsb_exists. split.
  - intros [pattern [Hin Hm]]. exists pattern. split; [exact Hin|].
    destruct (endsWith "/*" pattern) eqn:He.
    + left. apply endsWith_spec in He as [stem ->]. exists stem. split; [reflexivity|].
      change (of_string "/*") with [47%N; 42%N] in Hm.
      rewrite slice_drop_two in Hm. now apply startsWith_spec.
    + right. split.
      * intros stem ->. enough (endsWith "/*" (stem +++ "/*") = true) by congruence.
        apply endsWith_spec. now exists stem.
      * now apply eqb_eq.
  - intros [pattern [Hin [[stem [-> [rest ->]]] | [Hno ->]]]].
    + exists (stem +++ "/*"). split; [exact Hin|].
      replace (endsWith "/*" (stem +++ "/*")) with true
        by (symmetry; apply endsWith_spec; now exists stem).
      change (of_string "/*") with [47%N; 42%N].
      rewrite slice_drop_two. apply startsWith_spec. now exists rest.
    + exists pattern. split; [exact Hin|].
      destruct (endsWith "/*" pattern) eqn:He.
      * apply endsWith_spec in He as [stem ->]. now destruct (Hno stem).
      * apply eqb_refl.
Qed.

(** C4, as the specification words it, fails: [/admin] does not start with
    [/admin/], the pattern without its trailing [*], and is excluded all the
    same. *)
Lemma isPathExcluded_admin_itself :
  endsWith "/*" "/admin/*" = true
  /\ startsWith (removelast (of_string "/admin/*")) "/admin" = false
  /\ isPathExcluded "/admin" ["/admin/*" : str] = true.
Proof. repeat split; reflexivity. Qed.

(** ** The insertion-ordered map *)

Section MapFacts.
Context {V : Type}.
Implicit Types (m : JsMap.t V) (k : str) (v : V).

Lemma delete_absent k m :
  ~ In k (JsMap.keys m) -> JsMap.delete k m = m.
Proof.
  induction m as [|[k' v'] m IH]; simpl; intros H; [reflexivity|].
  destruct (eqb k k') eqn:E.
  - apply eqb_eq in E. subst. exfalso. apply H. now left.
  - simpl. f_equal. apply IH. intros Hin. apply H. now right.
Qed.

(** Deleting the first key of a map leaves the rest of it. *)
Lemma delete_first k v m :
  JsMap.wf ((k, v) :: m) -> JsMap.delete k ((k, v) :: m) = m.
Proof.
  unfold JsMap.wf. simpl. intros H. inversion H as [|? ? Hnotin Hnd]; subst.
  rewrite eqb_refl. simpl. now apply delete_absent.
Qed.

Lemma get_delete_same k m : JsMap.get k (JsMap.delete k m) = None.
Proof.
  induction m as [|[k' v'] m IH]; simpl; [reflexivity|].
  destruct (eqb k k') eqn:E; simpl; [exact IH|]. now rewrite E.
Qed.

Lemma get_delete_other k k' m :
  k' <> k -> JsMap.get k' (JsMap.delete k m) = JsMap.get k' m.
Proof.
  intros Hne. induction m as [|[k2 v2] m IH]; simpl; [reflexivity|].
  destruct (eqb k k2) eqn:E; simpl.
  - apply eqb_eq in E. subst k2.
    replace (eqb k' k) with false by (symmetry; now apply eqb_neq). exact IH.
  - now rewrite IH.
Qed.

Lemma get_In k v m : JsMap.get k m = Some v -> In (k, v) m.
Proof.
  induction m as [|[k' v'] m IH]; simpl; [discriminate|].
  destruct (eqb k k') eqn:E.
  - apply eqb_eq in E. subst. intros [= ->]. now left.
  - intros H. right. now apply IH.
Qed.

Lemma get_None k m : JsMap.get k m = None <-> ~ In k (JsMap.keys m).
Proof.
  induction m as [|[k' v'] m IH]; simpl.
  - split; [intros _ [] | reflexivity].
  - destruct (eqb k k') eqn:E.
    + apply eqb_eq in E. subst. split; [discriminate|].
      intros H. exfalso. apply H. now left.
    + apply eqb_neq in E. rewrite IH. split.
      * intros H [H1|H1]; [congruence | contradiction].
      * intros H H1. apply H. now right.
Qed.

Lemma keys_delete k m :
  JsMap.keys (JsMap.delete k m) = filter (fun k' => negb (eqb k k')) (JsMap.keys m).
Proof.
  induction m as [|[k' v'] m IH]; simpl; [reflexivity|].
  destruct (eqb k k'); simpl; now rewrite IH.
Qed.

Lemma wf_delete k m : JsMap.wf m -> JsMap.wf (JsMap.delete k m).
Proof.
  unfold JsMap.wf. rewrite keys_delete. apply NoDup_filter.
Qed.

Lemma wf_tail kv m : JsMap.wf (kv :: m) -> JsMap.wf m.
Proof. unfold JsMap.wf. simpl. intros H. now inversion H. Qed.

Lemma keys_set k v m :
  JsMap.keys (JsMap.set k v m)
  = if existsb (eqb k) (JsMap.keys m) then JsMap.keys m else JsMap.keys m ++ [k].
Proof.
  induction m as [|[k' v'] m IH]; simpl; [reflexivity|].
  destruct (eqb k k') eqn:E; simpl; [reflexivity|].
  rewrite IH. now destruct (existsb (eqb k) (JsMap.keys m)).
Qed.

Lemma wf_set k v m : JsMap.wf m -> JsMap.wf (JsMap.set k v m).
Proof.
  unfold JsMap.wf. rewrite keys_set. intros H.
  destruct (existsb (eqb k) (JsMap.keys m)) eqn:E; [exact H|].
  apply NoDup_app; [exact H | repeat constructor; intros [] | ].
  intros x Hx [Hk|[]]. subst x.
  assert (existsb (eqb k) (JsMap.keys m) = true); [|congruence].
  apply existsb_exists. exists k. split; [exact Hx | apply eqb_refl].
Qed.

Lemma get_set_same k v m : JsMap.get k (JsMap.set k v m) = Some v.
Proof.
  induction m as [|[k' v'] m IH]; simpl.
  - now rewrite eqb_refl.
  - destruct (eqb k k') eqn:E; simpl; rewrite E; [reflexivity | exact IH].
Qed.

(** Setting a key that is absent appends it. *)
Lemma set_absent k v m :
  JsMap.get k m = None -> JsMap.set k v m = m ++ [(k, v)].
Proof.
  induction m as [|[k' v'] m IH]; simpl; [reflexivity|].
  destruct (eqb k k'); [discriminate|]. intros H. now rewrite IH.
Qed.

End MapFacts.

(** ** Cache *)

Lemma world_eta (w : World) :
  w = with_cache w (cache w) (totalCacheSize w).
Proof. now destruct w. Qed.

Lemma sumSizes_cons (kv : str * CachedPageData.t) (c : JsMap.t CachedPageData.t) :
  sumSizes (kv :: c) = CachedPageData.size (snd kv) + sumSizes c.
Proof. reflexivity. Qed.

Lemma sumSizes_app (a b : JsMap.t CachedPageData.t) :
  sumSizes (a ++ b) = sumSizes a + sumSizes b.
Proof. induction a as [|kv a IH]; simpl; [reflexivity | rewrite IH; lia]. Qed.

Lemma sumSizes_delete k e (c : JsMap.t CachedPageData.t) :
  JsMap.wf c -> JsMap.get k c = Some e ->
  sumSizes (JsMap.delete k c) = sumSizes c - CachedPageData.size e.
Proof.
  induction c as [|[k' e'] c IH]; intros Hwf Hget; [discriminate|].
  simpl in Hget. destruct (eqb k k') eqn:E.
  - apply eqb_eq in E. subst k'. injection Hget as ->.
    rewrite (delete_first _ _ _ Hwf). simpl. lia.
  - simpl. rewrite E. simpl. rewrite IH; [lia | now apply wf_tail in Hwf | exact Hget].
Qed.

Lemma length_delete k e (c : JsMap.t CachedPageData.t) :
  JsMap.wf c -> JsMap.get k c = Some e ->
  S (List.length (JsMap.delete k c)) = List.length c.
Proof.
  induction c as [|[k' e'] c IH]; intros Hwf Hget; [discriminate|].
  simpl in Hget. destruct (eqb k k') eqn:E.
  - apply eqb_eq in E. subst k'. now rewrite (delete_first _ _ _ Hwf).
  - unfold JsMap.delete. simpl. rewrite E. simpl. f_equal.
    exact (IH (wf_tail _ _ Hwf) Hget).
Qed.

Lemma size_delete k e (c : JsMap.t CachedPageData.t) :
  JsMap.wf c -> JsMap.get k c = Some e ->
  JsMap.size (JsMap.delete k c) = JsMap.size c - 1.
Proof.
  intros Hwf Hget. unfold JsMap.size.
  rewrite <- (length_delete k e c Hwf Hget). lia.
Qed.

(** What [getCachedData] computes, state included. *)
Lemma getCachedData_run (pagePath : str) (cacheDuration : Z) (w : World) :
  getCachedData pagePath cacheDuration w =
  match JsMap.get pagePath (cache w) with
  | None => (Return None, w)
  | Some cachedEntry =>
      if clock w - CachedPageData.timestamp cachedEntry >? cacheDuration * 1000
      then (Return None,
            with_cache w (JsMap.delete pagePath (cache w))
              (totalCacheSize w - CachedPageData.size cachedEntry))
      else (Return (Some (CachedPageData.data cachedEntry)), w)
  end.
Proof.
  unfold getCachedData, bind, cache_get. simpl.
  destruct (JsMap.get pagePath (cache w)) as [e|]; [|reflexivity].
  unfold Date_now. simpl.
  destruct (clock w - CachedPageData.timestamp e >? cacheDuration * 1000); reflexivity.
Qed.

(** C3, as the code has it.  A stored entry is a hit exactly when the time
    since its insertion is at most [cacheDuration * 1000] milliseconds, and
    the hit changes nothing.  Past that, the lookup is a miss, the entry is
    gone (the cache counts one entry fewer), the other entries stay, and
    the running total has shed the entry's size. *)
Theorem getCachedData_ttl (w : World) (pagePath : str) (cacheDuration : Z)
    (cachedEntry : CachedPageData.t) :
  JsMap.get pagePath (cache w) = Some cachedEntry ->
  let elapsed := clock w - CachedPageData.timestamp cachedEntry in
  (elapsed <= cacheDuration * 1000 ->
   getCachedData pagePath cacheDuration w
   = (Return (Some (CachedPageData.data cachedEntry)), w))
  /\ (elapsed > cacheDuration * 1000 ->
      exists w',
        getCachedData pagePath cacheDuration w = (Return None, w')
        /\ JsMap.get pagePath (cache w') = None
        /\ (forall k, k <> pagePath ->
                      JsMap.get k (cache w') = JsMap.get k (cache w))
        /\ totalCacheSize w'
           = totalCacheSize w - CachedPageData.size cachedEntry
        /\ (JsMap.wf (cache w) ->
            JsMap.size (cache w') = JsMap.size (cache w) - 1)
        /\ clock w' = clock w /\ requests w' = requests w).
Proof.
  intros Hget elapsed. subst elapsed. rewrite getCachedData_run, Hget. split.
  - intros Hle.
    destruct (clock w - CachedPageData.timestamp cachedEntry >? cacheDuration * 1000)
      eqn:E; [|reflexivity].
    apply Z.gtb_lt in E. lia.
  - intros Hgt.
    destruct (clock w - CachedPageData.timestamp cachedEntry >? cacheDuration * 1000)
      eqn:E.
    + eexists. split; [reflexivity|]. simpl. repeat split.
      * apply get_delete_same.
      * intros k Hk. now apply get_delete_other.
      * intros Hwf. now apply size_delete with (e := cachedEntry).
    + rewrite Z.gtb_ltb in E. apply Z.ltb_ge in E. lia.
Qed.

Lemma getCachedData_ttl_witness :
  getCachedData "/a" 60 (cachedAt0 59999)
  = (Return (Some (examplePage "/a" None)), cachedAt0 59999)
  /\ exists w', getCachedData "/a" 60 (cachedAt0 60001) = (Return None, w')
                /\ JsMap.get "/a" (cache w') = None
                /\ totalCacheSize w' = 0.
Proof.
  split.
  - apply (getCachedData_ttl (cachedAt0 59999) "/a" 60 _ eq_refl). simpl. lia.
  - destruct (getCachedData_ttl (cachedAt0 60001) "/a" 60 _ eq_refl) as [_ H].
    destruct H as [w' [H1 [H2 [_ [H3 _]]]]]; [simpl; lia|].
    exists w'. repeat split; assumption.
Defined.

(** C3, as the specification words it, fails at the boundary: 60 000 ms
    after the insertion, with a TTL of 60 s, the elapsed time is not below
    the TTL and the lookup is a hit. *)
Lemma getCachedData_hit_at_ttl :
  let w := cachedAt0 60000 in
  ~ (clock w - 0 < 60 * 1000)
  /\ getCachedData "/a" 60 w = (Return (Some (examplePage "/a" None)), w).
Proof. split; [simpl; lia | reflexivity]. Qed.

(** The eviction loop of [cachePageData], started with the cache size as
    fuel, stops because its condition has become false: it removes a
    prefix of the cache in iteration order, the shortest one after which
    the new entry fits or nothing is left. *)
Lemma evictLoop_run (dataSize maxCacheSize : Z) (fuel : nat) :
  forall w, JsMap.wf (cache w) -> (List.length (cache w) <= fuel)%nat ->
  exists evicted kept,
    cache w = evicted ++ kept
    /\ (totalCacheSize w - sumSizes evicted + dataSize <= maxCacheSize \/ kept = [])
    /\ (forall n, (n < List.length evicted)%nat ->
          totalCacheSize w - sumSizes (firstn n evicted) + dataSize > maxCacheSize)
    /\ evictLoop fuel dataSize maxCacheSize w
       = (Return tt, with_cache w kept (totalCacheSize w - sumSizes evicted)).
Proof.
  induction fuel as [|fuel IH]; intros [c total clk rq] Hwf Hlen; simpl in Hwf, Hlen.
  - exists [], []. destruct c; [|simpl in Hlen; lia].
    repeat split; [now right | simpl; lia |].
    simpl. unfold ret, with_cache. simpl. do 2 f_equal. lia.
  - cbn [evictLoop]. unfold bind at 1. unfold read_totalCacheSize at 1.
    unfold bind at 1. unfold cache_size at 1. cbn [cache totalCacheSize].
    destruct ((total + dataSize >? maxCacheSize) && (JsMap.size c >? 0)) eqn:Hcond.
    + apply andb_true_iff in Hcond as [Hover Hsize].
      destruct c as [|[k e] rest]; [discriminate|].
      unfold bind, cache_firstKey, cache_get, totalCacheSize_sub, cache_delete.
      cbn [cache totalCacheSize clock requests JsMap.firstKey JsMap.get].
      rewrite eqb_refl. cbn [cache totalCacheSize clock requests].
      rewrite (delete_first _ _ _ Hwf).
      destruct (IH {| cache := rest;
                      totalCacheSize := total - CachedPageData.size e;
                      clock := clk; requests := rq |})
        as [evicted [kept [Hsplit [Hexit [Hmin Hrun]]]]];
        [now apply wf_tail in Hwf | simpl in *; lia |].
      cbn [cache totalCacheSize] in *.
      exists ((k, e) :: evicted), kept. repeat split.
      * simpl. now rewrite Hsplit.
      * simpl. destruct Hexit as [Hexit|Hexit]; [left; lia | now right].
      * intros [|n] Hn; simpl.
        -- apply Z.gtb_lt in Hover. lia.
        -- simpl in Hn. specialize (Hmin n ltac:(lia)). lia.
      * rewrite Hrun. unfold with_cache. simpl. do 2 f_equal. lia.
    + exists [], c. repeat split.
      * apply andb_false_iff in Hcond as [H|H].
        -- left. rewrite Z.gtb_ltb in H. apply Z.ltb_ge in H. simpl. lia.
        -- right. destruct c; [reflexivity|]. unfold JsMap.size in H. simpl in H. 
           rewrite Z.gtb_ltb in H. apply Z.ltb_ge in H. lia.
      * simpl. lia.
      * unfold ret, with_cache. simpl. do 2 f_equal. lia.
Qed.

(** What [cachePageData] computes: the eviction of a shortest prefix,
    then the entry stored and the total raised by its size. *)
Lemma cachePageData_run (P : Platform) (w : World) (pagePath : str)
    (data : PageData.t) (maxCacheSize : Z) :
  JsMap.wf (cache w) ->
  exists evicted kept,
    cache w = evicted ++ kept
    /\ (totalCacheSize w - sumSizes evicted + dataSizeOf P data <= maxCacheSize
        \/ kept = [])
    /\ (forall n, (n < List.length evicted)%nat ->
          totalCacheSize w - sumSizes (firstn n evicted) + dataSizeOf P data
          > maxCacheSize)
    /\ cachePageData P pagePath data maxCacheSize w
       = (Return tt,
          with_cache w
            (JsMap.set pagePath
               {| CachedPageData.data := data;
                  CachedPageData.timestamp := clock w;
                  CachedPageData.size := dataSizeOf P data |} kept)
            (totalCacheSize w - sumSizes evicted + dataSizeOf P data)).
Proof.
  intros Hwf.
  destruct (evictLoop_run (dataSizeOf P data) maxCacheSize (List.length (cache w))
              w Hwf (Nat.le_refl _))
    as [evicted [kept [Hsplit [Hexit [Hmin Hrun]]]]].
  exists evicted, kept. repeat split; try assumption.
  unfold cachePageData.
  unfold bind at 1. unfold cache_size at 1. unfold JsMap.size.
  rewrite Nat2Z.id. unfold bind at 1. rewrite Hrun. reflexivity.
Qed.

Lemma oldestFirst_split (evicted kept : JsMap.t CachedPageData.t) :
  oldestFirst (evicted ++ kept) ->
  forall older newer, In older evicted -> In newer kept ->
    CachedPageData.timestamp (snd older) <= CachedPageData.timestamp (snd newer).
Proof.
  unfold oldestFirst. induction evicted as [|x evicted IH]; simpl; intros Hs older newer.
  - intros [].
  - inversion Hs as [|? ? Hrest Hall]; subst. intros [<-|Hin] Hnew.
    + rewrite Forall_forall in Hall. apply Hall. apply in_or_app. now right.
    + now apply IH.
Qed.

(** C2.  A put evicts a prefix of the cache in the map's insertion order
    ([evicted], the head of the iteration first), as short as possible:
    before each eviction the total plus the new size was still above the
    limit, and afterwards the new entry fits or the cache is empty.  No
    lookup changes that order (the policy is not LRU), and when the order
    is that of the insertion times, every evicted entry is at least as
    old as every entry kept.  The entry is then stored and the total
    grows by its size.  Inserting A then B, 100 bytes each, under a limit
    of 150 evicts A, keeps B and leaves a total of 100. *)
Theorem cachePageData_fifo :
  (forall (P : Platform) (w : World) (pagePath : str) (data : PageData.t)
          (maxCacheSize : Z),
      JsMap.wf (cache w) ->
      let dataSize := dataSizeOf P data in
      exists evicted kept,
        cache w = evicted ++ kept
        /\ (totalCacheSize w - sumSizes evicted + dataSize <= maxCacheSize
            \/ kept = [])
        /\ (forall n, (n < List.length evicted)%nat ->
              totalCacheSize w - sumSizes (firstn n evicted) + dataSize
              > maxCacheSize)
        /\ (oldestFirst (cache w) ->
            forall older newer, In older evicted -> In newer kept ->
              CachedPageData.timestamp (snd older)
              <= CachedPageData.timestamp (snd newer))
        /\ (forall key cacheDuration,
               cache (snd (getCachedData key cacheDuration w)) = cache w
               \/ cache (snd (getCachedData key cacheDuration w))
                  = JsMap.delete key (cache w))
        /\ cachePageData P pagePath data maxCacheSize w
           = (Return tt,
              with_cache w
                (JsMap.set pagePath
                   {| CachedPageData.data := data;
                      CachedPageData.timestamp := clock w;
                      CachedPageData.size := dataSize |} kept)
                (totalCacheSize w - sumSizes evicted + dataSize)))
  /\ (let P := examplePlatform [] NoAnswer in
      let A := examplePage "/a" None in
      let B := examplePage "/b" None in
      let w1 := snd (cachePageData P "/a" A 150 (initial 0)) in
      let w2 := snd (cachePageData P "/b" B 150 w1) in
      dataSizeOf P A = 100 /\ dataSizeOf P B = 100
      /\ JsMap.keys (cache w1) = ["/a" : str]
      /\ JsMap.keys (cache w2) = ["/b" : str]
      /\ fst (getCacheStats w2)
         = Return {| entries := 1; totalSize := 100; averageSize := 100 |}).
Proof.
  split; [|repeat split; reflexivity].
  intros P w pagePath data maxCacheSize Hwf dataSize. subst dataSize.
  destruct (cachePageData_run P w pagePath data maxCacheSize Hwf)
    as [evicted [kept [Hsplit [Hexit [Hmin Hrun]]]]].
  exists evicted, kept.
  split; [exact Hsplit|]. split; [exact Hexit|]. split; [exact Hmin|].
  split; [rewrite Hsplit; apply oldestFirst_split|].
  split; [|exact Hrun].
  intros key cacheDuration. rewrite getCachedData_run.
  destruct (JsMap.get key (cache w)) as [e|]; [|now left].
  destruct (clock w - CachedPageData.timestamp e >? cacheDuration * 1000);
    [now right | now left].
Qed.

Lemma cachePageData_fifo_witness :
  let P := examplePlatform [] NoAnswer in
  let w := snd (cachePageData P "/a" (examplePage "/a" None) 150 (initial 0)) in
  exists evicted kept,
    cache w = evicted ++ kept
    /\ (totalCacheSize w - sumSizes evicted + 100 <= 150 \/ kept = [])
    /\ snd (cachePageData P "/b" (examplePage "/b" None) 150 w)
       = with_cache w
           (JsMap.set "/b"
              {| CachedPageData.data := examplePage "/b" None;
                 CachedPageData.timestamp := 0;
                 CachedPageData.size := 100 |} kept)
           (totalCacheSize w - sumSizes evicted + 100).
Proof.
  intros P w.
  destruct (proj1 cachePageData_fifo P w "/b" (examplePage "/b" None) 150)
    as [evicted [kept [H1 [H2 [_ [_ [_ H3]]]]]]].
  - unfold JsMap.wf. simpl. repeat constructor; intros [].
  - exists evicted, kept. repeat split; [exact H1 | exact H2 |].
    rewrite H3. reflexivity.
Defined.

(** C1, at the input where the code breaks it.  Two puts of the same
    100-byte record under the same path, nothing evicted: one entry of
    size 100 is stored and the running total is 200. *)
Theorem cachePageData_same_path_twice :
  let P := examplePlatform [] NoAnswer in
  let A := examplePage "/a" None in
  let w1 := snd (cachePageData P "/a" A 1000 (initial 0)) in
  let w2 := snd (cachePageData P "/a" A 1000 w1) in
  accounted w1
  /\ JsMap.keys (cache w2) = ["/a" : str]
  /\ sumSizes (cache w2) = 100
  /\ totalCacheSize w2 = 200
  /\ ~ accounted w2.
Proof.
  cbv zeta. split; [reflexivity|]. split; [reflexivity|].
  split; [reflexivity|]. split; [reflexivity|].
  unfold accounted. vm_compute. discriminate.
Qed.

(** ** Pipeline *)

(** A hit of [getCachedData] leaves the world as it was. *)
Lemma getCachedData_hit_pure (pagePath : str) (cacheDuration : Z) (w w' : World)
    (cachedData : PageData.t) :
  getCachedData pagePath cacheDuration w = (Return (Some cachedData), w') ->
  w' = w.
Proof.
  rewrite getCachedData_run.
  destruct (JsMap.get pagePath (cache w)) as [e|]; [|discriminate].
  destruct (clock w - CachedPageData.timestamp e >? cacheDuration * 1000);
    [discriminate|]. now intros [= _ <-].
Qed.

(** C5.  On a cache hit, [getPageData] returns the cached record with the
    [receiverUsername] of the current options in place of the cached one,
    every other field as cached, and the world untouched (in particular,
    nothing is fetched). *)
Theorem getPageData_hit_overlays_receiver (P : Platform) (request : Request.t)
    (pagePath : str) (options : Options.t) (w w' : World)
    (cachedData : PageData.t) :
  Options.enableCache options = true ->
  getCachedData pagePath (Options.cacheDuration options) w
  = (Return (Some cachedData), w') ->
  exists pageData,
    getPageData P request pagePath options w = (Return pageData, w)
    /\ PageData.receiverUsername pageData = Options.receiverUsername options
    /\ pageData
       = {| PageData.path := PageData.path cachedData;
            PageData.timestamp := PageData.timestamp cachedData;
            PageData.title := PageData.title cachedData;
            PageData.h1 := PageData.h1 cachedData;
            PageData.html := PageData.html cachedData;
            PageData.receiverUsername := Options.receiverUsername options;
            PageData.contentLength := PageData.contentLength cachedData;
            PageData.extractedAt := PageData.extractedAt cachedData;
            PageData.statusCode := PageData.statusCode cachedData;
            PageData.headings := PageData.headings cachedData;
            PageData.metaDescription := PageData.metaDescription cachedData |}.
Proof.
  intros Hcache Hhit.
  pose proof (getCachedData_hit_pure _ _ _ _ _ Hhit) as ->.
  eexists. split; [|split; [|reflexivity]]; [|reflexivity].
  unfold getPageData. rewrite Hcache. unfold bind at 1. rewrite Hhit. reflexivity.
Qed.

(** The scenario of the specification: a request served for [A] fills the
    cache; a later request for [B] hits the entry, which still says [A], and
    is answered with [B]. *)
Lemma getPageData_hit_overlays_receiver_witness :
  let P := examplePlatform [] (exampleResponse 200 "OK" "<html></html>") in
  let request := exampleRequest "/api/about" in
  let w1 := snd (getPageData P request "/about" (exampleOptions "A") (initial 0)) in
  option_map (fun e => PageData.receiverUsername (CachedPageData.data e))
    (JsMap.get "/about" (cache w1)) = Some (Some (of_string "A"))
  /\ exists pageData,
       getPageData P request "/about" (exampleOptions "B") w1 = (Return pageData, w1)
       /\ PageData.receiverUsername pageData = Some (of_string "B").
Proof.
  intros P request w1. split; [reflexivity|].
  destruct (getPageData_hit_overlays_receiver P request "/about"
              (exampleOptions "B") w1 w1
              {| PageData.path := "/about"; PageData.timestamp := "5";
                 PageData.title := ""; PageData.h1 := "";
                 PageData.html := Some (of_string "<html></html>");
                 PageData.receiverUsername := Some (of_string "A");
                 PageData.contentLength := Some 13;
                 PageData.extractedAt := Some 5;
                 PageData.statusCode := Some 200;
                 PageData.headings := Some [];
                 PageData.metaDescription := None |}
              eq_refl eq_refl) as [pageData [Hrun [Hreceiver _]]].
  exists pageData. split; [exact Hrun | exact Hreceiver].
Defined.

Lemma hasDangerousCharacter_spec (path : str) :
  hasDangerousCharacter path = true
  <-> exists c, In c path /\ In c dangerousCharacters.
Proof.
  unfold hasDangerousCharacter. rewrite existsb_exists. split.
  - intros [c [Hin Hc]]. apply existsb_exists in Hc as [d [Hd Heq]].
    apply N.eqb_eq in Heq. subst d. now exists c.
  - intros [c [Hin Hc]]. exists c. split; [exact Hin|].
    apply existsb_exists. exists c. split; [exact Hc | apply N.eqb_refl].
Qed.

(** [isValidPath] refuses a path exactly for one of the three reasons the
    specification lists. *)
Lemma isValidPath_false (path : str) :
  isValidPath path = false
  <-> (exists c, In c path /\ In c dangerousCharacters)
      \/ length path > 2000
      \/ startsWith "/" path = false.
Proof.
  unfold isValidPath. rewrite !andb_false_iff, negb_false_iff,
    hasDangerousCharacter_spec, Z.leb_gt. split.
  - intros [[H|H]|H]; [right; now right | now left | right; left; lia].
  - intros [H|[H|H]]; [left; now right | right; lia | left; now left].
Qed.

(** C6.  When the middleware is enabled and the request path is under the
    API prefix, a content path that contains one of the seven characters,
    is longer than 2000 or does not start with [/] is answered with
    status 400 and kind [INVALID_CONFIG]; the world is as before, so no
    [fetch] was made and the cache was not touched. *)
Theorem middleware_rejects_invalid_path (P : Platform) (validatedConfig : Config.t)
    (request : Request.t) (w : World) :
  Config.enabled validatedConfig = true ->
  startsWith (Config.apiPrefix validatedConfig) (Request.pathname request) = true ->
  let pagePath :=
    extractPagePath (Request.pathname request) (Config.apiPrefix validatedConfig) in
  ((exists c, In c pagePath /\ In c dangerousCharacters)
   \/ length pagePath > 2000
   \/ startsWith "/" pagePath = false) ->
  exists timestamp,
    middleware P validatedConfig request w
    = (Return (Json (ErrorBody "Invalid path format" INVALID_CONFIG timestamp) 400 []),
       w)
    /\ requests (snd (middleware P validatedConfig request w)) = requests w
    /\ cache (snd (middleware P validatedConfig request w)) = cache w.
Proof.
  intros Henabled Hprefix pagePath Hbad.
  apply isValidPath_false in Hbad.
  assert (Hrun : middleware P validatedConfig request w
                 = (Return (Json (ErrorBody "Invalid path format" INVALID_CONFIG
                                    (toISOString P (clock w))) 400 []), w)).
  { unfold middleware. rewrite Henabled, Hprefix. simpl negb. cbv iota.
    unfold try_catch. fold pagePath. rewrite Hbad. reflexivity. }
  exists (toISOString P (clock w)). rewrite Hrun. repeat split.
Qed.

Lemma middleware_rejects_invalid_path_witness :
  let P := examplePlatform [] (exampleResponse 200 "OK" "<html></html>") in
  exists timestamp,
    middleware P (exampleConfig "A") (exampleRequest "/api/a?b") (initial 0)
    = (Return (Json (ErrorBody "Invalid path format" INVALID_CONFIG timestamp) 400 []),
       initial 0).
Proof.
  intros P.
  destruct (middleware_rejects_invalid_path P (exampleConfig "A")
              (exampleRequest "/api/a?b") (initial 0) eq_refl eq_refl)
    as [timestamp [Hrun _]].
  - left. exists 63%N. split; simpl; tauto.
  - exists timestamp. exact Hrun.
Defined.

(** ** Configuration validator *)

Lemma as_strings_every (items : list value) :
  forallb is_string items = true ->
  exists paths, as_strings (VArray items) = Some paths /\ items = map VString paths.
Proof.
  intros H. eexists. split; [reflexivity|].
  induction items as [|x items IH]; [reflexivity|].
  simpl in H. apply andb_true_iff in H as [Hx Hrest].
  destruct x; try discriminate. simpl. f_equal. now apply IH.
Qed.

Lemma validateAndNormalizeConfig_errors (config : AutoApiConfig.t) :
  validateAndNormalizeConfig config
  = if (Z.of_nat (List.length (violations config)) >? 0) then
      Throw (AutoApi
        {| AutoApiError.message :=
             "Configuration validation failed: " +++ join ", " (violations config);
           AutoApiError.type := INVALID_CONFIG;
           AutoApiError.statusCode := None;
           AutoApiError.originalError := None |})
    else
      Return
        {| Config.enabled := nullish (AutoApiConfig.enabled config) true;
           Config.apiPrefix :=
             nullish (as_string (AutoApiConfig.apiPrefix config)) "/api";
           Config.excludePaths :=
             nullish (as_strings (AutoApiConfig.excludePaths config)) [];
           Config.additionalHeaders :=
             (if is_undefined (AutoApiConfig.additionalHeaders config)
              then VObject []
              else AutoApiConfig.additionalHeaders config);
           Config.enableCache := nullish (AutoApiConfig.enableCache config) false;
           Config.cacheDuration :=
             nullish (as_integer (AutoApiConfig.cacheDuration config)) 3600;
           Config.receiverUsername := AutoApiConfig.receiverUsername config;
           Config.maxCacheSize := nullish (AutoApiConfig.maxCacheSize config) 1048576;
           Config.requestTimeout :=
             nullish (AutoApiConfig.requestTimeout config) 5000 |}.
Proof.
  unfold validateAndNormalizeConfig, violations.
  assert (H1 : forall v (errors : list str) (m : str),
             (if negb (is_undefined v)
              then if negb (is_string v) || negb (value_startsWith "/" v)
                   then errors ++ [m] else errors
              else errors)
             = errors ++ (if apiPrefix_ok v then [] else [m])).
  { intros [] errors m; cbn -[startsWith]; rewrite ?app_nil_r; try reflexivity.
    destruct (startsWith _ s); simpl; now rewrite ?app_nil_r. }
  assert (H2 : forall v (errors : list str) (m : str),
             (if negb (is_undefined v)
              then if negb (Number_isInteger v)
                      || value_ltb v SDK_CONSTANTS.MIN_CACHE_DURATION
                      || value_gtb v SDK_CONSTANTS.MAX_CACHE_DURATION
                   then errors ++ [m] else errors
              else errors)
             = errors ++ (if cacheDuration_ok v then [] else [m])).
  { intros [] errors m; simpl; rewrite ?app_nil_r; try reflexivity.
    unfold SDK_CONSTANTS.MIN_CACHE_DURATION, SDK_CONSTANTS.MAX_CACHE_DURATION.
    rewrite Z.gtb_ltb.
    destruct (Z.ltb_spec z 60), (Z.ltb_spec 86400 z), (Z.leb_spec 60 z),
      (Z.leb_spec z 86400); simpl; rewrite ?app_nil_r; try reflexivity; lia. }
  assert (H3 : forall v (errors : list str) (m : str),
             (if negb (is_undefined v)
              then if negb (Array_isArray v) || negb (value_every is_string v)
                   then errors ++ [m] else errors
              else errors)
             = errors ++ (if excludePaths_ok v then [] else [m])).
  { intros [] errors m; simpl; rewrite ?app_nil_r; try reflexivity.
    destruct (forallb is_string items); simpl; now rewrite ?app_nil_r. }
  assert (H4 : forall v (errors : list str) (m : str),
             (if negb (is_undefined v)
              then if negb (type_tag_eqb (typeof v) t_object) || is_null v
                   then errors ++ [m] else errors
              else errors)
             = errors ++ (if additionalHeaders_ok v then [] else [m])).
  { intros [] errors m; simpl; now rewrite ?app_nil_r. }
  cbv zeta. rewrite H1, H2, H3, H4. rewrite <- !app_assoc. reflexivity.
Qed.

Lemma violations_length (config : AutoApiConfig.t) :
  List.length (violations config) = failedChecks config.
Proof.
  unfold violations, failedChecks.
  destruct (apiPrefix_ok _), (cacheDuration_ok _), (excludePaths_ok _),
    (additionalHeaders_ok _); reflexivity.
Qed.

(** C7.  All four checks are evaluated and each failed check contributes
    its one message.  With no violation the result is a configuration in
    which every field is set: the validated fields hold the given value
    (which satisfies its check) or the default, the others the given value
    or the default, [receiverUsername] as given.  With a violation the
    function throws [INVALID_CONFIG] with the messages joined by a comma
    and a space, and [withAutoApiMiddleware] returns no middleware. *)
Theorem validateAndNormalizeConfig_spec (P : Platform) (config : AutoApiConfig.t) :
  List.length (violations config) = failedChecks config
  /\ (failedChecks config = 0%nat ->
      exists validated,
        validateAndNormalizeConfig config = Return validated
        /\ withAutoApiMiddleware P config = Return (middleware P validated)
        /\ Config.enabled validated
           = match AutoApiConfig.enabled config with Some b => b | None => true end
        /\ (AutoApiConfig.apiPrefix config = VUndefined
              /\ Config.apiPrefix validated = "/api"
            \/ AutoApiConfig.apiPrefix config = VString (Config.apiPrefix validated)
               /\ startsWith "/" (Config.apiPrefix validated) = true)
        /\ (AutoApiConfig.excludePaths config = VUndefined
              /\ Config.excludePaths validated = []
            \/ AutoApiConfig.excludePaths config
               = VArray (map VString (Config.excludePaths validated)))
        /\ (AutoApiConfig.additionalHeaders config = VUndefined
              /\ Config.additionalHeaders validated = VObject []
            \/ AutoApiConfig.additionalHeaders config
               = Config.additionalHeaders validated
               /\ typeof (Config.additionalHeaders validated) = t_object
               /\ Config.additionalHeaders validated <> VNull)
        /\ Config.enableCache validated
           = match AutoApiConfig.enableCache config with Some b => b | None => false end
        /\ (AutoApiConfig.cacheDuration config = VUndefined
              /\ Config.cacheDuration validated = 3600
            \/ AutoApiConfig.cacheDuration config
               = VInteger (Config.cacheDuration validated)
               /\ 60 <= Config.cacheDuration validated <= 86400)
        /\ Config.receiverUsername validated = AutoApiConfig.receiverUsername config
        /\ Config.maxCacheSize validated
           = match AutoApiConfig.maxCacheSize config with
             | Some n => n
             | None => 1048576
             end
        /\ Config.requestTimeout validated
           = match AutoApiConfig.requestTimeout config with
             | Some n => n
             | None => 5000
             end)
  /\ ((failedChecks config > 0)%nat ->
      exists error,
        validateAndNormalizeConfig config = Throw (AutoApi error)
        /\ withAutoApiMiddleware P config = Throw (AutoApi error)
        /\ AutoApiError.type error = INVALID_CONFIG
        /\ AutoApiError.message error
           = "Configuration validation failed: " +++ join ", " (violations config)).
Proof.
  split; [apply violations_length|]. split.
  - intros Hnone. unfold withAutoApiMiddleware.
    rewrite validateAndNormalizeConfig_errors, violations_length, Hnone.
    cbn [Z.of_nat Z.gtb Z.compare].
    eexists. split; [reflexivity|]. split; [reflexivity|].
    cbn [Config.enabled Config.apiPrefix Config.excludePaths
         Config.additionalHeaders Config.enableCache Config.cacheDuration
         Config.receiverUsername Config.maxCacheSize Config.requestTimeout].
    unfold failedChecks in Hnone.
    destruct (apiPrefix_ok (AutoApiConfig.apiPrefix config)) eqn:H1; [|discriminate].
    destruct (cacheDuration_ok (AutoApiConfig.cacheDuration config)) eqn:H2;
      [|discriminate].
    destruct (excludePaths_ok (AutoApiConfig.excludePaths config)) eqn:H3;
      [|discriminate].
    destruct (additionalHeaders_ok (AutoApiConfig.additionalHeaders config)) eqn:H4;
      [|discriminate].
    clear Hnone. repeat split.
    + destruct (AutoApiConfig.apiPrefix config); try discriminate;
        [left; now split | right; now split].
    + destruct (AutoApiConfig.excludePaths config) as [| | | | | |items|];
        try discriminate; [left; now split | right].
      simpl in H3. destruct (as_strings_every items H3) as [paths [Hp Hitems]].
      rewrite Hp. simpl. now f_equal.
    + destruct (AutoApiConfig.additionalHeaders config); try discriminate;
        [left; now split | right; repeat split; discriminate
        | right; repeat split; discriminate].
    + destruct (AutoApiConfig.cacheDuration config); try discriminate;
        [left; now split | right; split; [reflexivity|]].
      cbn [cacheDuration_ok] in H2. apply andb_true_iff in H2 as [Ha Hb].
      apply Z.leb_le in Ha. apply Z.leb_le in Hb.
      cbn [as_integer nullish]. lia.
  - intros Hsome. unfold withAutoApiMiddleware.
    rewrite validateAndNormalizeConfig_errors, violations_length.
    replace (Z.of_nat (failedChecks config) >? 0) with true
      by (symmetry; apply Z.gtb_lt; lia).
    eexists. repeat split.
Qed.

Lemma validateAndNormalizeConfig_spec_witness :
  let P := examplePlatform [] NoAnswer in
  (exists validated,
      validateAndNormalizeConfig (rawConfig VUndefined (VInteger 1800))
      = Return validated
      /\ Config.cacheDuration validated = 1800
      /\ Config.apiPrefix validated = "/api")
  /\ (exists error,
         validateAndNormalizeConfig (rawConfig (VString "api") (VInteger 5))
         = Throw (AutoApi error)
         /\ AutoApiError.message error
            = "Configuration validation failed: "
              +++ "apiPrefix must be a string starting with " +++ dquote +++ "/"
              +++ dquote +++ ", "
              +++ "cacheDuration must be an integer between 60 and 86400").
Proof.
  intros P. split.
  - destruct (validateAndNormalizeConfig_spec P (rawConfig VUndefined (VInteger 1800)))
      as [_ [Hok _]].
    destruct (Hok eq_refl)
      as [validated [Hrun [_ [_ [Hprefix [_ [_ [_ [Hduration _]]]]]]]]].
    exists validated. split; [exact Hrun|]. split.
    + destruct Hduration as [[Hd _]|[Hd _]]; [discriminate | now injection Hd].
    + destruct Hprefix as [[_ Hp]|[Hp _]]; [exact Hp | discriminate].
  - destruct (validateAndNormalizeConfig_spec P
                (rawConfig (VString "api") (VInteger 5))) as [_ [_ Hbad]].
    destruct Hbad as [error [Hrun [_ [_ Hmessage]]]]; [vm_compute; lia|].
    exists error. split; [exact Hrun | exact Hmessage].
Defined.

(** ** Content fetcher *)

(** The cache lookup that opens [getPageData] issues no request. *)
Lemma lookup_keeps_requests (enableCache : bool) (pagePath : str)
    (cacheDuration : Z) (w w1 : World) (r : completion (option PageData.t)) :
  (if enableCache then getCachedData pagePath cacheDuration else ret None) w
  = (r, w1) ->
  requests w1 = requests w.
Proof.
  destruct enableCache; [|now intros [= _ <-]].
  rewrite getCachedData_run.
  destruct (JsMap.get pagePath (cache w)) as [e|]; [|now intros [= _ <-]].
  destruct (clock w - CachedPageData.timestamp e >? cacheDuration * 1000);
    now intros [= _ <-].
Qed.

(** What [fetchPageContent] does, by what the network does: one request
    is issued, and the timer decides before the answer does when it is due
    by the time the answer is there. *)
Lemma fetchPageContent_cases (P : Platform) (url : str) (timeout : Z) (w : World) :
  let due := clock w + timerDelay timeout in
  let timedOut := (Throw (timeoutError timeout), fetched w url timeout due) in
  fetchPageContent P url timeout w
  = match network P url (clock w) with
    | (NoAnswer, _) => timedOut
    | (NetworkFailure e, elapsed) =>
        if due <=? clock w + elapsed then timedOut
        else (if eqb (Error.name e) "AbortError"
              then Throw (timeoutError timeout) else Throw (Generic e),
              fetched w url timeout (clock w + elapsed))
    | (ResponseArrived response, elapsed) =>
        if due <=? clock w + elapsed then timedOut
        else if negb (Response.ok response)
        then (Throw (statusError response), fetched w url timeout (clock w + elapsed))
        else (match Response.text response with
              | inl e => if eqb (Error.name e) "AbortError"
                         then Throw (timeoutError timeout) else Throw (Generic e)
              | inr html => Return html
              end,
              fetched w url timeout
                (clock w + elapsed + Response.textElapsed response))
    end.
Proof.
  cbv zeta. unfold fetchPageContent, setTimeout, try_catch, fetch, response_text,
    clearTimeout, abortsBefore.
  unfold bind at 1. cbn [Timer.due Timer.delay]. unfold bind at 1.
  destruct (network P url (clock w)) as [[|e|response] elapsed].
  - reflexivity.
  - destruct (clock w + timerDelay timeout <=? clock w + elapsed); [reflexivity|].
    cbn [thrown_name]. unfold throw. now destruct (eqb (Error.name e) "AbortError").
  - destruct (clock w + timerDelay timeout <=? clock w + elapsed); [reflexivity|].
    destruct (Response.ok response); cbn [negb]; [|reflexivity].
    cbn [clock cache totalCacheSize requests].
    destruct (Response.text response) as [e|html]; [|reflexivity].
    cbn [thrown_name]. unfold throw. now destruct (eqb (Error.name e) "AbortError").
Qed.

(** C9, at the input on which the code fails it.  The response is there
    after 5 ms, the reading of its body takes ten seconds, and the timeout
    is five: the timer is cleared when the response is there, the call
    returns the markup at 10 005 ms, and no [TIMEOUT_ERROR] is thrown. *)
Lemma fetchPageContent_slow_body :
  fetchPageContent (examplePlatform [] slowBody) "http://h/a" 5000 (initial 0)
  = (Return (of_string "<html></html>"),
     {| cache := []; totalCacheSize := 0; clock := 10005;
        requests := [pageFetch "http://h/a" 5000] |}).
Proof. reflexivity. Qed.



(** ** Maintenance sweep *)

Lemma filter_twice {A} (p q : A -> bool) (l : list A) :
  filter p (filter q l) = filter (fun a => q a && p a) l.
Proof.
  induction l as [|a l IH]; simpl; [reflexivity|].
  destruct (q a); simpl; [destruct (p a)|]; now rewrite IH.
Qed.

Lemma filter_all {A} (l : list A) : filter (fun _ => true) l = l.
Proof. induction l as [|a l IH]; simpl; [reflexivity | now rewrite IH]. Qed.

Lemma filter_split_length {A} (p : A -> bool) (l : list A) :
  (List.length (filter p l) + List.length (filter (fun a => negb (p a)) l)
   = List.length l)%nat.
Proof.
  induction l as [|a l IH]; simpl; [reflexivity|].
  destruct (p a); simpl; lia.
Qed.

(** In a map, an entry is determined by its key. *)
Lemma wf_key_unique {V} (m : JsMap.t V) (x y : str * V) :
  JsMap.wf m -> In x m -> In y m -> fst x = fst y -> x = y.
Proof.
  unfold JsMap.wf. induction m as [|kv m IH]; simpl; [intros _ []|].
  intros Hnd Hx Hy Hkey. inversion Hnd as [|? ? Hnotin Hnd']; subst.
  destruct Hx as [->|Hx], Hy as [->|Hy].
  - reflexivity.
  - exfalso. apply Hnotin. rewrite Hkey. now apply in_map.
  - exfalso. apply Hnotin. rewrite <- Hkey. now apply in_map.
  - now apply IH.
Qed.

(** Deleting the keys of the expired entries of [xs] from [c], one by one. *)
Lemma delete_expired_fold (now cacheDuration : Z)
    (xs c : JsMap.t CachedPageData.t) :
  fold_left (fun c kv => if expired now cacheDuration kv
                         then JsMap.delete (fst kv) c else c) xs c
  = filter (fun kv => negb (existsb (fun x => expired now cacheDuration x
                                              && eqb (fst x) (fst kv)) xs)) c.
Proof.
  revert c. induction xs as [|x xs IH]; intros c; simpl.
  - symmetry. apply filter_all.
  - rewrite IH. destruct (expired now cacheDuration x); simpl.
    + unfold JsMap.delete. rewrite filter_twice. apply filter_ext.
      intros kv. now rewrite negb_orb.
    + reflexivity.
Qed.

Lemma delete_expired_all (now cacheDuration : Z) (c : JsMap.t CachedPageData.t) :
  JsMap.wf c ->
  fold_left (fun c kv => if expired now cacheDuration kv
                         then JsMap.delete (fst kv) c else c) c c
  = filter (fun kv => negb (expired now cacheDuration kv)) c.
Proof.
  intros Hwf. rewrite delete_expired_fold. apply filter_ext_in.
  intros kv Hkv. f_equal.
  destruct (expired now cacheDuration kv) eqn:E.
  - apply existsb_exists. exists kv. split; [exact Hkv|].
    now rewrite E, eqb_refl.
  - destruct (existsb _ c) eqn:Ex; [|reflexivity].
    apply existsb_exists in Ex as [x [Hx Hb]].
    apply andb_true_iff in Hb as [Hexp Hkey]. apply eqb_eq in Hkey.
    rewrite (wf_key_unique c x kv Hwf Hx Hkv Hkey) in Hexp. congruence.
Qed.

(** The loop of [clearExpiredCache] over the entries [xs]. *)
Lemma sweep_loop (now cacheDuration : Z) (xs : JsMap.t CachedPageData.t) :
  forall (w : World) (removedCount : Z),
    for_of xs
      (fun '(key, entry) removedCount =>
         if now - CachedPageData.timestamp entry >? cacheDuration * 1000 then
           cache_delete key ;;
           totalCacheSize_sub (CachedPageData.size entry) ;;
           ret (removedCount + 1)
         else ret removedCount)
      removedCount w
    = (Return (removedCount
               + Z.of_nat (List.length (filter (expired now cacheDuration) xs))),
       with_cache w
         (fold_left (fun c kv => if expired now cacheDuration kv
                                 then JsMap.delete (fst kv) c else c) xs (cache w))
         (totalCacheSize w - sumSizes (filter (expired now cacheDuration) xs))).
Proof.
  induction xs as [|[key entry] xs IH]; intros [c total clk rq] removedCount.
  - simpl. unfold ret, with_cache. simpl. do 2 f_equal; lia.
  - cbn [for_of]. unfold bind at 1. cbn [filter fold_left].
    change (now - CachedPageData.timestamp entry >? cacheDuration * 1000)
      with (expired now cacheDuration (key, entry)).
    destruct (expired now cacheDuration (key, entry)).
    + unfold bind, cache_delete, totalCacheSize_sub, ret.
      cbn [cache totalCacheSize clock requests]. rewrite IH.
      unfold with_cache. cbn [cache totalCacheSize clock requests List.length].
      rewrite sumSizes_cons. cbn [snd].
      f_equal; [f_equal; lia | f_equal; lia].
    + unfold ret. rewrite IH. reflexivity.
Qed.

(** What [clearExpiredCache] computes: it removes exactly the entries
    that are expired at the time of the call, sheds their sizes from the
    running total, and returns their number. *)
Lemma clearExpiredCache_run (cacheDuration : Z) (w : World) :
  JsMap.wf (cache w) ->
  clearExpiredCache cacheDuration w
  = (Return (Z.of_nat (List.length
                         (filter (expired (clock w) cacheDuration) (cache w)))),
     with_cache w
       (filter (fun kv => negb (expired (clock w) cacheDuration kv)) (cache w))
       (totalCacheSize w
        - sumSizes (filter (expired (clock w) cacheDuration) (cache w)))).
Proof.
  intros Hwf. unfold clearExpiredCache, bind, Date_now, cache_entries.
  rewrite sweep_loop, delete_expired_all by exact Hwf. reflexivity.
Qed.

(** C10.  Called with an argument that is not a positive integer,
    [clearCache] throws [INVALID_CONFIG] and leaves the world as it was.
    Called with a positive integer, it removes exactly the entries expired
    at the time of the call, sheds their sizes from the running total, and
    returns their number, which is the number of entries the cache lost. *)
Theorem clearCache_precondition :
  (forall (cacheDuration : value) (w : World),
      cacheDuration <> VUndefined ->
      isPositiveInteger cacheDuration = false ->
      exists error,
        clearCache cacheDuration w = (Throw (AutoApi error), w)
        /\ AutoApiError.type error = INVALID_CONFIG)
  /\ (forall (cacheDuration : Z) (w : World),
         1 <= cacheDuration ->
         JsMap.wf (cache w) ->
         exists removedCount w',
           clearCache (VInteger cacheDuration) w = (Return removedCount, w')
           /\ cache w'
              = filter (fun kv => negb (expired (clock w) cacheDuration kv)) (cache w)
           /\ removedCount
              = Z.of_nat (List.length
                            (filter (expired (clock w) cacheDuration) (cache w)))
           /\ removedCount = JsMap.size (cache w) - JsMap.size (cache w')
           /\ totalCacheSize w'
              = totalCacheSize w
                - sumSizes (filter (expired (clock w) cacheDuration) (cache w))).
Proof.
  split.
  - intros v w Hdefined Hnot. unfold clearCache.
    destruct v; try contradiction; cbn in Hnot |- *;
      try (eexists; split; reflexivity).
    unfold value_ltb. rewrite Z.leb_antisym in Hnot.
    apply negb_false_iff in Hnot. rewrite Hnot.
    eexists; split; reflexivity.
  - intros z w Hpos Hwf. unfold clearCache.
    cbn [is_undefined Number_isInteger negb orb value_ltb as_integer nullish].
    replace (z <? 1) with false by (symmetry; apply Z.ltb_ge; lia).
    rewrite clearExpiredCache_run by exact Hwf.
    eexists. eexists. split; [reflexivity|].
    cbn [with_cache cache totalCacheSize]. repeat split.
    unfold JsMap.size.
    pose proof (filter_split_length (expired (clock w) z) (cache w)). lia.
Qed.

Lemma clearCache_precondition_witness :
  (exists error,
      clearCache (VInteger 0) twoEntries = (Throw (AutoApi error), twoEntries)
      /\ AutoApiError.type error = INVALID_CONFIG)
  /\ (exists error,
         clearCache VNonInteger twoEntries = (Throw (AutoApi error), twoEntries)
         /\ AutoApiError.type error = INVALID_CONFIG)
  /\ (exists w',
         clearCache (VInteger 60) twoEntries = (Return 1, w')
         /\ JsMap.keys (cache w') = ["/b" : str]
         /\ totalCacheSize w' = 40).
Proof.
  split; [|split].
  - apply (proj1 clearCache_precondition (VInteger 0) twoEntries);
      [discriminate | reflexivity].
  - apply (proj1 clearCache_precondition VNonInteger twoEntries);
      [discriminate | reflexivity].
  - destruct (proj2 clearCache_precondition 60 twoEntries)
      as [removedCount [w' [Hrun [Hcache [Hcount [_ Htotal]]]]]].
    + lia.
    + unfold JsMap.wf. simpl. repeat constructor; simpl; [|tauto].
      intros [H|[]]. discriminate.
    + exists w'. rewrite Hrun, Hcount, Hcache, Htotal. repeat split.
Defined.

(** ** Extractor *)

Lemma or_else_empty (s : str) : or_else s "" = s.
Proof. now destruct s. Qed.

Lemma text_single (element : node) :
  Cheerio.text [element] = Cheerio.textContent element.
Proof. unfold Cheerio.text. simpl. apply app_nil_r. Qed.

(** An element matched by the headings selector is named [h1] ... [h6],
    and the level the code computes for it is the digit of its name. *)
Lemma heading_level (element : node) :
  Cheerio.by_tags headingTags element = true ->
  parseInt (or_else (match Cheerio.prop_tagName [element] with
                     | Some tagName => substring 1 tagName
                     | None => []
                     end) "1")
  = tagDigit (Cheerio.name element)
  /\ exists n, 1 <= n <= 6
               /\ tagDigit (Cheerio.name element) = Some n
               /\ Cheerio.name element = "h" +++ ofNumber n.
Proof.
  unfold Cheerio.by_tags, headingTags. cbn [map existsb Cheerio.prop_tagName].
  rewrite !orb_true_iff, !eqb_eq.
  intros [H|[H|[H|[H|[H|[H|H]]]]]]; try discriminate; rewrite H;
    (split; [reflexivity|]);
    [exists 1 | exists 2 | exists 3 | exists 4 | exists 5 | exists 6];
    (split; [lia | split; reflexivity]).
Qed.

Lemma pushHeading_headingOf (element : node) (headings : list Heading.t) :
  Cheerio.by_tags headingTags element = true ->
  pushHeading element headings = headings ++ headingOf element.
Proof.
  intros Hm. unfold pushHeading, headingOf.
  rewrite text_single, (proj1 (heading_level element Hm)).
  destruct (trim (Cheerio.textContent element)); [now rewrite app_nil_r | reflexivity].
Qed.

Lemma headings_scan (sel : Cheerio.selection) (headings : list Heading.t) :
  (forall element, In element sel -> Cheerio.by_tags headingTags element = true) ->
  fold_left (fun headings element => pushHeading element headings) sel headings
  = headings ++ flat_map headingOf sel.
Proof.
  revert headings. induction sel as [|e sel IH]; intros headings Hall; simpl.
  - now rewrite app_nil_r.
  - rewrite IH by (intros x Hx; apply Hall; now right).
    rewrite pushHeading_headingOf by (apply Hall; now left).
    now rewrite <- app_assoc.
Qed.

(** C8, as the code has it.  When the markup parses, the extractor
    returns a record in which: [title] is the trimmed text of the
    [title] element when the document has at most one (empty when it has
    none); [h1] is the trimmed text of the first [h1] element (empty when
    there is none); [metaDescription] is the trimmed [content] attribute
    of the first [meta] element whose [name] is [description] (absent when
    there is no such element or it has no [content]); [headings] lists the
    [h1] to [h6] elements in document order, each with the digit of its
    tag name (1 to 6) as level and its trimmed text, those with empty
    trimmed text left out.  The world is unchanged. *)
Theorem extractPageData_fields (P : Platform) (html pagePath : str)
    (receiverUsername : option str) (w : World) (doc : list node) :
  load P html = inr doc ->
  exists pageData,
    extractPageData P html pagePath receiverUsername w = (Return pageData, w)
    /\ ((List.length (Cheerio.select doc (Cheerio.by_tag "title")) <= 1)%nat ->
        PageData.title pageData
        = match firstElement (Cheerio.select doc (Cheerio.by_tag "title")) with
          | Some element => trim (Cheerio.textContent element)
          | None => []
          end)
    /\ PageData.h1 pageData
       = match firstElement (Cheerio.select doc (Cheerio.by_tag "h1")) with
         | Some element => trim (Cheerio.textContent element)
         | None => []
         end
    /\ PageData.metaDescription pageData
       = match firstElement
                 (Cheerio.select doc (Cheerio.by_tag_attr "meta" "name" "description"))
         with
         | Some element =>
             option_map trim (Cheerio.lookup "content" (Cheerio.attributes element))
         | None => None
         end
    /\ PageData.headings pageData
       = Some (flat_map headingOf (Cheerio.select doc (Cheerio.by_tags headingTags)))
    /\ (forall element,
           In element (Cheerio.select doc (Cheerio.by_tags headingTags)) ->
           exists n, 1 <= n <= 6
                     /\ tagDigit (Cheerio.name element) = Some n
                     /\ Cheerio.name element = "h" +++ ofNumber n).
Proof.
  intros Hload.
  assert (Hsel : forall element,
             In element (Cheerio.select doc (Cheerio.by_tags headingTags)) ->
             Cheerio.by_tags headingTags element = true).
  { intros element Hin. unfold Cheerio.select in Hin.
    now apply filter_In in Hin as [_ Hm]. }
  unfold extractPageData, try_catch, bind, Date_now, lift. rewrite Hload.
  cbn [throw ret]. eexists. split; [reflexivity|].
  cbn [PageData.title PageData.h1 PageData.metaDescription PageData.headings].
  rewrite !or_else_empty. repeat split.
  - intros Hone.
    destruct (Cheerio.select doc (Cheerio.by_tag "title")) as [|e [|e' sel]];
      [reflexivity | | simpl in Hone; lia].
    cbn [firstElement hd_error]. now rewrite text_single.
  - destruct (Cheerio.select doc (Cheerio.by_tag "h1")) as [|e sel];
      [reflexivity|].
    cbn [firstElement hd_error Cheerio.first firstn]. now rewrite text_single.
  - now destruct (Cheerio.select doc (Cheerio.by_tag_attr "meta" "name" "description")).
  - now rewrite headings_scan by exact Hsel.
  - intros element Hin. exact (proj2 (heading_level element (Hsel element Hin))).
Qed.

Lemma extractPageData_fields_witness :
  exists pageData,
    extractPageData (examplePlatform aboutDocument NoAnswer) aboutMarkup "/about"
      None (initial 0)
    = (Return pageData, initial 0)
    /\ PageData.title pageData = "About"
    /\ PageData.h1 pageData = "Hello"
    /\ PageData.metaDescription pageData = None
    /\ PageData.headings pageData
       = Some [{| Heading.level := Some 1; Heading.text := "Hello" |};
               {| Heading.level := Some 2; Heading.text := "Sub" |}].
Proof.
  destruct (extractPageData_fields (examplePlatform aboutDocument NoAnswer)
              aboutMarkup "/about" None (initial 0) aboutDocument eq_refl)
    as [pageData [Hrun [Htitle [Hh1 [Hmeta [Hheadings _]]]]]].
  exists pageData. split; [exact Hrun|].
  split; [apply Htitle; simpl; lia|].
  split; [exact Hh1|]. split; [exact Hmeta | exact Hheadings].
Defined.

(** C8, as the specification words it, fails on the title: the text content
    of the only [title] element of [<title> A </title>] is [ A ], with its
    spaces, and the extractor returns [A]. *)
Lemma extractPageData_title_is_trimmed :
  let doc := [Element "title" [] [TextNode " A "]] in
  exists pageData,
    extractPageData (examplePlatform doc NoAnswer) "<title> A </title>" "/"
      None (initial 0)
    = (Return pageData, initial 0)
    /\ option_map Cheerio.textContent
         (firstElement (Cheerio.select doc (Cheerio.by_tag "title")))
       = Some (of_string " A ")
    /\ PageData.title pageData = "A"
    /\ PageData.title pageData <> " A ".
Proof.
  eexists. split; [reflexivity|]. split; [reflexivity|].
  split; [reflexivity | discriminate].
Qed.

(** ** The accounting invariant *)

Lemma hoare_ret {A} (I : World -> Prop) (a : A) : hoare I (ret a) I.
Proof. intros w H. exact H. Qed.

Lemma hoare_throw {A} (I : World -> Prop) (e : thrown) : hoare I (@throw A e) I.
Proof. intros w H. exact H. Qed.

Lemma hoare_bind {A B} (pre mid post : World -> Prop) (c : M A) (k : A -> M B) :
  hoare pre c mid ->
  (forall a, hoare mid (k a) post) ->
  (forall w, mid w -> post w) ->
  hoare pre (bind c k) post.
Proof.
  intros Hc Hk Hweak w Hpre. unfold bind. specialize (Hc w Hpre).
  destruct (c w) as [[a|e] w']; simpl in *; [now apply Hk | now apply Hweak].
Qed.

Lemma hoare_try_catch {A} (pre mid post : World -> Prop) (c : M A)
    (handler : thrown -> M A) :
  hoare pre c mid ->
  (forall e, hoare mid (handler e) post) ->
  (forall w, mid w -> post w) ->
  hoare pre (try_catch c handler) post.
Proof.
  intros Hc Hh Hweak w Hpre. unfold try_catch. specialize (Hc w Hpre).
  destruct (c w) as [[a|e] w']; simpl in *; [now apply Hweak | now apply Hh].
Qed.

Lemma hoare_weaken {A} (pre pre' post post' : World -> Prop) (c : M A) :
  hoare pre' c post' ->
  (forall w, pre w -> pre' w) -> (forall w, post' w -> post w) ->
  hoare pre c post.
Proof. intros Hc Hpre Hpost w H. apply Hpost, Hc, Hpre, H. Qed.

Lemma hoare_lift {A} (I : World -> Prop) (r : Error.t + A) : hoare I (lift r) I.
Proof. destruct r; [apply hoare_throw | apply hoare_ret]. Qed.

Lemma hoare_for_of {A B} (I : World -> Prop) (xs : list A) (body : A -> B -> M B) :
  (forall x acc, hoare I (body x acc) I) ->
  forall acc, hoare I (for_of xs body acc) I.
Proof.
  intros Hbody. induction xs as [|x xs IH]; intros acc; simpl.
  - apply hoare_ret.
  - apply hoare_bind with (mid := I); auto.
Qed.

Lemma sumSizes_filter (p : str * CachedPageData.t -> bool)
    (c : JsMap.t CachedPageData.t) :
  sumSizes (filter p c) + sumSizes (filter (fun kv => negb (p kv)) c) = sumSizes c.
Proof.
  induction c as [|kv c IH]; simpl; [reflexivity|].
  destruct (p kv); simpl; lia.
Qed.

Lemma wf_filter {V} (p : str * V -> bool) (m : JsMap.t V) :
  JsMap.wf m -> JsMap.wf (filter p m).
Proof.
  unfold JsMap.wf. induction m as [|kv m IH]; simpl; intros H; [constructor|].
  inversion H as [|? ? Hnotin Hnd]; subst.
  destruct (p kv); simpl; [|now apply IH].
  constructor; [|now apply IH].
  intros Hin. apply Hnotin. apply in_map_iff in Hin as [x [Hx Hin]].
  apply filter_In in Hin as [Hin _]. rewrite <- Hx. now apply in_map.
Qed.

Lemma wf_app_r {V} (a b : JsMap.t V) : JsMap.wf (a ++ b) -> JsMap.wf b.
Proof.
  unfold JsMap.wf, JsMap.keys. rewrite map_app.
  induction (map fst a) as [|k ks IH]; simpl; [auto|].
  intros H. inversion H. auto.
Qed.

Lemma get_app_None {V} (k : str) (a b : JsMap.t V) :
  JsMap.get k (a ++ b) = None -> JsMap.get k b = None.
Proof.
  induction a as [|[k' v] a IH]; simpl; [auto|].
  destruct (eqb k k'); [discriminate | exact IH].
Qed.

Lemma sumSizes_set_present (k : str) (old e : CachedPageData.t)
    (c : JsMap.t CachedPageData.t) :
  JsMap.get k c = Some old ->
  sumSizes (JsMap.set k e c)
  = sumSizes c - CachedPageData.size old + CachedPageData.size e.
Proof.
  induction c as [|[k' e'] c IH]; simpl; [discriminate|].
  destruct (eqb k k'); [intros [= ->]; simpl; lia|].
  intros H. simpl. rewrite (IH H). lia.
Qed.

(** The lookup keeps the invariant, and after a miss the key is absent. *)
Lemma getCachedData_consistent (pagePath : str) (cacheDuration : Z) (w : World) :
  consistent w ->
  consistent (snd (getCachedData pagePath cacheDuration w))
  /\ (fst (getCachedData pagePath cacheDuration w) = Return None ->
      JsMap.get pagePath (cache (snd (getCachedData pagePath cacheDuration w)))
      = None).
Proof.
  intros [Hwf Hacc]. rewrite getCachedData_run.
  destruct (JsMap.get pagePath (cache w)) as [e|] eqn:Hget.
  - destruct (clock w - CachedPageData.timestamp e >? cacheDuration * 1000).
    + simpl. split; [split|].
      * now apply wf_delete.
      * unfold accounted in *. simpl. rewrite (sumSizes_delete _ e _ Hwf Hget). lia.
      * intros _. apply get_delete_same.
    + simpl. split; [now split | discriminate].
  - simpl. split; [now split | now intros _].
Qed.

(** The sweep keeps the invariant. *)
Lemma clearExpiredCache_consistent (cacheDuration : Z) :
  hoare consistent (clearExpiredCache cacheDuration) consistent.
Proof.
  intros w [Hwf Hacc]. rewrite clearExpiredCache_run by exact Hwf. simpl. split.
  - simpl. now apply wf_filter.
  - unfold accounted in *. simpl.
    pose proof (sumSizes_filter (expired (clock w) cacheDuration) (cache w)). lia.
Qed.

(** A put under a path that is not stored keeps the invariant. *)
Lemma cachePageData_absent_consistent (P : Platform) (pagePath : str)
    (data : PageData.t) (maxCacheSize : Z) (w : World) :
  consistent w ->
  JsMap.get pagePath (cache w) = None ->
  consistent (snd (cachePageData P pagePath data maxCacheSize w)).
Proof.
  intros [Hwf Hacc] Habsent.
  destruct (cachePageData_run P w pagePath data maxCacheSize Hwf)
    as [evicted [kept [Hsplit [_ [_ Hrun]]]]].
  rewrite Hrun. simpl. rewrite Hsplit in Hwf, Habsent.
  unfold accounted in Hacc. rewrite Hsplit in Hacc.
  split; simpl.
  - apply wf_set. now apply wf_app_r in Hwf.
  - unfold accounted. simpl.
    rewrite set_absent by (now apply get_app_None in Habsent).
    rewrite sumSizes_app, sumSizes_cons in *. simpl. lia.
Qed.

(** A put under a path that is stored, with nothing to evict, leaves the
    running total above the sum of the stored sizes by the size of the
    entry it replaced. *)
Lemma cachePageData_present_drifts (P : Platform) (pagePath : str)
    (data : PageData.t) (maxCacheSize : Z) (w : World) (old : CachedPageData.t) :
  consistent w ->
  JsMap.get pagePath (cache w) = Some old ->
  totalCacheSize w + dataSizeOf P data <= maxCacheSize ->
  let w' := snd (cachePageData P pagePath data maxCacheSize w) in
  totalCacheSize w' = sumSizes (cache w') + CachedPageData.size old.
Proof.
  intros [Hwf Hacc] Hpresent Hfits.
  destruct (cachePageData_run P w pagePath data maxCacheSize Hwf)
    as [evicted [kept [Hsplit [_ [Hmin Hrun]]]]].
  rewrite Hrun. simpl.
  destruct evicted as [|x evicted].
  - simpl in Hsplit. subst kept. unfold accounted in Hacc.
    rewrite (sumSizes_set_present _ old _ _ Hpresent). simpl. lia.
  - specialize (Hmin 0%nat ltac:(simpl; lia)). simpl in Hmin. lia.
Qed.

Lemma cachePageData_present_drifts_witness :
  let P := examplePlatform [] NoAnswer in
  let w' := snd (cachePageData P "/a" (examplePage "/a" None) 1000 (cachedAt0 5)) in
  totalCacheSize w' = sumSizes (cache w') + 100.
Proof.
  intros P.
  apply (cachePageData_present_drifts P "/a" (examplePage "/a" None) 1000
           (cachedAt0 5)
           {| CachedPageData.data := examplePage "/a" None;
              CachedPageData.timestamp := 0;
              CachedPageData.size := 100 |}).
  - split; [|reflexivity]. unfold JsMap.wf. simpl. repeat constructor. intros [].
  - reflexivity.
  - simpl. lia.
Defined.

Lemma consistent_cacheOnly : cacheOnly consistent.
Proof.
  intros w w' Hc Ht [Hwf Hacc]. unfold consistent, accounted in *.
  rewrite Hc, Ht. now split.
Qed.

Lemma absent_cacheOnly (enableCache : bool) (pagePath : str) :
  cacheOnly (fun w => consistent w
                      /\ (enableCache = true -> JsMap.get pagePath (cache w) = None)).
Proof.
  intros w w' Hc Ht [Hcons Habs]. split.
  - exact (consistent_cacheOnly w w' Hc Ht Hcons).
  - now rewrite Hc.
Qed.

Section Frames.
Variable P : Platform.
Variable I : World -> Prop.
Hypothesis I_cacheOnly : cacheOnly I.

Lemma hoare_Date_now : hoare I Date_now I.
Proof. intros w H. exact H. Qed.

Lemma hoare_fetchPageContent (url : str) (timeout : Z) :
  hoare I (fetchPageContent P url timeout) I.
Proof.
  intros w H. rewrite fetchPageContent_cases. cbv zeta.
  destruct (network P url (clock w)) as [[|e|r] elapsed];
    repeat match goal with
           | |- context [if ?b then _ else _] => destruct b
           end;
    now apply (I_cacheOnly w).
Qed.

Lemma hoare_NextResponse_json (body : Body) (status : Z) :
  hoare I (NextResponse_json body status) I.
Proof.
  unfold NextResponse_json.
  destruct (_ || _); [apply hoare_throw|].
  destruct (isNullBodyStatus status); [apply hoare_throw | apply hoare_ret].
Qed.

Lemma hoare_constructPageUrl (request : Request.t) (pagePath : str) :
  hoare I (constructPageUrl P request pagePath) I.
Proof.
  unfold constructPageUrl. destruct (Request.host request) as [[|c host]|];
    [apply hoare_throw | apply hoare_lift | apply hoare_throw].
Qed.

Lemma hoare_extractPageData (html pagePath : str) (receiverUsername : option str) :
  hoare I (extractPageData P html pagePath receiverUsername) I.
Proof.
  unfold extractPageData. apply hoare_try_catch with (mid := I); [| |auto].
  - apply hoare_bind with (mid := I); [apply hoare_lift| |auto].
    intros doc. apply hoare_bind with (mid := I); [apply hoare_Date_now| |auto].
    intros now. apply hoare_ret.
  - intros e. apply hoare_throw.
Qed.

Lemma hoare_createErrorResponse (message : str) (status : Z)
    (type : AutoApiErrorType) :
  hoare I (createErrorResponse P message status type) I.
Proof.
  unfold createErrorResponse.
  apply hoare_bind with (mid := I); [apply hoare_Date_now| |auto].
  intros now. apply hoare_NextResponse_json.
Qed.

Lemma hoare_handleMiddlewareError (error : thrown) :
  hoare I (handleMiddlewareError P error) I.
Proof. destruct error; apply hoare_createErrorResponse. Qed.

Lemma hoare_applyAdditionalHeaders (response : NextResponse) (headers : value) :
  hoare I (applyAdditionalHeaders P response headers) I.
Proof.
  unfold applyAdditionalHeaders. apply hoare_for_of.
  intros [key v] acc. destruct v; try apply hoare_ret.
  destruct acc; [apply hoare_ret|].
  apply hoare_bind with (mid := I); [apply hoare_lift| |auto].
  intros hs. apply hoare_ret.
Qed.

End Frames.

Lemma getPageData_phases (P : Platform) (request : Request.t) (pagePath : str)
    (options : Options.t) :
  getPageData P request pagePath options
  = (cachedData <- lookupPhase pagePath options ;;
     match cachedData with
     | Some cachedData =>
         ret (PageData.with_receiverUsername cachedData
                (Options.receiverUsername options))
     | None => fetchPhase P request pagePath options
     end).
Proof. reflexivity. Qed.

(** After a miss, fetching and storing keeps the invariant: the path is
    not stored when the put happens. *)
Lemma fetchPhase_consistent (P : Platform) (request : Request.t) (pagePath : str)
    (options : Options.t) :
  hoare (fun w => consistent w
                  /\ (Options.enableCache options = true ->
                      JsMap.get pagePath (cache w) = None))
        (fetchPhase P request pagePath options)
        consistent.
Proof.
  set (absent := fun w => consistent w
                 /\ (Options.enableCache options = true ->
                     JsMap.get pagePath (cache w) = None)).
  assert (Hco : cacheOnly absent) by apply absent_cacheOnly.
  assert (Hweak : forall w, absent w -> consistent w) by (now intros ? [? _]).
  unfold fetchPhase.
  apply hoare_try_catch with (mid := consistent); [| |auto].
  - apply hoare_bind with (mid := absent);
      [now apply hoare_constructPageUrl| |exact Hweak].
    intros pageUrl. apply hoare_bind with (mid := absent);
      [now apply hoare_fetchPageContent| |exact Hweak].
    intros htmlContent. apply hoare_bind with (mid := absent);
      [now apply hoare_extractPageData| |exact Hweak].
    intros extractedData. apply hoare_bind with (mid := consistent);
      [| intros; apply hoare_ret | auto].
    intros w2 [Hc2 Habs2].
    destruct (Options.enableCache options); [|exact Hc2].
    destruct (shouldCacheData P extractedData (Options.maxCacheSize options));
      [|exact Hc2].
    apply cachePageData_absent_consistent; auto.
  - intros [e|e]; apply hoare_throw.
Qed.

(** Served one request at a time, the pipeline keeps the invariant: a
    put follows a miss for the same path in the same request. *)
Lemma getPageData_consistent (P : Platform) (request : Request.t) (pagePath : str)
    (options : Options.t) :
  hoare consistent (getPageData P request pagePath options) consistent.
Proof.
  intros w Hcons. rewrite getPageData_phases. unfold bind, lookupPhase.
  destruct (Options.enableCache options) eqn:Hcache.
  - destruct (getCachedData_consistent pagePath (Options.cacheDuration options) w Hcons)
      as [Hc1 Habs1].
    destruct (getCachedData pagePath (Options.cacheDuration options) w)
      as [[[cachedData|]|e] w1]; simpl in Hc1, Habs1.
    + exact Hc1.
    + apply fetchPhase_consistent. split; [exact Hc1 | auto].
    + exact Hc1.
  - unfold ret at 1. apply fetchPhase_consistent.
    split; [exact Hcons | intros H; rewrite Hcache in H; discriminate].
Qed.

Lemma middleware_consistent (P : Platform) (validatedConfig : Config.t)
    (request : Request.t) :
  hoare consistent (middleware P validatedConfig request) consistent.
Proof.
  unfold middleware. cbv zeta.
  destruct (negb (Config.enabled validatedConfig)); [apply hoare_ret|].
  destruct (negb (startsWith _ _)); [apply hoare_ret|].
  apply hoare_try_catch with (mid := consistent); [| |auto].
  - destruct (negb (isValidPath _)).
    { apply hoare_createErrorResponse. }
    match goal with |- context [if ?b then _ else _] => destruct b end;
      [apply hoare_ret|].
    apply hoare_bind with (mid := consistent);
      [apply getPageData_consistent| |auto].
    intros pageData. apply hoare_applyAdditionalHeaders.
  - intros e. apply hoare_handleMiddlewareError.
Qed.

(** As long as requests do not overlap, the running total is the sum of
    the stored sizes after every event, from module load on. *)
Theorem sequential_history_consistent (P : Platform) (events : list event) (now : Z) :
  consistent (history P events (initial now)).
Proof.
  unfold history.
  assert (H0 : consistent (initial now)).
  { split; [constructor | reflexivity]. }
  revert H0. generalize (initial now).
  induction events as [|e events IH]; intros w Hw; simpl; [exact Hw|].
  apply IH. destruct e as [cfg request|cacheDuration|ms]; simpl.
  - now apply middleware_consistent.
  - now apply clearExpiredCache_consistent.
  - now apply (consistent_cacheOnly w).
Qed.

(** Two [title] elements, as a page with an inline SVG icon has them:
    the extractor returns the texts of both, joined. *)
Lemma extractPageData_two_titles :
  let doc :=
    [Element "html" []
       [Element "head" [] [Element "title" [] [TextNode "About"]];
        Element "body" []
          [Element "svg" [] [Element "title" [] [TextNode "Icon"]]]]] in
  exists pageData,
    extractPageData (examplePlatform doc NoAnswer) "" "/" None (initial 0)
    = (Return pageData, initial 0)
    /\ PageData.title pageData = "AboutIcon".
Proof. eexists. split; reflexivity. Qed.

(** ** Overlapping requests *)

(** Two requests for the same page that is not cached, the second one
    arriving while the first awaits its response: both look up and miss,
    then both fetch and store.  The cache ends with one entry and a
    running total of twice its size. *)
Lemma overlapping_requests_double_count :
  let P := examplePlatform [] (exampleResponse 200 "OK" "<html></html>") in
  let request := exampleRequest "/api/about" in
  let options := exampleOptions "A" in
  let w1 := snd (lookupPhase "/about" options (initial 0)) in
  let w2 := snd (lookupPhase "/about" options w1) in
  let w3 := snd (fetchPhase P request "/about" options w2) in
  let w4 := snd (fetchPhase P request "/about" options w3) in
  fst (lookupPhase "/about" options (initial 0)) = Return None
  /\ fst (lookupPhase "/about" options w1) = Return None
  /\ consistent w3
  /\ JsMap.keys (cache w4) = ["/about" : str]
  /\ sumSizes (cache w4) = 113
  /\ totalCacheSize w4 = 226.
Proof.
  cbv zeta. split; [reflexivity|]. split; [reflexivity|].
  split; [|repeat split; reflexivity].
  split; [|reflexivity]. unfold JsMap.wf. simpl. repeat constructor. intros [].
Qed.

(* ================================================================== *)
(** * Further properties of the code *)

(** ** Content path extraction *)

Lemma startsWith_app (search rest : str) : startsWith search (search ++ rest) = true.
Proof. apply startsWith_spec. now exists rest. Qed.

(** Replacing a prefix by the empty string removes it. *)
Lemma replace_prefix (prefix rest : str) : replace prefix [] (prefix ++ rest) = rest.
Proof.
  assert (H : replace prefix [] (prefix ++ rest)
              = [] ++ skipn (List.length prefix) (prefix ++ rest)).
  { destruct (prefix ++ rest) eqn:E; simpl; rewrite <- E, startsWith_app;
      reflexivity. }
  rewrite H. simpl. now rewrite skipn_app, skipn_all, Nat.sub_diag.
Qed.

(** The content path always starts with a slash.  For a request path
    under the prefix, it is what follows the first occurrence of the
    prefix, at the front, with a slash put before it when it has none: a
    path equal to the prefix gives the root, a later occurrence of the
    prefix stays, and the prefix need not end at a segment boundary. *)
Theorem extractPagePath_strips_prefix :
  (forall pathname apiPrefix : str,
      startsWith "/" (extractPagePath pathname apiPrefix) = true)
  /\ (forall apiPrefix rest : str,
         extractPagePath (apiPrefix ++ rest) apiPrefix
         = if startsWith "/" rest then rest else "/" +++ rest)
  /\ (forall apiPrefix : str, extractPagePath apiPrefix apiPrefix = "/").
Proof.
  assert (Hroot : forall p : str, (if eqb p "/" then of_string "/" else p) = p).
  { intros p. destruct (eqb p "/") eqn:E; [|reflexivity].
    apply eqb_eq in E. now subst. }
  assert (Hstrip : forall apiPrefix rest : str,
             extractPagePath (apiPrefix ++ rest) apiPrefix
             = if startsWith "/" rest then rest else "/" +++ rest).
  { intros apiPrefix rest. unfold extractPagePath. cbv zeta. rewrite Hroot.
    change (of_string "") with (@nil code_unit). rewrite replace_prefix.
    now destruct (startsWith "/" rest). }
  split; [|split; [exact Hstrip|]].
  - intros pathname apiPrefix. unfold extractPagePath. cbv zeta. rewrite Hroot.
    destruct (startsWith "/" (replace apiPrefix "" pathname)) eqn:E;
      [exact E | reflexivity].
  - intros apiPrefix. pose proof (Hstrip apiPrefix []) as H.
    rewrite app_nil_r in H. exact H.
Qed.

(** ** What the middleware answers *)

(** Setting headers keeps the body and the status of a response. *)
Lemma applyAdditionalHeaders_body (P : Platform) (headers : value) :
  forall (body : Body) (status : Z) (hs : Headers) (w w' : World)
         (response : NextResponse),
    applyAdditionalHeaders P (Json body status hs) headers w = (Return response, w') ->
    w' = w /\ exists hs', response = Json body status hs'.
Proof.
  unfold applyAdditionalHeaders.
  induction (Object_entries headers) as [|[key v] entries IH];
    intros body status hs w w' response; simpl.
  - intros [= <- <-]. split; [reflexivity | now exists hs].
  - unfold bind at 1.
    destruct v; try (unfold ret at 1; apply IH).
    unfold bind at 1, lift.
    destruct (headersSet P key s hs) as [e|hs1]; simpl; [discriminate|].
    apply IH.
Qed.

(** A failing header leaves the world as it is, too. *)
Lemma applyAdditionalHeaders_world (P : Platform) (headers : value) :
  forall (response : NextResponse) (w : World),
    snd (applyAdditionalHeaders P response headers w) = w.
Proof.
  unfold applyAdditionalHeaders.
  induction (Object_entries headers) as [|[key v] entries IH];
    intros response w; simpl; [reflexivity|].
  unfold bind at 1.
  destruct v; try (unfold ret at 1; apply IH).
  destruct response; [unfold ret at 1; apply IH|].
  unfold bind at 1, lift.
  destruct (headersSet P key s headers0) as [e|hs1]; simpl; [reflexivity|].
  apply IH.
Qed.

Lemma NextResponse_json_run (body : Body) (status : Z) (w : World) :
  (refusedStatus status = false ->
   NextResponse_json body status w = (Return (Json body status []), w))
  /\ (refusedStatus status = true ->
      exists e,
        NextResponse_json body status w = (Throw (Generic e), w)
        /\ (Error.name e = "RangeError" \/ Error.name e = "TypeError")).
Proof.
  unfold NextResponse_json, refusedStatus.
  destruct ((status <? 200) || (status >? 599)); cbn [orb].
  - split; [discriminate|]. intros _. eexists. split; [reflexivity | now left].
  - destruct (isNullBodyStatus status); split; try discriminate; try reflexivity.
    intros _. eexists. split; [reflexivity | now right].
Qed.

Lemma NextResponse_json_world (body : Body) (status : Z) (w : World) :
  snd (NextResponse_json body status w) = w.
Proof.
  unfold NextResponse_json. destruct (_ || _); [reflexivity|].
  now destruct (isNullBodyStatus status).
Qed.

Lemma NextResponse_json_not_next (body : Body) (status : Z) (w : World) :
  fst (NextResponse_json body status w) <> Return Next.
Proof.
  unfold NextResponse_json. destruct (_ || _); [discriminate|].
  destruct (isNullBodyStatus status); discriminate.
Qed.

Lemma handleMiddlewareError_run (P : Platform) (error : thrown) (w : World) :
  handleMiddlewareError P error w
  = NextResponse_json
      (match error with
       | AutoApi a =>
           ErrorBody (AutoApiError.message a) (AutoApiError.type a)
             (toISOString P (clock w))
       | Generic _ =>
           ErrorBody "An unexpected error occurred" FETCH_ERROR
             (toISOString P (clock w))
       end)
      (match error with
       | AutoApi a => status_or (AutoApiError.statusCode a) 500
       | Generic _ => 500
       end) w.
Proof. now destruct error. Qed.

Lemma handleMiddlewareError_world (P : Platform) (error : thrown) (w : World) :
  snd (handleMiddlewareError P error w) = w.
Proof. rewrite handleMiddlewareError_run. apply NextResponse_json_world. Qed.

(** A plain error is answered with the 500 for unexpected errors. *)
Lemma handleMiddlewareError_plain (P : Platform) (e : Error.t) (w : World) :
  handleMiddlewareError P (Generic e) w
  = (Return (Json (ErrorBody "An unexpected error occurred" FETCH_ERROR
                     (toISOString P (clock w))) 500 []), w).
Proof. reflexivity. Qed.

(** The middleware on a request it handles itself: enabled, under the
    prefix, with a valid content path that is not excluded. *)
Lemma middleware_api_run (P : Platform) (validatedConfig : Config.t)
    (request : Request.t) (w : World) :
  Config.enabled validatedConfig = true ->
  startsWith (Config.apiPrefix validatedConfig) (Request.pathname request) = true ->
  let pagePath :=
    extractPagePath (Request.pathname request) (Config.apiPrefix validatedConfig) in
  isValidPath pagePath = true ->
  isPathExcluded pagePath (Config.excludePaths validatedConfig) = false ->
  middleware P validatedConfig request w
  = match getPageData P request pagePath (optionsOf validatedConfig) w with
    | (Return pageData, w1) =>
        match applyAdditionalHeaders P (Json (PageBody pageData) 200 [])
                (Config.additionalHeaders validatedConfig) w1 with
        | (Return response, w2) => (Return response, w2)
        | (Throw error, w2) => handleMiddlewareError P error w2
        end
    | (Throw error, w1) => handleMiddlewareError P error w1
    end.
Proof.
  intros Henabled Hprefix pagePath Hvalid Hexcluded.
  unfold middleware. rewrite Henabled, Hprefix. cbn [negb]. cbv zeta.
  fold pagePath. rewrite Hvalid, Hexcluded. cbn [negb].
  unfold try_catch, bind. fold (optionsOf validatedConfig).
  destruct (getPageData P request pagePath (optionsOf validatedConfig) w)
    as [[pageData|error] w1]; reflexivity.
Qed.

(** The middleware passes a request through exactly when it is disabled,
    the request path is not under the prefix, or the content path is valid
    and excluded; and then it has touched nothing: no lookup, no lazy
    expiry, no fetch. *)
Theorem middleware_passes_through (P : Platform) (validatedConfig : Config.t)
    (request : Request.t) (w : World) :
  let pagePath :=
    extractPagePath (Request.pathname request) (Config.apiPrefix validatedConfig) in
  (fst (middleware P validatedConfig request w) = Return Next
   <-> Config.enabled validatedConfig = false
       \/ startsWith (Config.apiPrefix validatedConfig) (Request.pathname request)
          = false
       \/ (isValidPath pagePath = true
           /\ isPathExcluded pagePath (Config.excludePaths validatedConfig) = true))
  /\ (fst (middleware P validatedConfig request w) = Return Next ->
      snd (middleware P validatedConfig request w) = w).
Proof.
  intros pagePath.
  destruct (Config.enabled validatedConfig) eqn:Henabled.
  2: { unfold middleware. rewrite Henabled. simpl. split; [|reflexivity].
       split; [now left | reflexivity]. }
  destruct (startsWith (Config.apiPrefix validatedConfig) (Request.pathname request))
    eqn:Hprefix.
  2: { unfold middleware. rewrite Henabled, Hprefix. simpl. split; [|reflexivity].
       split; [right; now left | reflexivity]. }
  destruct (isValidPath pagePath) eqn:Hvalid.
  2: { unfold middleware. rewrite Henabled, Hprefix. cbn [negb]. cbv zeta.
       fold pagePath. rewrite Hvalid. cbn. split; [|discriminate].
       split; [discriminate|]. intros [H|[H|[H _]]]; discriminate. }
  destruct (isPathExcluded pagePath (Config.excludePaths validatedConfig))
    eqn:Hexcluded.
  { unfold middleware. rewrite Henabled, Hprefix. cbn [negb]. cbv zeta.
    fold pagePath. rewrite Hvalid, Hexcluded. cbn. split; [|reflexivity].
    split; [right; right; now split | reflexivity]. }
  assert (Hnot : fst (middleware P validatedConfig request w) <> Return Next).
  { rewrite (middleware_api_run P validatedConfig request w Henabled Hprefix Hvalid
               Hexcluded). fold pagePath.
    destruct (getPageData P request pagePath (optionsOf validatedConfig) w)
      as [[pageData|error] w1];
      [|rewrite handleMiddlewareError_run; apply NextResponse_json_not_next].
    destruct (applyAdditionalHeaders P (Json (PageBody pageData) 200 [])
                (Config.additionalHeaders validatedConfig) w1)
      as [[response|error] w2] eqn:Hheaders;
      [|rewrite handleMiddlewareError_run; apply NextResponse_json_not_next].
    apply applyAdditionalHeaders_body in Hheaders as [_ [hs' ->]]. discriminate. }
  split; [|intros H; contradiction].
  split; [intros H; contradiction|].
  intros [H|[H|[_ H]]]; discriminate.
Qed.

(** ** What can be thrown *)

Lemma throwsOnly_ret {A} (a : A) (Q : thrown -> Prop) : throwsOnly (ret a) Q.
Proof. intros w e w' H. discriminate. Qed.

Lemma throwsOnly_throw {A} (e : thrown) (Q : thrown -> Prop) :
  Q e -> throwsOnly (@throw A e) Q.
Proof. intros HQ w e' w' [= <- _]. exact HQ. Qed.

Lemma throwsOnly_bind {A B} (c : M A) (k : A -> M B) (Q : thrown -> Prop) :
  throwsOnly c Q -> (forall a, throwsOnly (k a) Q) -> throwsOnly (bind c k) Q.
Proof.
  intros Hc Hk w e w'. unfold bind.
  destruct (c w) as [[a|e1] w1] eqn:E.
  - apply Hk.
  - intros [= <- _]. exact (Hc _ _ _ E).
Qed.

Lemma throwsOnly_try_catch {A} (c : M A) (handler : thrown -> M A)
    (Qc Q : thrown -> Prop) :
  throwsOnly c Qc ->
  (forall e, Qc e -> throwsOnly (handler e) Q) ->
  throwsOnly (try_catch c handler) Q.
Proof.
  intros Hc Hh w e w'. unfold try_catch.
  destruct (c w) as [[a|e1] w1] eqn:E; [discriminate|].
  apply Hh. exact (Hc _ _ _ E).
Qed.

Lemma throwsOnly_never {A} (c : M A) (Q : thrown -> Prop) :
  throwsOnly c (fun _ => False) -> throwsOnly c Q.
Proof. intros H w e w' E. destruct (H _ _ _ E). Qed.

Lemma evictLoop_returns (fuel : nat) (dataSize maxCacheSize : Z) :
  throwsOnly (evictLoop fuel dataSize maxCacheSize) (fun _ => False).
Proof.
  induction fuel as [|fuel IH]; simpl; [apply throwsOnly_ret|].
  apply throwsOnly_bind; [intros w e w' H; discriminate|]. intros total.
  apply throwsOnly_bind; [intros w e w' H; discriminate|]. intros size.
  destruct ((total + dataSize >? maxCacheSize) && (size >? 0));
    [|apply throwsOnly_ret].
  apply throwsOnly_bind; [intros w e w' H; discriminate|]. intros oldestKey.
  apply throwsOnly_bind.
  { destruct oldestKey; intros w e w' H; discriminate. }
  intros oldEntry. apply throwsOnly_bind; [|intros _; exact IH].
  destruct oldEntry, oldestKey; try apply throwsOnly_ret.
  apply throwsOnly_bind; [|intros _]; intros w e w' H; discriminate.
Qed.

(** Storing never throws. *)
Lemma cachePageData_returns (P : Platform) (pagePath : str) (data : PageData.t)
    (maxCacheSize : Z) :
  throwsOnly (cachePageData P pagePath data maxCacheSize) (fun _ => False).
Proof.
  unfold cachePageData.
  apply throwsOnly_bind; [intros w e w' H; discriminate|]. intros size.
  apply throwsOnly_bind; [apply evictLoop_returns|]. intros _.
  apply throwsOnly_bind; [intros w e w' H; discriminate|]. intros now.
  apply throwsOnly_bind; [|intros _]; intros w e w' H; discriminate.
Qed.

(** The lookup never throws. *)
Lemma getCachedData_returns (pagePath : str) (cacheDuration : Z) :
  throwsOnly (getCachedData pagePath cacheDuration) (fun _ => False).
Proof.
  intros w e w'. rewrite getCachedData_run.
  destruct (JsMap.get pagePath (cache w)) as [entry|]; [|discriminate].
  destruct (_ >? _); discriminate.
Qed.

Lemma constructPageUrl_throws (P : Platform) (request : Request.t) (pagePath : str) :
  throwsOnly (constructPageUrl P request pagePath) pipelineErrorOrPlain.
Proof.
  unfold constructPageUrl. destruct (Request.host request) as [[|c h]|].
  - apply throwsOnly_throw. simpl. now left.
  - unfold lift. destruct (newURL P _ _);
      [now apply throwsOnly_throw | apply throwsOnly_ret].
  - apply throwsOnly_throw. simpl. now left.
Qed.

Lemma fetchPageContent_throws (P : Platform) (url : str) (timeout : Z) :
  throwsOnly (fetchPageContent P url timeout) pipelineErrorOrPlain.
Proof.
  intros w e w'. rewrite fetchPageContent_cases. cbv zeta.
  destruct (network P url (clock w)) as [[|g|r] elapsed];
    repeat match goal with
           | |- context [if ?b then _ else _] => destruct b
           | |- context [match ?x with inl _ => _ | inr _ => _ end] => destruct x
           end;
    intros [= <- _]; cbn; auto.
Qed.

Lemma extractPageData_throws (P : Platform) (html pagePath : str)
    (receiverUsername : option str) :
  throwsOnly (extractPageData P html pagePath receiverUsername) pipelineErrorOrPlain.
Proof.
  unfold extractPageData. apply throwsOnly_try_catch with (Qc := fun _ => True).
  - intros w e w' _. exact I.
  - intros e _. apply throwsOnly_throw. simpl. right. now right.
Qed.

Lemma fetchPhase_throws (P : Platform) (request : Request.t) (pagePath : str)
    (options : Options.t) :
  throwsOnly (fetchPhase P request pagePath options) pipelineError.
Proof.
  unfold fetchPhase. apply throwsOnly_try_catch with (Qc := pipelineErrorOrPlain).
  - apply throwsOnly_bind; [apply constructPageUrl_throws|]. intros pageUrl.
    apply throwsOnly_bind; [apply fetchPageContent_throws|]. intros htmlContent.
    apply throwsOnly_bind; [apply extractPageData_throws|]. intros extractedData.
    apply throwsOnly_bind; [|intros _; apply throwsOnly_ret].
    destruct (_ && _); [|apply throwsOnly_ret].
    apply throwsOnly_never, cachePageData_returns.
  - intros [a|g] He; apply throwsOnly_throw; [exact He | simpl; now left].
Qed.

(** Whatever goes wrong in [getPageData] reaches the caller as an
    [AutoApiError] of kind [FETCH_ERROR], [TIMEOUT_ERROR] or
    [PARSE_ERROR]: never a plain error, never [INVALID_CONFIG] or
    [CACHE_ERROR]. *)
Theorem getPageData_throws_typed (P : Platform) (request : Request.t)
    (pagePath : str) (options : Options.t) (w w' : World) (error : thrown) :
  getPageData P request pagePath options w = (Throw error, w') ->
  exists a,
    error = AutoApi a
    /\ (AutoApiError.type a = FETCH_ERROR
        \/ AutoApiError.type a = TIMEOUT_ERROR
        \/ AutoApiError.type a = PARSE_ERROR).
Proof.
  intros Hthrow.
  assert (H : throwsOnly (getPageData P request pagePath options) pipelineError).
  { rewrite getPageData_phases. apply throwsOnly_bind.
    - unfold lookupPhase. destruct (Options.enableCache options);
        [|apply throwsOnly_ret].
      apply throwsOnly_never, getCachedData_returns.
    - intros [cachedData|]; [apply throwsOnly_ret | apply fetchPhase_throws]. }
  specialize (H _ _ _ Hthrow). destruct error as [a|g]; [|contradiction].
  now exists a.
Qed.

Lemma getPageData_throws_typed_witness :
  exists a,
    AutoApi {| AutoApiError.message := "Request timeout after 5000ms";
               AutoApiError.type := TIMEOUT_ERROR;
               AutoApiError.statusCode := Some 408;
               AutoApiError.originalError := None |} = AutoApi a
    /\ (AutoApiError.type a = FETCH_ERROR
        \/ AutoApiError.type a = TIMEOUT_ERROR
        \/ AutoApiError.type a = PARSE_ERROR).
Proof.
  exact (getPageData_throws_typed (examplePlatform [] NoAnswer)
           (exampleRequest "/api/about") "/about" (exampleOptions "A")
           (initial 0) _ _ eq_refl).
Defined.

(** ** The error responses of a handled request *)

Section ErrorResponses.

Variable P : Platform.
Variable validatedConfig : Config.t.
Variable request : Request.t.
Variable host pageUrl : str.
Variables w w1 : World.

Let pagePath : str :=
  extractPagePath (Request.pathname request) (Config.apiPrefix validatedConfig).

(** The request is one the middleware handles itself. *)
Hypothesis enabled : Config.enabled validatedConfig = true.
Hypothesis underPrefix :
  startsWith (Config.apiPrefix validatedConfig) (Request.pathname request) = true.
Hypothesis valid : isValidPath pagePath = true.
Hypothesis notExcluded :
  isPathExcluded pagePath (Config.excludePaths validatedConfig) = false.
(** The cache gives no hit, and the page has a URL. *)
Hypothesis miss : lookupPhase pagePath (optionsOf validatedConfig) w = (Return None, w1).
Hypothesis hasHost : Request.host request = Some host.
Hypothesis hostNotEmpty : host <> [].
Hypothesis hasUrl :
  newURL P pagePath (Request.protocol request +++ "//" +++ host) = inr pageUrl.


End ErrorResponses.


(** ** Storing and finding again *)

(** The eviction loop returns, and changes nothing but the cache and its
    running total. *)
Lemma evictLoop_frame (fuel : nat) (dataSize maxCacheSize : Z) :
  forall w, exists c total,
    evictLoop fuel dataSize maxCacheSize w = (Return tt, with_cache w c total).
Proof.
  induction fuel as [|fuel IH]; intros [c total clk rq].
  - exists c, total. reflexivity.
  - cbn [evictLoop]. unfold bind at 1. unfold read_totalCacheSize at 1.
    unfold bind at 1. unfold cache_size at 1. cbn [cache totalCacheSize].
    destruct ((total + dataSize >? maxCacheSize) && (JsMap.size c >? 0));
      [|exists c, total; reflexivity].
    unfold bind, cache_firstKey, cache_get, totalCacheSize_sub, cache_delete.
    cbn [cache totalCacheSize clock requests].
    destruct (JsMap.firstKey c) as [k|];
      unfold ret; cbn [cache totalCacheSize clock requests];
      [destruct (JsMap.get k c) as [e|]|];
      match goal with
      | |- context [evictLoop fuel dataSize maxCacheSize ?w1] =>
          destruct (IH w1) as [c1 [t1 H1]]; rewrite H1; exists c1, t1; reflexivity
      end.
Qed.

(** Whatever the cache holds, a put returns and leaves the entry stored
    under its path, stamped with the time of the put. *)
Lemma cachePageData_stores (P : Platform) (pagePath : str) (data : PageData.t)
    (maxCacheSize : Z) (w : World) :
  exists c total,
    cachePageData P pagePath data maxCacheSize w = (Return tt, with_cache w c total)
    /\ JsMap.get pagePath c
       = Some {| CachedPageData.data := data;
                 CachedPageData.timestamp := clock w;
                 CachedPageData.size := dataSizeOf P data |}.
Proof.
  unfold cachePageData. unfold bind at 1. unfold cache_size at 1.
  unfold bind at 1.
  destruct (evictLoop_frame (Z.to_nat (JsMap.size (cache w))) (dataSizeOf P data)
              maxCacheSize w) as [c [total Hloop]].
  rewrite Hloop. eexists. eexists. split; [reflexivity|]. apply get_set_same.
Qed.

(** A record that was put is found again, as it was put, for as long as
    the time since the put is at most the TTL of the lookup; after that
    the lookup misses and deletes it. *)
Theorem cachePageData_then_lookup (P : Platform) (pagePath : str)
    (data : PageData.t) (maxCacheSize milliseconds cacheDuration : Z) (w : World) :
  let w1 := later milliseconds (snd (cachePageData P pagePath data maxCacheSize w)) in
  (milliseconds <= cacheDuration * 1000 ->
   getCachedData pagePath cacheDuration w1 = (Return (Some data), w1))
  /\ (milliseconds > cacheDuration * 1000 ->
      fst (getCachedData pagePath cacheDuration w1) = Return None
      /\ JsMap.get pagePath (cache (snd (getCachedData pagePath cacheDuration w1)))
         = None).
Proof.
  destruct (cachePageData_stores P pagePath data maxCacheSize w)
    as [c [total [Hrun Hget]]].
  cbv zeta. rewrite Hrun. cbn [snd]. rewrite getCachedData_run.
  cbn [later with_cache cache clock totalCacheSize]. rewrite Hget.
  cbn [CachedPageData.timestamp CachedPageData.data CachedPageData.size].
  replace (clock w + milliseconds - clock w) with milliseconds by lia.
  split; intros H.
  - replace (milliseconds >? cacheDuration * 1000) with false; [reflexivity|].
    symmetry. rewrite Z.gtb_ltb. apply Z.ltb_ge. lia.
  - replace (milliseconds >? cacheDuration * 1000) with true
      by (symmetry; apply Z.gtb_lt; lia).
    split; [reflexivity|]. cbn. apply get_delete_same.
Qed.

Lemma cachePageData_then_lookup_witness :
  let P := examplePlatform [] NoAnswer in
  let w1 := later 60000 (snd (cachePageData P "/a" (examplePage "/a" None) 1000
                                (initial 0))) in
  getCachedData "/a" 60 w1 = (Return (Some (examplePage "/a" None)), w1).
Proof.
  intros P.
  apply (proj1 (cachePageData_then_lookup P "/a" (examplePage "/a" None) 1000 60000 60
                  (initial 0))).
  lia.
Defined.

(** ** Capacity *)

Lemma sumSizes_nonneg (c : JsMap.t CachedPageData.t) :
  sizesNonNegative c -> 0 <= sumSizes c.
Proof.
  intros H. induction H as [|kv c Hkv _ IH]; simpl; lia.
Qed.

Lemma sizesNonNegative_app_r (a b : JsMap.t CachedPageData.t) :
  sizesNonNegative (a ++ b) -> sizesNonNegative b.
Proof. unfold sizesNonNegative. intros H. now apply Forall_app in H as [_ H]. Qed.

Lemma sizesNonNegative_set (k : str) (e : CachedPageData.t)
    (c : JsMap.t CachedPageData.t) :
  0 <= CachedPageData.size e -> sizesNonNegative c ->
  sizesNonNegative (JsMap.set k e c).
Proof.
  unfold sizesNonNegative. intros He H.
  induction H as [|[k' e'] c Hkv Hc IH]; simpl.
  - repeat constructor. exact He.
  - destruct (eqb k k'); constructor; assumption.
Qed.

(** A put of a record that fits leaves the running total within the
    limit; a put of a record that is larger than the limit evicts every
    entry and stores the record alone, the total being its size. *)
Theorem cachePageData_capacity (P : Platform) (pagePath : str) (data : PageData.t)
    (maxCacheSize : Z) (w : World) :
  consistent w ->
  sizesNonNegative (cache w) ->
  let w' := snd (cachePageData P pagePath data maxCacheSize w) in
  (dataSizeOf P data <= maxCacheSize -> totalCacheSize w' <= maxCacheSize)
  /\ (dataSizeOf P data > maxCacheSize ->
      cache w' = [(pagePath,
                   {| CachedPageData.data := data;
                      CachedPageData.timestamp := clock w;
                      CachedPageData.size := dataSizeOf P data |})]
      /\ totalCacheSize w' = dataSizeOf P data).
Proof.
  intros [Hwf Hacc] Hnonneg.
  destruct (cachePageData_run P w pagePath data maxCacheSize Hwf)
    as [evicted [kept [Hsplit [Hexit [_ Hrun]]]]].
  rewrite Hrun. cbn [snd with_cache cache totalCacheSize].
  unfold accounted in Hacc. rewrite Hsplit, sumSizes_app in Hacc.
  rewrite Hsplit in Hnonneg. apply sizesNonNegative_app_r in Hnonneg.
  pose proof (sumSizes_nonneg kept Hnonneg) as Hkept.
  split; intros Hsize.
  - destruct Hexit as [Hfit | ->]; [lia|]. simpl in Hacc. lia.
  - destruct Hexit as [Hfit | ->]; [lia|]. simpl in Hacc. split; [reflexivity | lia].
Qed.

Lemma cachePageData_capacity_witness :
  let P := examplePlatform [] NoAnswer in
  totalCacheSize (snd (cachePageData P "/b" (examplePage "/b" None) 150 (cachedAt0 5)))
  <= 150
  /\ JsMap.keys
       (cache (snd (cachePageData P "/b" (examplePage "/b" None) 50 (cachedAt0 5))))
     = ["/b" : str].
Proof.
  intros P.
  assert (Hc : consistent (cachedAt0 5)).
  { split; [|reflexivity]. unfold JsMap.wf. simpl. repeat constructor. intros []. }
  assert (Hn : sizesNonNegative (cache (cachedAt0 5))).
  { repeat constructor. simpl. lia. }
  split.
  - apply (proj1 (cachePageData_capacity P "/b" (examplePage "/b" None) 150
                    (cachedAt0 5) Hc Hn)). vm_compute. discriminate.
  - destruct (proj2 (cachePageData_capacity P "/b" (examplePage "/b" None) 50
                       (cachedAt0 5) Hc Hn)) as [Hcache _]; [reflexivity|].
    rewrite Hcache. reflexivity.
Defined.

(** ** Rules for the pipeline *)

(** What holds of the cache across the fetch phase, given what the
    conditional put does. *)
Lemma fetchPhase_rule (P : Platform) (request : Request.t) (pagePath : str)
    (options : Options.t) (I J : World -> Prop) :
  cacheOnly I ->
  (forall w, I w -> J w) ->
  (forall extractedData,
      hoare I
        (if Options.enableCache options
            && shouldCacheData P extractedData (Options.maxCacheSize options)
         then cachePageData P pagePath extractedData (Options.maxCacheSize options)
         else ret tt) J) ->
  hoare I (fetchPhase P request pagePath options) J.
Proof.
  intros Hco Hweak Hput. unfold fetchPhase.
  apply hoare_try_catch with (mid := J); [| |auto].
  - apply hoare_bind with (mid := I);
      [now apply hoare_constructPageUrl| |exact Hweak].
    intros pageUrl. apply hoare_bind with (mid := I);
      [now apply hoare_fetchPageContent| |exact Hweak].
    intros htmlContent. apply hoare_bind with (mid := I);
      [now apply hoare_extractPageData| |exact Hweak].
    intros extractedData. apply hoare_bind with (mid := J);
      [apply Hput | intros; apply hoare_ret | auto].
  - intros [e|e]; apply hoare_throw.
Qed.

Lemma getPageData_rule (P : Platform) (request : Request.t) (pagePath : str)
    (options : Options.t) (I0 I J : World -> Prop) :
  (forall w, I0 w ->
     J (snd (lookupPhase pagePath options w))
     /\ (fst (lookupPhase pagePath options w) = Return None ->
         I (snd (lookupPhase pagePath options w)))) ->
  hoare I (fetchPhase P request pagePath options) J ->
  hoare I0 (getPageData P request pagePath options) J.
Proof.
  intros Hlookup Hfetch w H0. rewrite getPageData_phases. unfold bind.
  destruct (Hlookup w H0) as [HJ HI].
  destruct (lookupPhase pagePath options w) as [[[cachedData|]|e] w1];
    simpl in HJ, HI; [exact HJ | apply Hfetch; auto | exact HJ].
Qed.

Lemma middleware_rule (P : Platform) (validatedConfig : Config.t)
    (request : Request.t) (J : World -> Prop) :
  (forall pagePath,
      hoare J (getPageData P request pagePath (optionsOf validatedConfig)) J) ->
  hoare J (middleware P validatedConfig request) J.
Proof.
  intros Hget. unfold middleware. cbv zeta.
  destruct (negb (Config.enabled validatedConfig)); [apply hoare_ret|].
  destruct (negb (startsWith _ _)); [apply hoare_ret|].
  apply hoare_try_catch with (mid := J); [| |auto].
  - destruct (negb (isValidPath _)); [apply hoare_createErrorResponse|].
    match goal with |- context [if ?b then _ else _] => destruct b end;
      [apply hoare_ret|].
    apply hoare_bind with (mid := J); [apply Hget| |auto].
    intros pageData. apply hoare_applyAdditionalHeaders.
  - intros e. apply hoare_handleMiddlewareError.
Qed.

(** ** A middleware without cache *)

(** With [enableCache] off, a request leaves the cache and its running
    total as they were, whatever it is answered with: nothing is stored,
    and nothing expires on the way. *)
Theorem middleware_without_cache (P : Platform) (validatedConfig : Config.t)
    (request : Request.t) (w : World) :
  Config.enableCache validatedConfig = false ->
  cache (snd (middleware P validatedConfig request w)) = cache w
  /\ totalCacheSize (snd (middleware P validatedConfig request w))
     = totalCacheSize w.
Proof.
  intros Hoff.
  set (J := fun w' => cache w' = cache w /\ totalCacheSize w' = totalCacheSize w).
  assert (Hco : cacheOnly J).
  { intros w1 w2 Hc Ht [H1 H2]. split; congruence. }
  apply (middleware_rule P validatedConfig request J); [|now split].
  intros pagePath.
  apply getPageData_rule with (I := J).
  - intros w1 H1. unfold lookupPhase. cbn [optionsOf Options.enableCache].
    rewrite Hoff. now split.
  - apply fetchPhase_rule; [exact Hco | auto |].
    intros extractedData. cbn [optionsOf Options.enableCache]. rewrite Hoff.
    apply hoare_ret.
Qed.

Lemma middleware_without_cache_witness :
  let P := examplePlatform [] (exampleResponse 200 "OK" "<html></html>") in
  let config :=
    {| Config.enabled := true; Config.apiPrefix := "/api";
       Config.excludePaths := []; Config.additionalHeaders := VObject [];
       Config.enableCache := false; Config.cacheDuration := 3600;
       Config.receiverUsername := None;
       Config.maxCacheSize := 1000; Config.requestTimeout := 5000 |} in
  cache (snd (middleware P config (exampleRequest "/api/a") (cachedAt0 99999999)))
  = cache (cachedAt0 99999999).
Proof.
  intros P config.
  exact (proj1 (middleware_without_cache P config (exampleRequest "/api/a")
                  (cachedAt0 99999999) eq_refl)).
Defined.

(** ** The limit, over time *)

Lemma getCachedData_withinLimit (maxCacheSize : Z) (pagePath : str)
    (cacheDuration : Z) (w : World) :
  withinLimit maxCacheSize w ->
  withinLimit maxCacheSize (snd (getCachedData pagePath cacheDuration w)).
Proof.
  intros [Hcons [Hnonneg Hlimit]].
  split; [exact (proj1 (getCachedData_consistent pagePath cacheDuration w Hcons))|].
  rewrite getCachedData_run.
  destruct (JsMap.get pagePath (cache w)) as [e|] eqn:Hget; [|now split].
  destruct (_ >? _); [|now split]. cbn. split.
  - unfold sizesNonNegative, JsMap.delete. apply Forall_forall.
    intros kv Hin. apply filter_In in Hin as [Hin _].
    unfold sizesNonNegative in Hnonneg. rewrite Forall_forall in Hnonneg. auto.
  - apply get_In in Hget. unfold sizesNonNegative in Hnonneg.
    rewrite Forall_forall in Hnonneg. specialize (Hnonneg _ Hget). simpl in Hnonneg.
    lia.
Qed.

Lemma clearExpiredCache_withinLimit (maxCacheSize cacheDuration : Z) :
  hoare (withinLimit maxCacheSize) (clearExpiredCache cacheDuration)
        (withinLimit maxCacheSize).
Proof.
  intros w [Hcons [Hnonneg Hlimit]].
  split; [now apply clearExpiredCache_consistent|].
  rewrite clearExpiredCache_run by apply Hcons. cbn. split.
  - unfold sizesNonNegative in *. rewrite Forall_forall in *.
    intros kv Hin. apply filter_In in Hin as [Hin _]. auto.
  - assert (H : 0 <= sumSizes (filter (expired (clock w) cacheDuration) (cache w))).
    { apply sumSizes_nonneg. unfold sizesNonNegative in *. rewrite Forall_forall in *.
      intros kv Hin. apply filter_In in Hin as [Hin _]. auto. }
    lia.
Qed.

Lemma cachePageData_withinLimit (P : Platform) (pagePath : str) (data : PageData.t)
    (maxCacheSize : Z) (w : World) :
  (forall d, 0 <= stringifyLength P d) ->
  withinLimit maxCacheSize w ->
  JsMap.get pagePath (cache w) = None ->
  dataSizeOf P data <= maxCacheSize ->
  withinLimit maxCacheSize (snd (cachePageData P pagePath data maxCacheSize w)).
Proof.
  intros HP [Hcons [Hnonneg Hlimit]] Habsent Hfits.
  split; [now apply cachePageData_absent_consistent|].
  assert (Hsize : 0 <= dataSizeOf P data).
  { unfold dataSizeOf. specialize (HP data).
    destruct (PageData.html data); unfold length; lia. }
  destruct Hcons as [Hwf Hacc].
  destruct (cachePageData_run P w pagePath data maxCacheSize Hwf)
    as [evicted [kept [Hsplit [Hexit [_ Hrun]]]]].
  rewrite Hrun. cbn [snd with_cache cache totalCacheSize].
  rewrite Hsplit in Hnonneg. apply sizesNonNegative_app_r in Hnonneg.
  split; [now apply sizesNonNegative_set|].
  unfold accounted in Hacc. rewrite Hsplit, sumSizes_app in Hacc.
  destruct Hexit as [Hfit | ->]; [lia|]. simpl in Hacc. lia.
Qed.

Lemma middleware_withinLimit (P : Platform) (validatedConfig : Config.t)
    (request : Request.t) :
  (forall d, 0 <= stringifyLength P d) ->
  hoare (withinLimit (Config.maxCacheSize validatedConfig))
        (middleware P validatedConfig request)
        (withinLimit (Config.maxCacheSize validatedConfig)).
Proof.
  intros HP. set (M := Config.maxCacheSize validatedConfig).
  apply middleware_rule. intros pagePath.
  set (absent := fun w => withinLimit M w
                 /\ (Config.enableCache validatedConfig = true ->
                     JsMap.get pagePath (cache w) = None)).
  apply getPageData_rule with (I := absent).
  - intros w Hw. unfold lookupPhase. cbn [optionsOf Options.enableCache
                                          Options.cacheDuration].
    destruct (Config.enableCache validatedConfig) eqn:Hon.
    + split; [now apply getCachedData_withinLimit|]. intros Hmiss.
      split; [now apply getCachedData_withinLimit|]. intros _.
      destruct Hw as [Hcons _].
      exact (proj2 (getCachedData_consistent pagePath _ w Hcons) Hmiss).
    + split; [exact Hw|]. intros _. split; [exact Hw | discriminate].
  - apply fetchPhase_rule.
    + intros w w' Hc Ht [[Hcons [Hnonneg Hlimit]] Habs].
      split; [split; [|split]|].
      * exact (consistent_cacheOnly w w' Hc Ht Hcons).
      * now rewrite Hc.
      * now rewrite Ht.
      * now rewrite Hc.
    + now intros w [Hw _].
    + intros extractedData w [Hw Habs].
      cbn [optionsOf Options.enableCache Options.maxCacheSize].
      destruct (Config.enableCache validatedConfig); [|exact Hw].
      destruct (shouldCacheData P extractedData (Config.maxCacheSize validatedConfig))
        eqn:Hfits; [|exact Hw].
      apply cachePageData_withinLimit; auto.
      unfold shouldCacheData in Hfits. now apply Z.leb_le in Hfits.
Qed.

(** With every middleware configured with the same [maxCacheSize], and
    requests served one at a time, the running total never exceeds that
    limit: not after a request, not after a sweep. *)
Theorem sequential_history_within_limit (P : Platform) (maxCacheSize : Z)
    (events : list event) (now : Z) :
  (forall d, 0 <= stringifyLength P d) ->
  0 <= maxCacheSize ->
  Forall (servedWithLimit maxCacheSize) events ->
  totalCacheSize (history P events (initial now)) <= maxCacheSize
  /\ sumSizes (cache (history P events (initial now))) <= maxCacheSize.
Proof.
  intros HP HM Hevents.
  assert (H : withinLimit maxCacheSize (history P events (initial now))).
  { unfold history.
    assert (H0 : withinLimit maxCacheSize (initial now)).
    { split; [split; [constructor | reflexivity]|]. split; [constructor | exact HM]. }
    revert H0. generalize (initial now).
    induction Hevents as [|e events He _ IH]; intros w Hw; simpl; [exact Hw|].
    apply IH. destruct e as [cfg request|cacheDuration|ms]; simpl in *.
    - subst maxCacheSize. now apply middleware_withinLimit.
    - now apply clearExpiredCache_withinLimit.
    - destruct Hw as [Hcons Hrest]. split; [|exact Hrest].
      now apply (consistent_cacheOnly w). }
  destruct H as [[_ Hacc] [_ Hlimit]]. unfold accounted in Hacc.
  split; [exact Hlimit | now rewrite <- Hacc].
Qed.

Lemma sequential_history_within_limit_witness :
  let P := examplePlatform [] (exampleResponse 200 "OK" "<html></html>") in
  totalCacheSize
    (history P [Serve (exampleConfig "A") (exampleRequest "/api/a");
                Wait 10;
                Serve (exampleConfig "B") (exampleRequest "/api/b");
                Sweep 60] (initial 0))
  <= 1000.
Proof.
  intros P.
  apply (sequential_history_within_limit P 1000
           [Serve (exampleConfig "A") (exampleRequest "/api/a");
            Wait 10;
            Serve (exampleConfig "B") (exampleRequest "/api/b");
            Sweep 60] 0).
  - intros d. simpl. lia.
  - lia.
  - repeat constructor.
Defined.

(** ** Served once, served again *)

(** When the fetch phase returns a record that is to be cached, the
    record is in the cache afterwards, stamped with the time of the put. *)
Lemma fetchPhase_stores (P : Platform) (request : Request.t) (pagePath : str)
    (options : Options.t) (data : PageData.t) (w w' : World) :
  fetchPhase P request pagePath options w = (Return data, w') ->
  Options.enableCache options = true ->
  shouldCacheData P data (Options.maxCacheSize options) = true ->
  JsMap.get pagePath (cache w') = Some (entryOf P data (clock w')).
Proof.
  intros Hrun Hon Hfits. unfold fetchPhase, try_catch in Hrun.
  unfold bind at 1 in Hrun.
  destruct (constructPageUrl P request pagePath w) as [[pageUrl|e] w1];
    [|destruct e; discriminate].
  unfold bind at 1 in Hrun.
  destruct (fetchPageContent P pageUrl (Options.requestTimeout options) w1)
    as [[htmlContent|e] w2]; [|destruct e; discriminate].
  unfold bind at 1 in Hrun.
  destruct (extractPageData P htmlContent pagePath (Options.receiverUsername options) w2)
    as [[extractedData|e] w3]; [|destruct e; discriminate].
  unfold bind at 1 in Hrun. rewrite Hon in Hrun. cbn [andb] in Hrun.
  destruct (shouldCacheData P extractedData (Options.maxCacheSize options)) eqn:Hput.
  - destruct (cachePageData_stores P pagePath extractedData
                (Options.maxCacheSize options) w3) as [c [total [Hstore Hget]]].
    rewrite Hstore in Hrun. injection Hrun as <- <-. exact Hget.
  - unfold ret in Hrun. injection Hrun as <- <-. congruence.
Qed.

(** A page that was fetched, returned and small enough to be cached is
    answered from the cache by the next call for the same path, for as long
    as the TTL of that call allows: the same record with the receiver of the
    second caller, and nothing else happens, in particular no fetch. *)
Theorem getPageData_served_again (P : Platform) (request request' : Request.t)
    (pagePath : str) (options options' : Options.t) (data : PageData.t)
    (milliseconds : Z) (w w1 : World) :
  Options.enableCache options = true ->
  Options.enableCache options' = true ->
  getPageData P request pagePath options w = (Return data, w1) ->
  requests w1 <> requests w ->
  shouldCacheData P data (Options.maxCacheSize options) = true ->
  0 <= milliseconds <= Options.cacheDuration options' * 1000 ->
  getPageData P request' pagePath options' (later milliseconds w1)
  = (Return (PageData.with_receiverUsername data (Options.receiverUsername options')),
     later milliseconds w1).
Proof.
  intros Hon Hon' Hrun Hfetched Hfits Hms.
  assert (Hstored : JsMap.get pagePath (cache w1) = Some (entryOf P data (clock w1))).
  { rewrite getPageData_phases in Hrun. unfold bind, lookupPhase in Hrun.
    rewrite Hon, getCachedData_run in Hrun.
    destruct (JsMap.get pagePath (cache w)) as [e|].
    - destruct (_ >? _).
      + now apply fetchPhase_stores in Hrun.
      + unfold ret in Hrun. injection Hrun as _ <-. contradiction.
    - now apply fetchPhase_stores in Hrun. }
  rewrite getPageData_phases. unfold bind, lookupPhase.
  rewrite Hon', getCachedData_run. cbn [later cache clock]. rewrite Hstored.
  cbn [entryOf CachedPageData.timestamp CachedPageData.data].
  replace (clock w1 + milliseconds - clock w1) with milliseconds by lia.
  replace (milliseconds >? Options.cacheDuration options' * 1000) with false;
    [reflexivity|].
  symmetry. rewrite Z.gtb_ltb. apply Z.ltb_ge. lia.
Qed.

Lemma getPageData_served_again_witness :
  let P := examplePlatform aboutDocument (exampleResponse 200 "OK" aboutMarkup) in
  let first := getPageData P (exampleRequest "/api/about") "/about"
                 (exampleOptions "A") (initial 0) in
  let data := match fst first with
              | Return data => data
              | Throw _ => examplePage "/about" None
              end in
  getPageData P (exampleRequest "/api/about") "/about" (exampleOptions "B")
    (later 1000 (snd first))
  = (Return (PageData.with_receiverUsername data (Some (of_string "B"))),
     later 1000 (snd first)).
Proof.
  intros P first data.
  apply (getPageData_served_again P (exampleRequest "/api/about")
           (exampleRequest "/api/about") "/about" (exampleOptions "A")
           (exampleOptions "B") data 1000 (initial 0) (snd first)).
  - reflexivity.
  - reflexivity.
  - vm_compute. reflexivity.
  - vm_compute. discriminate.
  - vm_compute. reflexivity.
  - simpl. lia.
Defined.

(** ** A sweep, seen from the lookups *)

Lemma get_filter {V} (p : str * V -> bool) (k : str) (m : JsMap.t V) :
  JsMap.wf m ->
  JsMap.get k (filter p m)
  = match JsMap.get k m with
    | Some v => if p (k, v) then Some v else None
    | None => None
    end.
Proof.
  induction m as [|[k' v'] m IH]; intros Hwf; simpl; [reflexivity|].
  pose proof (wf_tail _ _ Hwf) as Hm.
  destruct (eqb k k') eqn:E.
  - apply eqb_eq in E. subst k'.
    destruct (p (k, v')); simpl; [now rewrite eqb_refl|].
    apply get_None. intros Hin. inversion Hwf as [|? ? Hnotin _]; subst.
    apply Hnotin. unfold JsMap.keys in *. apply in_map_iff in Hin as [kv [Hk Hin]].
    apply filter_In in Hin as [Hin _]. apply in_map_iff. now exists kv.
  - destruct (p (k', v')); simpl; [rewrite E|]; now apply IH.
Qed.

Lemma filter_none {A} (p : A -> bool) (l : list A) :
  filter p (filter (fun x => negb (p x)) l) = [].
Proof.
  induction l as [|x l IH]; simpl; [reflexivity|].
  destruct (p x) eqn:E; simpl; [exact IH|]. now rewrite E.
Qed.

Lemma filter_same {A} (p : A -> bool) (l : list A) :
  filter p (filter p l) = filter p l.
Proof.
  induction l as [|x l IH]; simpl; [reflexivity|].
  destruct (p x) eqn:E; simpl; [rewrite E; f_equal|]; exact IH.
Qed.

(** A sweep changes nothing that a lookup with the same TTL could tell:
    every path is answered after the sweep as it would have been without
    it.  After the sweep no lookup with that TTL deletes anything, and a
    second sweep finds nothing to remove. *)
Theorem clearExpiredCache_transparent (cacheDuration : Z) (w : World) :
  JsMap.wf (cache w) ->
  let w1 := snd (clearExpiredCache cacheDuration w) in
  (forall pagePath,
      fst (getCachedData pagePath cacheDuration w1)
      = fst (getCachedData pagePath cacheDuration w))
  /\ (forall pagePath, snd (getCachedData pagePath cacheDuration w1) = w1)
  /\ clearExpiredCache cacheDuration w1 = (Return 0, w1).
Proof.
  intros Hwf. cbv zeta. rewrite clearExpiredCache_run by exact Hwf. cbn [snd].
  set (fresh := fun kv => negb (expired (clock w) cacheDuration kv)).
  assert (Hlookup : forall pagePath,
             JsMap.get pagePath (filter fresh (cache w))
             = match JsMap.get pagePath (cache w) with
               | Some e => if clock w - CachedPageData.timestamp e
                              >? cacheDuration * 1000
                           then None else Some e
               | None => None
               end).
  { intros pagePath. rewrite get_filter by exact Hwf.
    destruct (JsMap.get pagePath (cache w)) as [e|]; [|reflexivity].
    unfold fresh, expired. cbn [snd]. now destruct (_ >? _). }
  split; [|split].
  - intros pagePath. rewrite !getCachedData_run.
    cbn [with_cache cache clock]. rewrite Hlookup.
    destruct (JsMap.get pagePath (cache w)) as [e|]; [|reflexivity].
    destruct (_ >? _) eqn:E; [reflexivity|]. now rewrite E.
  - intros pagePath. rewrite getCachedData_run.
    cbn [with_cache cache clock]. rewrite Hlookup.
    destruct (JsMap.get pagePath (cache w)) as [e|]; [|reflexivity].
    destruct (_ >? _) eqn:E; [reflexivity|]. now rewrite E.
  - rewrite clearExpiredCache_run by (cbn [with_cache cache]; now apply wf_filter).
    cbn [with_cache cache clock totalCacheSize requests].
    unfold fresh. rewrite filter_none, filter_same. cbn [List.length sumSizes].
    now rewrite Z.sub_0_r.
Qed.

Lemma clearExpiredCache_transparent_witness :
  let w1 := snd (clearExpiredCache 60 twoEntries) in
  clearExpiredCache 60 w1 = (Return 0, w1).
Proof.
  intros w1.
  assert (Hwf : JsMap.wf (cache twoEntries)).
  { unfold JsMap.wf. simpl. repeat constructor; simpl; [|tauto].
    intros [H|[]]. discriminate. }
  exact (proj2 (proj2 (clearExpiredCache_transparent 60 twoEntries Hwf))).
Defined.

(** ** Statistics *)

(** [getCacheStatistics] reads the cache and changes nothing.  It reports
    the number of entries and the running total; the average is 0 for an
    empty cache, and otherwise the integer nearest to total / entries (a
    half rounding up), the division being by a positive number. *)
Theorem getCacheStatistics_spec (w : World) :
  exists stats,
    getCacheStatistics w = (Return stats, w)
    /\ entries stats = JsMap.size (cache w)
    /\ totalSize stats = totalCacheSize w
    /\ (cache w = [] -> averageSize stats = 0)
    /\ (cache w <> [] ->
        2 * totalCacheSize w - entries stats
        < 2 * entries stats * averageSize stats
        <= 2 * totalCacheSize w + entries stats).
Proof.
  unfold getCacheStatistics, getCacheStats, bind, cache_size, read_totalCacheSize, ret.
  eexists. split; [reflexivity|]. cbn [entries totalSize averageSize].
  split; [reflexivity|]. split; [reflexivity|]. split.
  - intros ->. reflexivity.
  - intros Hne.
    assert (Hpos : 0 < JsMap.size (cache w)).
    { unfold JsMap.size. destruct (cache w); [contradiction | simpl; lia]. }
    replace (JsMap.size (cache w) >? 0) with true
      by (symmetry; apply Z.gtb_lt; exact Hpos).
    unfold round_div.
    set (n := JsMap.size (cache w)) in *. set (t := totalCacheSize w).
    pose proof (Z.div_mod (2 * t + n) (2 * n) ltac:(lia)) as Hdiv.
    pose proof (Z.mod_pos_bound (2 * t + n) (2 * n) ltac:(lia)) as Hmod.
    nia.
Qed.

(** ** Validation, once more *)

Lemma as_strings_strings (l : list str) :
  forallb is_string (map VString l) = true
  /\ as_strings (VArray (map VString l)) = Some l.
Proof.
  unfold as_strings. induction l as [|s l [IH1 IH2]]; simpl; [now split|].
  split; [exact IH1|]. injection IH2 as IH2. now rewrite IH2.
Qed.

Lemma violations_none (config : AutoApiConfig.t) :
  violations config = [] <->
  apiPrefix_ok (AutoApiConfig.apiPrefix config) = true
  /\ cacheDuration_ok (AutoApiConfig.cacheDuration config) = true
  /\ excludePaths_ok (AutoApiConfig.excludePaths config) = true
  /\ additionalHeaders_ok (AutoApiConfig.additionalHeaders config) = true.
Proof.
  unfold violations.
  destruct (apiPrefix_ok _), (cacheDuration_ok _), (excludePaths_ok _),
    (additionalHeaders_ok _); simpl; split; intros H;
    try discriminate; try tauto; destruct H as [? [? [? ?]]]; discriminate.
Qed.

(** What validation returns passes validation, and comes back as it is:
    the defaults it fills in are themselves valid, and nothing is
    normalised twice. *)
Theorem validateAndNormalizeConfig_idempotent (config : AutoApiConfig.t)
    (validated : Config.t) :
  validateAndNormalizeConfig config = Return validated ->
  validateAndNormalizeConfig (asRawConfig validated) = Return validated.
Proof.
  intros H. rewrite validateAndNormalizeConfig_errors in H.
  destruct (violations config) as [|m ms] eqn:Hv; [|simpl in H; destruct ms; discriminate].
  apply violations_none in Hv as [Hprefix [Hduration [Hpaths Hheaders]]].
  cbn [List.length Z.of_nat Z.gtb Z.compare] in H. injection H as Hc.
  assert (Hv' : violations (asRawConfig validated) = []).
  { apply violations_none. rewrite <- Hc.
    cbn [asRawConfig AutoApiConfig.apiPrefix AutoApiConfig.cacheDuration
         AutoApiConfig.excludePaths AutoApiConfig.additionalHeaders
         Config.apiPrefix Config.cacheDuration Config.excludePaths
         Config.additionalHeaders].
    split; [|split; [|split]].
    - destruct (AutoApiConfig.apiPrefix config); try discriminate;
        [reflexivity | exact Hprefix].
    - destruct (AutoApiConfig.cacheDuration config); try discriminate;
        [reflexivity | exact Hduration].
    - unfold excludePaths_ok. apply as_strings_strings.
    - destruct (AutoApiConfig.additionalHeaders config); try discriminate;
        reflexivity. }
  rewrite validateAndNormalizeConfig_errors, Hv'.
  cbn [List.length Z.of_nat Z.gtb Z.compare].
  cbn [asRawConfig AutoApiConfig.enabled AutoApiConfig.apiPrefix
       AutoApiConfig.cacheDuration AutoApiConfig.excludePaths
       AutoApiConfig.additionalHeaders AutoApiConfig.enableCache
       AutoApiConfig.receiverUsername AutoApiConfig.maxCacheSize
       AutoApiConfig.requestTimeout nullish as_string as_integer].
  rewrite (proj2 (as_strings_strings _)). cbn [nullish].
  replace (is_undefined (Config.additionalHeaders validated)) with false.
  - now destruct validated.
  - rewrite <- Hc. cbn [Config.additionalHeaders].
    destruct (AutoApiConfig.additionalHeaders config); try discriminate; reflexivity.
Qed.

Lemma validateAndNormalizeConfig_idempotent_witness :
  validateAndNormalizeConfig
    (asRawConfig
       {| Config.enabled := true; Config.apiPrefix := "/content";
          Config.excludePaths := ["/admin/*" : str];
          Config.additionalHeaders := VObject [];
          Config.enableCache := false; Config.cacheDuration := 1800;
          Config.receiverUsername := None;
          Config.maxCacheSize := 1048576; Config.requestTimeout := 5000 |})
  = Return
      {| Config.enabled := true; Config.apiPrefix := "/content";
         Config.excludePaths := ["/admin/*" : str];
         Config.additionalHeaders := VObject [];
         Config.enableCache := false; Config.cacheDuration := 1800;
         Config.receiverUsername := None;
         Config.maxCacheSize := 1048576; Config.requestTimeout := 5000 |}.
Proof.
  apply (validateAndNormalizeConfig_idempotent
           {| AutoApiConfig.enabled := None;
              AutoApiConfig.apiPrefix := VString "/content";
              AutoApiConfig.excludePaths := VArray [VString "/admin/*"];
              AutoApiConfig.additionalHeaders := VUndefined;
              AutoApiConfig.enableCache := None;
              AutoApiConfig.cacheDuration := VInteger 1800;
              AutoApiConfig.receiverUsername := None;
              AutoApiConfig.maxCacheSize := None;
              AutoApiConfig.requestTimeout := None |}).
  reflexivity.
Defined.

(** The exported [defaultConfig] is what a middleware created without
    options runs with. *)
Theorem defaultConfig_is_the_default (P : Platform) :
  validateAndNormalizeConfig AutoApiConfig.empty = Return defaultConfig
  /\ createAutoApiMiddleware P AutoApiConfig.empty = Return (middleware P defaultConfig).
Proof. split; reflexivity. Qed.

(** ** The rewrite rule *)

(** [withAutoApi] puts its rule in front of the rules that are consulted
    first, whichever of the two shapes the original rewrites have, keeps
    those rules, the later phases and every other setting as they were, and
    uses [/api] for a prefix that is absent or empty. *)
Theorem withAutoApi_rewrites (nextConfig : NextConfig.t) (apiPrefix : option str) :
  firstRules (withAutoApi nextConfig apiPrefix)
  = apiRule (prefixOrDefault apiPrefix) :: firstRules nextConfig
  /\ afterFilesOf (withAutoApi nextConfig apiPrefix) = afterFilesOf nextConfig
  /\ fallbackOf (withAutoApi nextConfig apiPrefix) = fallbackOf nextConfig
  /\ NextConfig.others (withAutoApi nextConfig apiPrefix)
     = NextConfig.others nextConfig.
Proof.
  assert (Hsource : or_else (nullish apiPrefix []) "/api" = prefixOrDefault apiPrefix).
  { destruct apiPrefix as [[|x prefix]|]; reflexivity. }
  unfold firstRules, afterFilesOf, fallbackOf, withAutoApi, apiRule.
  cbn [NextConfig.rewrites NextConfig.others]. rewrite Hsource.
  destruct (NextConfig.rewrites nextConfig) as [[rules|beforeFiles afterFiles fallback]|];
    cbn [nullish]; repeat split.
Qed.

(** For a configuration that passes validation, the rule [withAutoApi]
    adds is for the very prefix the middleware answers to. *)
Theorem withAutoApi_agrees_with_middleware (nextConfig : NextConfig.t)
    (config : AutoApiConfig.t) (validated : Config.t) :
  validateAndNormalizeConfig config = Return validated ->
  firstRules (withAutoApi nextConfig (as_string (AutoApiConfig.apiPrefix config)))
  = apiRule (Config.apiPrefix validated) :: firstRules nextConfig.
Proof.
  intros H. rewrite validateAndNormalizeConfig_errors in H.
  destruct (violations config) as [|m ms] eqn:Hv; [|simpl in H; destruct ms; discriminate].
  apply violations_none in Hv as [Hprefix _].
  cbn [List.length Z.of_nat Z.gtb Z.compare] in H. injection H as <-.
  cbn [Config.apiPrefix].
  assert (Hsource : or_else (nullish (as_string (AutoApiConfig.apiPrefix config)) [])
                      "/api"
                    = nullish (as_string (AutoApiConfig.apiPrefix config)) "/api").
  { destruct (AutoApiConfig.apiPrefix config) as [| | | | |s| |]; try reflexivity.
    destruct s; [discriminate | reflexivity]. }
  unfold firstRules, withAutoApi, apiRule. cbn [NextConfig.rewrites].
  rewrite Hsource.
  now destruct (NextConfig.rewrites nextConfig)
    as [[rules|beforeFiles afterFiles fallback]|].
Qed.

Lemma withAutoApi_agrees_with_middleware_witness :
  firstRules
    (withAutoApi {| NextConfig.rewrites := None; NextConfig.others := [] |}
       (as_string (AutoApiConfig.apiPrefix (rawConfig (VString "/content") VUndefined))))
  = [apiRule "/content"].
Proof.
  exact (withAutoApi_agrees_with_middleware
           {| NextConfig.rewrites := None; NextConfig.others := [] |}
           (rawConfig (VString "/content") VUndefined) _ eq_refl).
Defined.

(** ** The page response *)

Lemma applyAdditionalHeaders_run (P : Platform) (headers : value) (body : Body)
    (status : Z) :
  forall (hs : Headers) (w : World),
    applyAdditionalHeaders P (Json body status hs) headers w
    = match setHeaders P (stringEntries headers) hs with
      | inr hs' => (Return (Json body status hs'), w)
      | inl e => (Throw (Generic e), w)
      end.
Proof.
  unfold applyAdditionalHeaders, stringEntries.
  induction (Object_entries headers) as [|[key v] entries IH]; intros hs w;
    [reflexivity|].
  cbn [for_of flat_map snd fst]. unfold bind at 1.
  destruct v; cbn [app]; try (unfold ret at 1; apply IH).
  cbn [setHeaders]. unfold bind at 1, lift.
  destruct (headersSet P key s hs) as [e|hs1]; [reflexivity|].
  unfold ret at 1. apply IH.
Qed.

(** When the page data is there, the middleware answers 200 with the
    record as body and with the configured headers that have a string
    value, set in the order of the configuration; values that are not
    strings are skipped.  If setting one of them fails, the answer is the
    500 for unexpected errors instead; the cache keeps what the request
    stored. *)
Theorem middleware_page_response (P : Platform) (validatedConfig : Config.t)
    (request : Request.t) (pageData : PageData.t) (w w1 : World) :
  Config.enabled validatedConfig = true ->
  startsWith (Config.apiPrefix validatedConfig) (Request.pathname request) = true ->
  let pagePath :=
    extractPagePath (Request.pathname request) (Config.apiPrefix validatedConfig) in
  isValidPath pagePath = true ->
  isPathExcluded pagePath (Config.excludePaths validatedConfig) = false ->
  getPageData P request pagePath (optionsOf validatedConfig) w = (Return pageData, w1) ->
  middleware P validatedConfig request w
  = (Return
       match setHeaders P (stringEntries (Config.additionalHeaders validatedConfig)) []
       with
       | inr headers => Json (PageBody pageData) 200 headers
       | inl _ =>
           Json (ErrorBody "An unexpected error occurred" FETCH_ERROR
                   (toISOString P (clock w1))) 500 []
       end, w1).
Proof.
  intros Henabled Hprefix pagePath Hvalid Hexcluded Hdata.
  rewrite middleware_api_run by assumption. fold pagePath. rewrite Hdata.
  rewrite applyAdditionalHeaders_run.
  destruct (setHeaders P _ []) as [e|headers]; [|reflexivity].
  now rewrite handleMiddlewareError_run.
Qed.

Lemma middleware_page_response_witness :
  let P := examplePlatform aboutDocument (exampleResponse 200 "OK" aboutMarkup) in
  let first := getPageData P (exampleRequest "/api/about") "/about"
                 (optionsOf headersConfig) (initial 0) in
  let pageData := match fst first with
                  | Return data => data
                  | Throw _ => examplePage "/about" None
                  end in
  middleware P headersConfig (exampleRequest "/api/about") (initial 0)
  = (Return (Json (PageBody pageData) 200
               [("x-robots-tag" : str, "noindex" : str)]), snd first).
Proof.
  intros P first pageData.
  apply (middleware_page_response P headersConfig (exampleRequest "/api/about")
           pageData (initial 0) (snd first)).
  - reflexivity.
  - reflexivity.
  - reflexivity.
  - reflexivity.
  - vm_compute. reflexivity.
Defined.

(** ** What is fetched, and what comes of it *)

Lemma constructPageUrl_run (P : Platform) (request : Request.t) (pagePath : str)
    (w : World) :
  snd (constructPageUrl P request pagePath w) = w
  /\ forall pageUrl,
       fst (constructPageUrl P request pagePath w) = Return pageUrl ->
       pageUrlOf P request pagePath = Some pageUrl.
Proof.
  unfold constructPageUrl, pageUrlOf, lift.
  destruct (Request.host request) as [[|x host]|];
    try (split; [reflexivity | discriminate]).
  destruct (newURL P pagePath _) as [e|url]; split;
    try reflexivity; try discriminate.
  now intros pageUrl [= ->].
Qed.

Lemma fetchPageContent_run (P : Platform) (url : str) (timeout : Z) (w : World) :
  let w' := snd (fetchPageContent P url timeout w) in
  (cache w' = cache w
   /\ totalCacheSize w' = totalCacheSize w
   /\ requests w' = requests w ++ [pageFetch url timeout])
  /\ (forall html,
         fst (fetchPageContent P url timeout w) = Return html ->
         exists response,
           fst (network P url (clock w)) = ResponseArrived response
           /\ Response.ok response = true
           /\ Response.text response = inr html)
  /\ (forall error,
         fst (fetchPageContent P url timeout w) = Throw error ->
         error = timeoutError timeout
         \/ (exists e, error = Generic e)
         \/ (exists response,
                fst (network P url (clock w)) = ResponseArrived response
                /\ Response.ok response = false
                /\ error = statusError response)).
Proof.
  rewrite fetchPageContent_cases. cbv zeta.
  destruct (network P url (clock w)) as [[|e|response] elapsed]; cbn [fst].
  - split; [repeat split|]. split; [discriminate|]. intros error [= <-]. now left.
  - destruct (_ <=? _); [|destruct (eqb _ _)];
      (split; [repeat split|]); (split; [discriminate|]); intros error [= <-];
      [now left | now left | right; left; now exists e].
  - destruct (_ <=? _).
    { split; [repeat split|]. split; [discriminate|]. intros error [= <-]. now left. }
    destruct (Response.ok response) eqn:Hok; cbn [negb].
    + destruct (Response.text response) as [e|body] eqn:Htext.
      * destruct (eqb _ _); (split; [repeat split|]); (split; [discriminate|]);
          intros error [= <-]; [now left | right; left; now exists e].
      * split; [repeat split|]. split; [|discriminate].
        intros html [= <-]. now exists response.
    + split; [repeat split|]. split; [discriminate|]. intros error [= <-].
      right. right. now exists response.
Qed.

Lemma extractPageData_run (P : Platform) (html pagePath : str)
    (receiverUsername : option str) (w : World) :
  snd (extractPageData P html pagePath receiverUsername w) = w
  /\ forall data,
       fst (extractPageData P html pagePath receiverUsername w) = Return data ->
       PageData.path data = pagePath
       /\ PageData.html data = Some html
       /\ PageData.contentLength data = Some (length html)
       /\ PageData.statusCode data = Some 200
       /\ PageData.receiverUsername data = receiverUsername
       /\ PageData.extractedAt data = Some (clock w)
       /\ PageData.timestamp data = toISOString P (clock w).
Proof.
  unfold extractPageData, try_catch, bind, lift, Date_now.
  destruct (load P html) as [e|doc]; cbn [throw ret fst snd].
  - split; [reflexivity | discriminate].
  - split; [reflexivity|]. intros data [= <-]. repeat split.
Qed.

Lemma cachePageData_world (P : Platform) (pagePath : str) (data : PageData.t)
    (maxCacheSize : Z) (w : World) :
  requests (snd (cachePageData P pagePath data maxCacheSize w)) = requests w
  /\ clock (snd (cachePageData P pagePath data maxCacheSize w)) = clock w.
Proof.
  destruct (cachePageData_stores P pagePath data maxCacheSize w)
    as [c [total [Hrun _]]].
  rewrite Hrun. now split.
Qed.

(** The fetch phase, step by step: where it ends, and with what. *)
Lemma fetchPhase_run (P : Platform) (request : Request.t) (pagePath : str)
    (options : Options.t) (w : World) :
  let timeout := Options.requestTimeout options in
  let w' := snd (fetchPhase P request pagePath options w) in
  (requests w' = requests w /\ clock w' = clock w
   /\ forall data, fst (fetchPhase P request pagePath options w) <> Return data)
  \/ exists pageUrl,
       pageUrlOf P request pagePath = Some pageUrl
       /\ requests w' = requests w ++ [pageFetch pageUrl timeout]
       /\ forall data,
            fst (fetchPhase P request pagePath options w) = Return data ->
            exists response html,
              fst (network P pageUrl (clock w)) = ResponseArrived response
              /\ Response.ok response = true
              /\ Response.text response = inr html
              /\ PageData.path data = pagePath
              /\ PageData.html data = Some html
              /\ PageData.contentLength data = Some (length html)
              /\ PageData.statusCode data = Some 200
              /\ PageData.receiverUsername data = Options.receiverUsername options
              /\ PageData.extractedAt data = Some (clock w')
              /\ PageData.timestamp data = toISOString P (clock w').
Proof.
  cbv zeta.
  destruct (fetchPhase P request pagePath options w) as [result w'] eqn:Hrun.
  cbn [fst snd]. unfold fetchPhase, try_catch in Hrun. unfold bind at 1 in Hrun.
  destruct (constructPageUrl_run P request pagePath w) as [Hw Hurl].
  destruct (constructPageUrl P request pagePath w) as [[pageUrl|e] w0];
    cbn [fst snd] in Hw, Hurl; subst w0.
  2:{ left. destruct e; unfold throw in Hrun; injection Hrun as <- <-;
        (split; [reflexivity | split; [reflexivity|]]); intros data; discriminate. }
  specialize (Hurl pageUrl eq_refl). right. exists pageUrl. split; [exact Hurl|].
  unfold bind at 1 in Hrun.
  destruct (fetchPageContent_run P pageUrl (Options.requestTimeout options) w)
    as [[_ [_ Hrequests]] [Hresponse _]].
  destruct (fetchPageContent P pageUrl (Options.requestTimeout options) w)
    as [[html|e] w1]; cbn [fst snd] in Hrequests, Hresponse.
  2:{ destruct e; unfold throw in Hrun; injection Hrun as <- <-;
        (split; [assumption|]); intros data; discriminate. }
  destruct (Hresponse html eq_refl) as [response [Hnet [Hok Htext]]].
  unfold bind at 1 in Hrun.
  destruct (extractPageData_run P html pagePath (Options.receiverUsername options) w1)
    as [Hw1 Hfields].
  destruct (extractPageData P html pagePath (Options.receiverUsername options) w1)
    as [[extractedData|e] w2]; cbn [fst snd] in Hw1, Hfields; subst w2.
  2:{ destruct e; unfold throw in Hrun; injection Hrun as <- <-;
        (split; [assumption|]); intros data; discriminate. }
  specialize (Hfields extractedData eq_refl).
  unfold bind at 1 in Hrun.
  assert (Hput : exists w3,
             (if Options.enableCache options
                 && shouldCacheData P extractedData (Options.maxCacheSize options)
              then cachePageData P pagePath extractedData (Options.maxCacheSize options)
              else ret tt) w1 = (Return tt, w3)
             /\ requests w3 = requests w1 /\ clock w3 = clock w1).
  { destruct (_ && _).
    - destruct (cachePageData_stores P pagePath extractedData
                  (Options.maxCacheSize options) w1) as [c [total [Hstore _]]].
      rewrite Hstore. eexists. split; [reflexivity|]. now split.
    - eexists. split; [reflexivity|]. now split. }
  destruct Hput as [w3 [Hstep [Hrequests3 Hclock3]]]. rewrite Hstep in Hrun.
  unfold ret in Hrun. injection Hrun as <- <-.
  rewrite Hrequests3, Hclock3.
  split; [exact Hrequests|].
  intros data [= <-]. exists response, html.
  destruct Hfields as [H1 [H2 [H3 [H4 [H5 [H6 H7]]]]]].
  repeat split; assumption.
Qed.

(** Where the middleware leaves the world: as it was, or as
    [getPageData] left it. *)
Lemma middleware_world (P : Platform) (validatedConfig : Config.t)
    (request : Request.t) (w : World) :
  let pagePath :=
    extractPagePath (Request.pathname request) (Config.apiPrefix validatedConfig) in
  snd (middleware P validatedConfig request w) = w
  \/ snd (middleware P validatedConfig request w)
     = snd (getPageData P request pagePath (optionsOf validatedConfig) w).
Proof.
  cbv zeta. unfold middleware. cbv zeta.
  destruct (negb (Config.enabled validatedConfig)); [now left|].
  destruct (negb (startsWith _ _)); [now left|].
  unfold try_catch.
  destruct (negb (isValidPath _)); [now left|].
  destruct (isPathExcluded _ _); [now left|].
  right. unfold bind. fold (optionsOf validatedConfig).
  destruct (getPageData P request _ (optionsOf validatedConfig) w)
    as [[pageData|error] w1]; cbn [snd].
  - change (NextResponse_json (PageBody pageData) 200 w1)
      with (Return (Json (PageBody pageData) 200 []), w1).
    cbv beta iota.
    pose proof (applyAdditionalHeaders_world P
                  (Config.additionalHeaders validatedConfig)
                  (Json (PageBody pageData) 200 []) w1) as Hw.
    destruct (applyAdditionalHeaders P _ _ w1) as [[response|error] w2];
      cbn [snd] in Hw |- *; [exact Hw|].
    subst w2. apply handleMiddlewareError_world.
  - apply handleMiddlewareError_world.
Qed.

(** A request makes the middleware fetch at most one page, and no other
    than the page of its own content path on the host and protocol it came
    with, announced as the SDK and with the configured timeout. *)
Theorem middleware_fetches_at_most_once (P : Platform) (validatedConfig : Config.t)
    (request : Request.t) (w : World) :
  let pagePath :=
    extractPagePath (Request.pathname request) (Config.apiPrefix validatedConfig) in
  let w' := snd (middleware P validatedConfig request w) in
  requests w' = requests w
  \/ exists pageUrl,
       pageUrlOf P request pagePath = Some pageUrl
       /\ requests w'
          = requests w ++ [pageFetch pageUrl (Config.requestTimeout validatedConfig)].
Proof.
  cbv zeta.
  destruct (middleware_world P validatedConfig request w) as [-> | ->];
    [now left|].
  rewrite getPageData_phases. unfold bind.
  destruct (lookupPhase _ (optionsOf validatedConfig) w)
    as [[[cachedData|]|e] w0] eqn:Hlookup;
    pose proof (lookup_keeps_requests _ _ _ _ _ _ Hlookup) as Hkept;
    cbn [snd ret]; try (now left).
  destruct (fetchPhase_run P request
              (extractPagePath (Request.pathname request)
                 (Config.apiPrefix validatedConfig))
              (optionsOf validatedConfig) w0)
    as [[Hsame _] | [pageUrl [Hurl [Hrequests _]]]].
  - left. congruence.
  - right. exists pageUrl. split; [exact Hurl|]. now rewrite Hrequests, Hkept.
Qed.

(** The record of a page that was fetched: the markup is the body of
    the response as it arrived, the content length is its length, the
    status code recorded is 200 whatever status between 200 and 299 the
    response had, the receiver is the one of the options, and the two time
    stamps are the time at which the response had arrived. *)
Theorem getPageData_fresh_record (P : Platform) (request : Request.t)
    (pagePath : str) (options : Options.t) (data : PageData.t) (w w1 : World) :
  getPageData P request pagePath options w = (Return data, w1) ->
  requests w1 <> requests w ->
  exists pageUrl response html,
    pageUrlOf P request pagePath = Some pageUrl
    /\ fst (network P pageUrl (clock w)) = ResponseArrived response
    /\ 200 <= Response.status response <= 299
    /\ Response.text response = inr html
    /\ PageData.path data = pagePath
    /\ PageData.html data = Some html
    /\ PageData.contentLength data = Some (length html)
    /\ PageData.statusCode data = Some 200
    /\ PageData.receiverUsername data = Options.receiverUsername options
    /\ PageData.extractedAt data = Some (clock w1)
    /\ PageData.timestamp data = toISOString P (clock w1).
Proof.
  intros Hrun Hfetched. rewrite getPageData_phases in Hrun. unfold bind in Hrun.
  destruct (lookupPhase pagePath options w) as [[[cachedData|]|e] w0] eqn:Hlookup;
    [| |discriminate].
  { unfold ret in Hrun. injection Hrun as _ <-. exfalso. apply Hfetched.
    exact (lookup_keeps_requests _ _ _ _ _ _ Hlookup). }
  assert (Hclock0 : clock w0 = clock w).
  { unfold lookupPhase in Hlookup. destruct (Options.enableCache options);
      [|now injection Hlookup as <-].
    rewrite getCachedData_run in Hlookup.
    destruct (JsMap.get pagePath (cache w)) as [entry|];
      [|now injection Hlookup as <-].
    destruct (_ >? _); [now injection Hlookup as <- | discriminate]. }
  destruct (fetchPhase_run P request pagePath options w0)
    as [[_ [_ Hnever]] | [pageUrl [Hurl [_ Hdata]]]].
  - exfalso. apply (Hnever data). now rewrite Hrun.
  - rewrite Hrun in Hdata. cbn [fst snd] in Hdata.
    destruct (Hdata data eq_refl)
      as [response [html [Hnet [Hok [Htext [H1 [H2 [H3 [H4 [H5 [H6 H7]]]]]]]]]]].
    exists pageUrl, response, html. rewrite <- Hclock0.
    unfold Response.ok in Hok. apply andb_true_iff in Hok as [Hlo Hhi].
    apply Z.leb_le in Hlo, Hhi.
    repeat split; assumption.
Qed.

Lemma getPageData_fresh_record_witness :
  let P := examplePlatform aboutDocument (exampleResponse 204 "No Content" "") in
  let first := getPageData P (exampleRequest "/api/about") "/about"
                 (exampleOptions "A") (initial 0) in
  let data := match fst first with
              | Return data => data
              | Throw _ => examplePage "/about" None
              end in
  PageData.statusCode data = Some 200 /\ PageData.html data = Some [].
Proof.
  intros P first data.
  destruct (getPageData_fresh_record P (exampleRequest "/api/about") "/about"
              (exampleOptions "A") data (initial 0) (snd first))
    as [pageUrl [response [html [_ [Hnet [_ [Htext [_ [Hhtml [_ [Hstatus _]]]]]]]]]]].
  - vm_compute. reflexivity.
  - vm_compute. discriminate.
  - split; [exact Hstatus|]. rewrite Hhtml.
    vm_compute in Hnet. injection Hnet as <-. vm_compute in Htext.
    now injection Htext as <-.
Defined.

(** ** Too large for the cache *)

(** When the fetch phase returns a record that is not to be cached, the
    cache and its running total are as they were. *)
Lemma fetchPhase_skips (P : Platform) (request : Request.t) (pagePath : str)
    (options : Options.t) (data : PageData.t) (w w' : World) :
  fetchPhase P request pagePath options w = (Return data, w') ->
  Options.enableCache options
  && shouldCacheData P data (Options.maxCacheSize options) = false ->
  cache w' = cache w /\ totalCacheSize w' = totalCacheSize w.
Proof.
  intros Hrun Hskip. unfold fetchPhase, try_catch in Hrun.
  unfold bind at 1 in Hrun.
  destruct (constructPageUrl_run P request pagePath w) as [Hw _].
  destruct (constructPageUrl P request pagePath w) as [[pageUrl|e] w0];
    [|destruct e; discriminate].
  cbn [snd] in Hw. subst w0. unfold bind at 1 in Hrun.
  destruct (fetchPageContent_run P pageUrl (Options.requestTimeout options) w)
    as [[Hcache [Htotal _]] _].
  destruct (fetchPageContent P pageUrl (Options.requestTimeout options) w)
    as [[html|e] w1]; [|destruct e; discriminate].
  cbn [snd] in Hcache, Htotal. unfold bind at 1 in Hrun.
  destruct (extractPageData_run P html pagePath (Options.receiverUsername options) w1)
    as [Hw1 _].
  destruct (extractPageData P html pagePath (Options.receiverUsername options) w1)
    as [[extractedData|e] w2]; [|destruct e; discriminate].
  cbn [snd] in Hw1. subst w2. unfold bind at 1 in Hrun.
  destruct (Options.enableCache options
            && shouldCacheData P extractedData (Options.maxCacheSize options))
    eqn:Hput.
  - destruct (cachePageData_stores P pagePath extractedData
                (Options.maxCacheSize options) w1) as [c [total [Hstore _]]].
    rewrite Hstore in Hrun. injection Hrun as <- _. congruence.
  - unfold ret in Hrun. injection Hrun as _ <-. now split.
Qed.

(** A page whose record is larger than [maxCacheSize] is served and not
    stored: after the call the cache and its running total are as the
    lookup left them, nothing was evicted to make room, and with the cache
    enabled the path is not in the cache, so that the next call for it
    fetches again. *)
Theorem getPageData_too_large_is_not_cached (P : Platform) (request : Request.t)
    (pagePath : str) (options : Options.t) (data : PageData.t) (w w1 : World) :
  getPageData P request pagePath options w = (Return data, w1) ->
  requests w1 <> requests w ->
  Options.maxCacheSize options < dataSizeOf P data ->
  cache w1 = cache (snd (lookupPhase pagePath options w))
  /\ totalCacheSize w1 = totalCacheSize (snd (lookupPhase pagePath options w))
  /\ (Options.enableCache options = true -> JsMap.get pagePath (cache w1) = None).
Proof.
  intros Hrun Hfetched Hlarge. rewrite getPageData_phases in Hrun.
  unfold bind in Hrun.
  destruct (lookupPhase pagePath options w) as [[[cachedData|]|e] w0] eqn:Hlookup;
    [| |discriminate].
  { unfold ret in Hrun. injection Hrun as _ <-. exfalso. apply Hfetched.
    exact (lookup_keeps_requests _ _ _ _ _ _ Hlookup). }
  assert (Hskip : Options.enableCache options
                  && shouldCacheData P data (Options.maxCacheSize options) = false).
  { apply andb_false_iff. right. unfold shouldCacheData. apply Z.leb_gt. exact Hlarge. }
  destruct (fetchPhase_skips _ _ _ _ _ _ _ Hrun Hskip) as [Hcache Htotal].
  cbn [snd]. split; [exact Hcache|]. split; [exact Htotal|].
  intros Hon. rewrite Hcache. unfold lookupPhase in Hlookup. rewrite Hon in Hlookup.
  rewrite getCachedData_run in Hlookup.
  destruct (JsMap.get pagePath (cache w)) as [entry|] eqn:Hget.
  - destruct (_ >? _); [|discriminate]. injection Hlookup as <-.
    cbn [with_cache cache]. apply get_delete_same.
  - now injection Hlookup as <-.
Qed.

Lemma getPageData_too_large_is_not_cached_witness :
  let P := examplePlatform aboutDocument (exampleResponse 200 "OK" aboutMarkup) in
  let options :=
    {| Options.enableCache := true; Options.cacheDuration := 3600;
       Options.receiverUsername := None;
       Options.maxCacheSize := 150; Options.requestTimeout := 5000 |} in
  let first := getPageData P (exampleRequest "/api/about") "/about" options
                 (initial 0) in
  JsMap.get "/about" (cache (snd first)) = None.
Proof.
  intros P options first.
  apply (getPageData_too_large_is_not_cached P (exampleRequest "/api/about") "/about"
           options
           match fst first with
           | Return data => data
           | Throw _ => examplePage "/about" None
           end (initial 0) (snd first)).
  - vm_compute. reflexivity.
  - vm_compute. discriminate.
  - vm_compute. reflexivity.
  - reflexivity.
Defined.

(** ** Answering, or not *)

Lemma lookupPhase_frame (pagePath : str) (options : Options.t) (w : World) :
  clock (snd (lookupPhase pagePath options w)) = clock w
  /\ forall error, fst (lookupPhase pagePath options w) <> Throw error.
Proof.
  unfold lookupPhase. destruct (Options.enableCache options);
    [|split; [reflexivity | discriminate]].
  rewrite getCachedData_run.
  destruct (JsMap.get pagePath (cache w)) as [entry|];
    [|split; [reflexivity | discriminate]].
  destruct (_ >? _); split; try reflexivity; discriminate.
Qed.

Lemma constructPageUrl_thrown (P : Platform) (request : Request.t) (pagePath : str)
    (w : World) (error : thrown) :
  fst (constructPageUrl P request pagePath w) = Throw error ->
  (exists e, error = Generic e)
  \/ (exists a, error = AutoApi a /\ AutoApiError.statusCode a = Some 400).
Proof.
  unfold constructPageUrl, lift.
  destruct (Request.host request) as [[|x host]|].
  - intros [= <-]. right. eexists. split; reflexivity.
  - destruct (newURL P pagePath _) as [e|url]; [|discriminate].
    intros [= <-]. left. now exists e.
  - intros [= <-]. right. eexists. split; reflexivity.
Qed.

Lemma extractPageData_thrown (P : Platform) (html pagePath : str)
    (receiverUsername : option str) (w : World) (error : thrown) :
  fst (extractPageData P html pagePath receiverUsername w) = Throw error ->
  exists a, error = AutoApi a /\ AutoApiError.statusCode a = None.
Proof.
  unfold extractPageData, try_catch, bind, lift, Date_now.
  destruct (load P html) as [e|doc]; cbn [throw ret fst]; [|discriminate].
  intros [= <-]. eexists. split; reflexivity.
Qed.

(** The status code of what the fetch phase throws: none, 400, 408, or
    the status with which the origin answered outside 200-299. *)
Lemma fetchPhase_thrown_status (P : Platform) (request : Request.t) (pagePath : str)
    (options : Options.t) (w w' : World) (error : thrown) :
  fetchPhase P request pagePath options w = (Throw error, w') ->
  exists a,
    error = AutoApi a
    /\ (AutoApiError.statusCode a = None
        \/ AutoApiError.statusCode a = Some 400
        \/ AutoApiError.statusCode a = Some 408
        \/ exists status,
             originStatus P request pagePath (clock w) = Some status
             /\ (status < 200 \/ 299 < status)
             /\ AutoApiError.statusCode a = Some status).
Proof.
  intros Hrun. unfold fetchPhase, try_catch in Hrun. unfold bind at 1 in Hrun.
  destruct (constructPageUrl_run P request pagePath w) as [Hw Hurl].
  pose proof (constructPageUrl_thrown P request pagePath w) as Hthrown.
  destruct (constructPageUrl P request pagePath w) as [[pageUrl|e] w0];
    cbn [fst snd] in Hw, Hurl, Hthrown; subst w0.
  2:{ destruct (Hthrown e eq_refl) as [[g ->] | [a [-> Ha]]];
        unfold throw in Hrun; injection Hrun as <- _;
        eexists; (split; [reflexivity|]); cbn; auto. }
  specialize (Hurl pageUrl eq_refl). unfold bind at 1 in Hrun.
  destruct (fetchPageContent_run P pageUrl (Options.requestTimeout options) w)
    as [_ [_ Hfailed]].
  destruct (fetchPageContent P pageUrl (Options.requestTimeout options) w)
    as [[html|e] w1]; cbn [fst snd] in Hfailed.
  2:{ destruct (Hfailed e eq_refl)
        as [-> | [[g ->] | [response [Hnet [Hok ->]]]]];
        unfold throw in Hrun; cbn in Hrun; injection Hrun as <- _;
        eexists; (split; [reflexivity|]); cbn [AutoApiError.statusCode]; auto.
      right. right. right. exists (Response.status response).
      split; [|split; [|reflexivity]].
      - unfold originStatus. now rewrite Hurl, Hnet.
      - unfold Response.ok in Hok. apply andb_false_iff in Hok.
        destruct Hok as [H|H]; apply Z.leb_gt in H; lia. }
  unfold bind at 1 in Hrun.
  pose proof (extractPageData_thrown P html pagePath
                (Options.receiverUsername options) w1) as Hparse.
  destruct (extractPageData P html pagePath (Options.receiverUsername options) w1)
    as [[extractedData|e] w2]; cbn [fst] in Hparse.
  2:{ destruct (Hparse e eq_refl) as [a [-> Ha]].
      unfold throw in Hrun. injection Hrun as <- _. exists a. now split; [|left]. }
  unfold bind at 1 in Hrun. exfalso.
  destruct (Options.enableCache options
            && shouldCacheData P extractedData (Options.maxCacheSize options)).
  - destruct (cachePageData_stores P pagePath extractedData
                (Options.maxCacheSize options) w2) as [c [total [Hstore _]]].
    rewrite Hstore in Hrun. discriminate.
  - discriminate.
Qed.

(** The middleware answers every request but one kind.  It returns the
    pass-through, a page with status 200, or an error body with a status
    that a response can carry.  It throws, instead of answering, only when
    the origin answered the request for the page with a status outside
    200-299 that [NextResponse.json] refuses (304, or a status other than 0
    outside 200-599): the error response cannot be built, and the
    [RangeError] or [TypeError] of the attempt leaves the middleware from
    inside its catch block. *)
Theorem middleware_answers_or_status_refused (P : Platform)
    (validatedConfig : Config.t) (request : Request.t) (w : World) :
  let pagePath :=
    extractPagePath (Request.pathname request) (Config.apiPrefix validatedConfig) in
  (exists response w',
      middleware P validatedConfig request w = (Return response, w')
      /\ (response = Next
          \/ (exists pageData headers, response = Json (PageBody pageData) 200 headers)
          \/ (exists message type timestamp status,
                 response = Json (ErrorBody message type timestamp) status []
                 /\ refusedStatus status = false)))
  \/ (exists e w' status,
         middleware P validatedConfig request w = (Throw (Generic e), w')
         /\ (Error.name e = "RangeError" \/ Error.name e = "TypeError")
         /\ originStatus P request pagePath (clock w) = Some status
         /\ (status < 200 \/ 299 < status)
         /\ status <> 0
         /\ refusedStatus status = true).
Proof.
  intros pagePath.
  assert (Herr : forall message type timestamp status w1,
             refusedStatus status = false ->
             exists response w',
               NextResponse_json (ErrorBody message type timestamp) status w1
               = (Return response, w')
               /\ (response = Next
                   \/ (exists pageData headers,
                          response = Json (PageBody pageData) 200 headers)
                   \/ (exists message type timestamp status,
                          response = Json (ErrorBody message type timestamp) status []
                          /\ refusedStatus status = false))).
  { intros message type timestamp status w1 Hstatus.
    do 2 eexists. split; [exact (proj1 (NextResponse_json_run _ _ _) Hstatus)|].
    right. right. do 4 eexists. split; [reflexivity | exact Hstatus]. }
  destruct (Config.enabled validatedConfig) eqn:Henabled.
  2: { left. exists Next, w. unfold middleware. rewrite Henabled.
       split; [reflexivity | now left]. }
  destruct (startsWith (Config.apiPrefix validatedConfig) (Request.pathname request))
    eqn:Hprefix.
  2: { left. exists Next, w. unfold middleware. rewrite Henabled, Hprefix.
       split; [reflexivity | now left]. }
  destruct (isValidPath pagePath) eqn:Hvalid.
  2: { left. unfold middleware. rewrite Henabled, Hprefix. cbn [negb]. cbv zeta.
       fold pagePath. rewrite Hvalid. cbn [negb]. eexists. eexists.
       split; [reflexivity|].
       right. right. do 4 eexists. split; reflexivity. }
  destruct (isPathExcluded pagePath (Config.excludePaths validatedConfig))
    eqn:Hexcluded.
  { left. exists Next, w. unfold middleware. rewrite Henabled, Hprefix. cbn [negb].
    cbv zeta. fold pagePath. rewrite Hvalid, Hexcluded.
    split; [reflexivity | now left]. }
  rewrite (middleware_api_run P validatedConfig request w Henabled Hprefix Hvalid
             Hexcluded).
  fold pagePath.
  destruct (getPageData P request pagePath (optionsOf validatedConfig) w)
    as [[pageData|error] w1] eqn:Hget.
  - left. rewrite applyAdditionalHeaders_run.
    destruct (setHeaders P _ []) as [e|headers].
    + rewrite handleMiddlewareError_run. now apply Herr.
    + do 2 eexists. split; [reflexivity|]. right. left. now exists pageData, headers.
  - rewrite getPageData_phases in Hget. unfold bind in Hget.
    destruct (lookupPhase_frame pagePath (optionsOf validatedConfig) w)
      as [Hclock Hnothrow].
    destruct (lookupPhase pagePath (optionsOf validatedConfig) w)
      as [[[cachedData|]|e] w0]; cbn [fst snd] in Hclock, Hnothrow;
      [discriminate | | now destruct (Hnothrow e)].
    apply fetchPhase_thrown_status in Hget as [a [-> Hstatus]].
    rewrite Hclock in Hstatus. rewrite handleMiddlewareError_run.
    destruct Hstatus as [Ha | [Ha | [Ha | [status [Horigin [Hnotok Ha]]]]]];
      rewrite Ha; cbn [status_or]; try (left; now apply Herr).
    destruct (Z.eq_dec status 0) as [-> | Hnonzero]; [left; now apply Herr|].
    replace (match status with 0 => 500 | _ => status end) with status
      by now destruct status.
    destruct (refusedStatus status) eqn:Hrefused; [|left; now apply Herr].
    right.
    destruct (proj2 (NextResponse_json_run
                       (ErrorBody (AutoApiError.message a) (AutoApiError.type a)
                          (toISOString P (clock w1))) status w1) Hrefused)
      as [e [Hthrow Hname]].
    exists e, w1, status. repeat split; assumption.
Qed.
